(** * The project scaffolder [scripts/create-new-app.js]

    A shallow embedding of the interactive scaffolding script and the
    properties of it that the specification states.  The script prompts for
    five answers, creates the project directory, copies a template tree,
    rewrites [package.json] and [README.md], runs the package manager and
    git, and prints a summary.

    The model:
    - JavaScript strings are sequences of code units; they are modelled by
      [string], one [ascii] per code unit (the 8-bit range).
    - The file system is a tree of directories and files; an absolute
      POSIX path is the list of its components.  Links, permissions and
      the limits of the medium are left out.
    - A run is a function from a world (file system, remaining lines of
      standard input, trace of console output and spawned commands) to a
      result: it returns, throws, exits the process, waits for input, or
      runs out of the fuel that bounds the recursion of [copyDirectory].
      Each question takes the next line that the user types.
    - The spawned commands and the two JSON functions are parameters of
      the script.
    - The logging helpers record the kind, the colour name and the text
      of a line; [colorize] gives the text that is written for a colour
      name.  Pictographs are left out. *)

From Stdlib Require Import ZArith Ascii List Lia.
From stdpp Require Import gmap strings list fin_maps.

Local Open Scope Z_scope.

#[local] Set Warnings "-register-all".

(** ** JavaScript string primitives *)

Module JS.

(** [String.prototype.trim]: white space and line terminators among the
    code units below 256 are TAB, LF, VT, FF, CR, SP and NBSP. *)
Definition isWhiteSpace (c : ascii) : bool :=
  let n := nat_of_ascii c in
  ((9 <=? n)%nat && (n <=? 13)%nat) || (n =? 32)%nat || (n =? 160)%nat.

Fixpoint trimStart (s : string) : string :=
  match s with
  | EmptyString => EmptyString
  | String c s' => if isWhiteSpace c then trimStart s' else s
  end.

Definition trimEnd (s : string) : string :=
  String.rev (trimStart (String.rev s)).

Definition trim (s : string) : string := trimEnd (trimStart s).

(** The value of a code unit as a digit: [0-9], [a-z] and [A-Z]. *)
Definition digitValue (c : ascii) : option Z :=
  let n := Z.of_nat (nat_of_ascii c) in
  if (48 <=? n) && (n <=? 57) then Some (n - 48)
  else if (97 <=? n) && (n <=? 122) then Some (n - 87)
  else if (65 <=? n) && (n <=? 90) then Some (n - 55)
  else None.

(** The longest prefix of digits of radix [R], read as an integer; [acc]
    is [None] as long as no digit has been read. *)
Fixpoint parseDigits (R : Z) (acc : option Z) (s : string) : option Z :=
  match s with
  | EmptyString => acc
  | String c s' =>
      match digitValue c with
      | Some d =>
          if d <? R then parseDigits R (Some (R * default 0 acc + d)) s'
          else acc
      | None => acc
      end
  end.

(** [parseInt(s)] without a radix: leading white space is skipped, a sign
    is read, a [0x]/[0X] prefix selects radix 16, and the longest prefix of
    digits is the value.  [None] stands for [NaN].  The result is the exact
    integer; the rounding of the double for more than 2^53 is not modelled
    (a rounded value of that size is no valid menu choice either). *)
Definition parseInt (s : string) : option Z :=
  let s := trimStart s in
  let '(sign, s) :=
    match s with
    | String "-"%char r => (-1, r)
    | String "+"%char r => (1, r)
    | _ => (1, s)
    end in
  let '(R, s) :=
    match s with
    | String "0"%char (String "x"%char r) => (16, r)
    | String "0"%char (String "X"%char r) => (16, r)
    | _ => (10, s)
    end in
  Z.mul sign <$> parseDigits R None s.

(** [arr[i]] for a number [i] that may be [NaN]: [undefined] ([None]) unless
    [i] is an index of the array. *)
Definition index {A} (arr : list A) (i : option Z) : option A :=
  match i with
  | Some i => if (0 <=? i) then arr !! Z.to_nat i else None
  | None => None
  end.

(** [x || d] on a string that may be [undefined]: the empty string and
    [undefined] are falsy. *)
Definition orElse (x : option string) (d : string) : string :=
  match x with
  | Some EmptyString => d
  | Some s => s
  | None => d
  end.

(** [isPrefixOf t s]: [s] starts with [t]. *)
Fixpoint isPrefixOf (t s : string) : bool :=
  match t, s with
  | EmptyString, _ => true
  | String a t', String b s' => if Ascii.eqb a b then isPrefixOf t' s' else false
  | String _ _, EmptyString => false
  end.

Fixpoint dropChars (n : nat) (s : string) : string :=
  match n, s with
  | O, _ => s
  | S n', String _ s' => dropChars n' s'
  | S _, EmptyString => EmptyString
  end.

(** [GetSubstitution] for a pattern without capture groups: in the
    replacement text [$$] is a dollar sign, [$&] the matched text, [$`] the
    text before the match and [$'] the text after it; [$1], [$<] and any
    other dollar sign stand for themselves. *)
Fixpoint getSubstitution (matched before after repl : string) : string :=
  match repl with
  | EmptyString => EmptyString
  | String "$"%char (String "$"%char r) =>
      String "$"%char (getSubstitution matched before after r)
  | String "$"%char (String "&"%char r) =>
      matched +:+ getSubstitution matched before after r
  | String "$"%char (String "`"%char r) =>
      before +:+ getSubstitution matched before after r
  | String "$"%char (String "'"%char r) =>
      after +:+ getSubstitution matched before after r
  | String c r => String c (getSubstitution matched before after r)
  end.

(** [s.replace(/tok/g, repl)] for a pattern that matches the literal text
    [tok]: the matches are found from left to right without overlap.
    [before] is the text already passed and [skip] counts the code units
    of the current match that are still to be dropped. *)
Fixpoint replaceFrom (tok repl before : string) (skip : nat) (s : string) : string :=
  match s with
  | EmptyString => EmptyString
  | String c s' =>
      match skip with
      | S k => replaceFrom tok repl (before +:+ String c EmptyString) k s'
      | O =>
          if isPrefixOf tok s then
            getSubstitution tok before (dropChars (String.length tok) s) repl
              +:+ replaceFrom tok repl (before +:+ String c EmptyString)
                    (String.length tok - 1) s'
          else String c (replaceFrom tok repl (before +:+ String c EmptyString) O s')
      end
  end.

Definition replaceAll (tok repl s : string) : string :=
  replaceFrom tok repl EmptyString O s.

(** [occurs t s]: the text [t] occurs somewhere in [s]. *)
Fixpoint occurs (t s : string) : bool :=
  match s with
  | EmptyString => isPrefixOf t EmptyString
  | String _ s' => isPrefixOf t s || occurs t s'
  end.

End JS.

(** ** Values read by [JSON.parse] *)

(** A number is identified by its canonical rendering.  The properties of
    an object are kept in the order in which [JSON.stringify] lists them. *)
Inductive jsval :=
| JNull
| JBool (b : bool)
| JNum (repr : string)
| JStr (s : string)
| JArr (items : list jsval)
| JObj (props : list (string * jsval)).

Fixpoint getProp (k : string) (props : list (string * jsval)) : option jsval :=
  match props with
  | [] => None
  | (k', v) :: rest => if String.eqb k' k then Some v else getProp k rest
  end.

(** Writing a property that is no array index: an existing property keeps
    its place, a new one is added last. *)
Fixpoint setProp (k : string) (v : jsval) (props : list (string * jsval))
  : list (string * jsval) :=
  match props with
  | [] => [(k, v)]
  | (k', v') :: rest =>
      if String.eqb k' k then (k, v) :: rest else (k', v') :: setProp k v rest
  end.

(** [o.k = v] in sloppy mode, as far as [JSON.stringify] can observe it:
    on an object the property is written; on [null] a [TypeError] is thrown
    ([None]); on a boolean, number or string the write is dropped; on an
    array the property is set but never serialised. *)
Definition assignProp (o : jsval) (k : string) (v : jsval) : option jsval :=
  match o with
  | JObj props => Some (JObj (setProp k v props))
  | JNull => None
  | _ => Some o
  end.

(** ** Paths and the file system *)

(** An absolute path is the list of its components below the root. *)
Definition path := list string.

Fixpoint splitOn (sep : ascii) (cur s : string) : list string :=
  match s with
  | EmptyString => [cur]
  | String c s' =>
      if Ascii.eqb c sep then cur :: splitOn sep EmptyString s'
      else splitOn sep (cur +:+ String c EmptyString) s'
  end.

Definition normalizeStep (acc : path) (seg : string) : path :=
  if String.eqb seg EmptyString then acc
  else if String.eqb seg "." then acc
  else if String.eqb seg ".." then removelast acc
  else acc ++ [seg].

(** POSIX [path.join(base, ...args)] for an absolute, normalised [base]:
    the arguments are split at the separators, empty and [.] segments are
    dropped and [..] removes the last component (the root is its own
    parent).  The result names the file; a separator at the end of the
    last argument, which [path.join] keeps in its text, is not part of
    it. *)
Definition path_join (base : path) (args : list string) : path :=
  fold_left normalizeStep (concat (map (splitOn "/"%char EmptyString) args)) base.

(** The text of a path below the root; the root itself, which is written
    [/], has the empty text here. *)
Fixpoint path_to_string (p : path) : string :=
  match p with
  | [] => EmptyString
  | x :: q => "/" +:+ x +:+ path_to_string q
  end.

Inductive node :=
| File (data : string)
| Dir (entries : gmap string node).

Record Dirent := { name : string; isDirectory : bool }.

Module FS.

Fixpoint lookup (n : node) (p : path) : option node :=
  match p with
  | [] => Some n
  | x :: q =>
      match n with
      | Dir m => c ← m !! x; lookup c q
      | File _ => None
      end
  end.

Definition exists_ (n : node) (p : path) : bool :=
  match lookup n p with Some _ => true | None => false end.

(** [mkdir -p]: every missing directory on the way is created; a file on
    the way, or at the end, is an error. *)
Fixpoint mkdirp (n : node) (p : path) : option node :=
  match n with
  | File _ => None
  | Dir m =>
      match p with
      | [] => Some n
      | x :: q =>
          c' ← mkdirp (default (Dir ∅) (m !! x)) q;
          Some (Dir (<[x := c']> m))
      end
  end.

(** Create or overwrite the file at [p]: the parent has to be a directory
    and [p] itself must not be one. *)
Fixpoint putFile (n : node) (p : path) (data : string) : option node :=
  match n, p with
  | Dir m, [x] =>
      match m !! x with
      | Some (Dir _) => None
      | _ => Some (Dir (<[x := File data]> m))
      end
  | Dir m, x :: q =>
      c ← m !! x;
      c' ← putFile c q data;
      Some (Dir (<[x := c']> m))
  | _, _ => None
  end.

Definition readFile (n : node) (p : path) : option string :=
  match lookup n p with
  | Some (File data) => Some data
  | _ => None
  end.

Definition dirent (e : string * node) : Dirent :=
  {| name := e.1;
     isDirectory := match e.2 with Dir _ => true | File _ => false end |}.

Definition readdir (n : node) (p : path) : option (list Dirent) :=
  match lookup n p with
  | Some (Dir m) => Some (dirent <$> map_to_list m)
  | _ => None
  end.

End FS.

(** ** The world the script runs in *)

Inductive event :=
| Log (color text : string)
| LogError (text : string)
| LogSuccess (text : string)
| LogInfo (text : string)
| LogWarning (text : string)
| NewLine
| Question (prompt : string)
| Exec (cmd : string) (cwd : path).

Inductive error :=
| Error (message : string)
| FsError (syscall : string) (p : path)
| SyntaxError
| TypeError
| ExecError (cmd : string).

Definition message (e : error) : string :=
  match e with
  | Error m => m
  | FsError syscall p => syscall +:+ " '" +:+ path_to_string p +:+ "'"
  | SyntaxError => "Unexpected token in JSON"
  | TypeError => "Cannot set properties of null"
  | ExecError cmd => "Command failed: " +:+ cmd
  end.

Record world := World {
  fs : node;
  stdin : list string;
  trace : list event
}.

(** How a computation ends: it returns, it throws, the process exits, it
    waits for a line of input that never comes, or the model has no fuel
    left for a further call of [copyDirectory]. *)
Inductive result (A : Type) :=
| Done (a : A) (w : world)
| Thrown (e : error) (w : world)
| Exited (code : Z) (w : world)
| Waiting (w : world)
| OutOfFuel.
Arguments Done {A} a w.
Arguments Thrown {A} e w.
Arguments Exited {A} code w.
Arguments Waiting {A} w.
Arguments OutOfFuel {A}.

Definition M (A : Type) : Type := world → result A.

#[global] Instance M_ret : MRet M := λ A a w, Done a w.
#[global] Instance M_bind : MBind M := λ A B f m w,
  match m w with
  | Done a w' => f a w'
  | Thrown e w' => Thrown e w'
  | Exited c w' => Exited c w'
  | Waiting w' => Waiting w'
  | OutOfFuel => OutOfFuel
  end.

Definition throw {A} (e : error) : M A := λ w, Thrown e w.

(** [try { m } catch (e) { h e }] *)
Definition tryCatch {A} (m : M A) (h : error → M A) : M A := λ w,
  match m w with
  | Thrown e w' => h e w'
  | r => r
  end.

(** A library call that returns a value or throws. *)
Definition orThrow {A} (o : option A) (e : error) : M A := λ w,
  match o with
  | Some a => Done a w
  | None => Thrown e w
  end.

Definition process_exit {A} (code : Z) : M A := λ w, Exited code w.

Definition emit (e : event) : M unit := λ w,
  Done tt {| fs := fs w; stdin := stdin w; trace := trace w ++ [e] |}.

(** [rl.question(prompt, callback)]: the prompt is written and the callback
    receives the next line of input. *)
Definition question (prompt : string) : M string := λ w,
  match stdin w with
  | [] => Waiting {| fs := fs w; stdin := []; trace := trace w ++ [Question prompt] |}
  | answer :: rest =>
      Done answer {| fs := fs w; stdin := rest; trace := trace w ++ [Question prompt] |}
  end.

Definition liftFs (syscall : string) (p : path) (f : node → option node) : M unit := λ w,
  match f (fs w) with
  | Some n => Done tt {| fs := n; stdin := stdin w; trace := trace w |}
  | None => Thrown (FsError syscall p) w
  end.

Definition existsSync (p : path) : M bool := λ w, Done (FS.exists_ (fs w) p) w.

Definition mkdirSync (p : path) : M unit := liftFs "mkdir" p (λ n, FS.mkdirp n p).

Definition readdirSync (p : path) : M (list Dirent) := λ w,
  match FS.readdir (fs w) p with
  | Some es => Done es w
  | None => Thrown (FsError "scandir" p) w
  end.

Definition readFileSync (p : path) : M string := λ w,
  match FS.readFile (fs w) p with
  | Some data => Done data w
  | None => Thrown (FsError "open" p) w
  end.

Definition writeFileSync (p : path) (data : string) : M unit :=
  liftFs "open" p (λ n, FS.putFile n p data).

Definition copyFileSync (src dest : path) : M unit :=
  liftFs "copyfile" src (λ n, data ← FS.readFile n src; FS.putFile n dest data).

(** [for (const x of xs) { body x }] *)
Fixpoint forOf {A} (xs : list A) (body : A → M unit) : M unit :=
  match xs with
  | [] => mret tt
  | x :: rest => body x;; forOf rest body
  end.

Definition quoted (s : string) : string :=
  String "034"%char s +:+ String "034"%char EmptyString.

(** The logging helpers; the marks they add are not modelled, the colours
    are those of [colorize] below. *)
Definition log (text color : string) : M unit := emit (Log color text).
Definition logError (text : string) : M unit := emit (LogError text).
Definition logSuccess (text : string) : M unit := emit (LogSuccess text).
Definition logInfo (text : string) : M unit := emit (LogInfo text).
Definition logWarning (text : string) : M unit := emit (LogWarning text).
Definition console_log : M unit := emit NewLine.

(** The answers, as [createNewApp] passes them to [updateConfigFiles]. *)
Record Config := {
  cfg_name : string;
  cfg_description : string;
  cfg_type : string;
  cfg_database : string;
  cfg_auth : bool
}.

(** ** A reference implementation of the two JSON functions

    It is used for the concrete scenarios only; the properties of the
    script further down hold for any [JSON.parse] and [JSON.stringify].
    A number is read as a double and written as the shortest decimal text
    that reads back as that double; the literals covered are those without
    a fraction and without a negative exponent. *)

Module RefJSON.

(** *** Numbers *)

Fixpoint digitsFrom (fuel : nat) (n : Z) (acc : string) : string :=
  match fuel with
  | O => acc
  | S fuel' =>
      let acc' := String (ascii_of_nat (48 + Z.to_nat (n mod 10))) acc in
      if n <? 10 then acc' else digitsFrom fuel' (n / 10) acc'
  end.

(** The decimal digits of a natural number. *)
Definition digitsOf (n : Z) : string :=
  digitsFrom (S (Z.to_nat (Z.log2 n))) n EmptyString.

(** The Number value of a natural number: the nearest double, with ties to
    the even significand of 53 bits.  [None] stands for [Infinity], which
    is the value from [2^1024 - 2^970] on. *)
Definition toDouble (n : Z) : option Z :=
  if n <? 2 ^ 53 then Some n
  else
    let e := Z.log2 n - 52 in
    let q := Z.shiftr n e in
    let r := n - Z.shiftl q e in
    let half := Z.shiftl 1 (e - 1) in
    let q' := if (half <? r) || ((r =? half) && Z.odd q) then q + 1 else q in
    let d := Z.shiftl q' e in
    if 2 ^ 1024 <=? d then None else Some d.

(** [reads d s t]: the Number value of [s * 10^t] is the double [d]. *)
Definition reads (d s t : Z) : bool :=
  (0 <? s)
  && match toDouble (s * 10 ^ t) with
     | Some d' => d' =? d
     | None => false
     end.

(** Of the two multiples of [10^t] next to [d], the one that reads as [d];
    if both do, the closer one, and the even one if they are equally close. *)
Definition closest (d t : Z) : option Z :=
  let s1 := d / 10 ^ t in
  let s2 := s1 + 1 in
  match reads d s1 t, reads d s2 t with
  | true, true =>
      let below := d - s1 * 10 ^ t in
      let above := s2 * 10 ^ t - d in
      Some (if below <? above then s1
            else if above <? below then s2
            else if Z.even s1 then s1 else s2)
  | true, false => Some s1
  | false, true => Some s2
  | false, false => None
  end.

(** The digits [s] and the power of ten [t] of [Number::toString]: the
    fewest digits, that is the largest [t], for which [s * 10^t] reads as
    [d]. *)
Fixpoint shortest (fuel : nat) (d t : Z) : Z * Z :=
  match closest d t with
  | Some s => (s, t)
  | None =>
      match fuel with
      | O => (d, 0)
      | S fuel' => shortest fuel' d (t - 1)
      end
  end.

Fixpoint zeros (n : nat) : string :=
  match n with
  | O => EmptyString
  | S n' => String "0"%char (zeros n')
  end.

(** [Number::toString] for a double that is a natural number: the digits
    followed by zeros up to 21 digits, the exponential form beyond. *)
Definition numberToString (d : Z) : string :=
  if d =? 0 then "0"
  else
    let L := String.length (digitsOf d) in
    let '(s, t) := shortest L d (Z.of_nat L) in
    let ds := digitsOf s in
    let n := Z.of_nat (String.length ds) + t in
    if n <=? 21 then ds +:+ zeros (Z.to_nat t)
    else
      match ds with
      | String c EmptyString => String c EmptyString
      | String c r => String c ("." +:+ r)
      | EmptyString => EmptyString
      end +:+ "e+" +:+ digitsOf (n - 1).

(** The canonical rendering of the number read from the natural number [n]
    with the sign [sign]; a zero has no sign in it. *)
Definition canonical (sign : string) (n : Z) : string :=
  match toDouble n with
  | Some d => if d =? 0 then "0" else sign +:+ numberToString d
  | None => sign +:+ "Infinity"
  end.

(** [JSON.stringify] writes a number that is not finite as [null]. *)
Definition isNonFinite (repr : string) : bool :=
  String.eqb repr "Infinity" || String.eqb repr "-Infinity" || String.eqb repr "NaN".

(** *** Writing *)

Definition quote : ascii := "034"%char.
Definition backslash : ascii := "092"%char.

Definition hexDigit (n : nat) : ascii :=
  ascii_of_nat (if (n <? 10)%nat then 48 + n else 87 + n)%nat.

Definition escapeChar (c : ascii) : string :=
  let n := nat_of_ascii c in
  if Ascii.eqb c quote then String backslash (String quote EmptyString)
  else if Ascii.eqb c backslash then String backslash (String backslash EmptyString)
  else if (n =? 8)%nat then String backslash "b"
  else if (n =? 9)%nat then String backslash "t"
  else if (n =? 10)%nat then String backslash "n"
  else if (n =? 12)%nat then String backslash "f"
  else if (n =? 13)%nat then String backslash "r"
  else if (n <? 32)%nat then
    String backslash "u00" +:+ String (hexDigit (n / 16)) (String (hexDigit (n mod 16)) EmptyString)
  else String c EmptyString.

Fixpoint escape (s : string) : string :=
  match s with
  | EmptyString => EmptyString
  | String c r => escapeChar c +:+ escape r
  end.

Definition quoteString (s : string) : string :=
  String quote (escape s) +:+ String quote EmptyString.

Definition newline : string := String "010"%char EmptyString.

Fixpoint spaces (n : nat) : string :=
  match n with
  | O => EmptyString
  | S n' => String " "%char (spaces n')
  end.

Fixpoint joinLines (indent : nat) (items : list string) : string :=
  match items with
  | [] => EmptyString
  | [x] => spaces indent +:+ x
  | x :: rest => spaces indent +:+ x +:+ "," +:+ newline +:+ joinLines indent rest
  end.

(** [JSON.stringify(v, null, 2)] at nesting depth [indent / 2]. *)
Fixpoint stringifyAt (indent : nat) (v : jsval) : string :=
  match v with
  | JNull => "null"
  | JBool true => "true"
  | JBool false => "false"
  | JNum repr => if isNonFinite repr then "null" else repr
  | JStr s => quoteString s
  | JArr [] => "[]"
  | JArr items =>
      "[" +:+ newline
        +:+ joinLines (indent + 2) (map (stringifyAt (indent + 2)) items)
        +:+ newline +:+ spaces indent +:+ "]"
  | JObj [] => "{}"
  | JObj props =>
      "{" +:+ newline
        +:+ joinLines (indent + 2)
              (map (λ kv, quoteString kv.1 +:+ ": " +:+ stringifyAt (indent + 2) kv.2) props)
        +:+ newline +:+ spaces indent +:+ "}"
  end.

Definition stringify (v : jsval) : string := stringifyAt 0 v.

(** *** Reading *)

Definition isJsonSpace (c : ascii) : bool :=
  let n := nat_of_ascii c in
  (n =? 32)%nat || (n =? 9)%nat || (n =? 10)%nat || (n =? 13)%nat.

Fixpoint skipSpace (s : string) : string :=
  match s with
  | EmptyString => EmptyString
  | String c r => if isJsonSpace c then skipSpace r else s
  end.

Definition hexValue (c : ascii) : option nat :=
  match JS.digitValue c with
  | Some d => if d <? 16 then Some (Z.to_nat d) else None
  | None => None
  end.

(** The text of a string literal after its opening quote. *)
Fixpoint parseString (s : string) : option (string * string) :=
  match s with
  | EmptyString => None
  | String c r =>
      if Ascii.eqb c quote then Some (EmptyString, r)
      else if Ascii.eqb c backslash then
        match r with
        | String "u"%char (String "0"%char (String "0"%char (String h1 (String h2 r')))) =>
            a ← hexValue h1; b ← hexValue h2;
            '(t, rest) ← parseString r';
            Some (String (ascii_of_nat (16 * a + b)) t, rest)
        | String e r' =>
            c' ← (if Ascii.eqb e quote then Some quote
                  else if Ascii.eqb e backslash then Some backslash
                  else if Ascii.eqb e "/" then Some "/"%char
                  else if Ascii.eqb e "b" then Some "008"%char
                  else if Ascii.eqb e "t" then Some "009"%char
                  else if Ascii.eqb e "n" then Some "010"%char
                  else if Ascii.eqb e "f" then Some "012"%char
                  else if Ascii.eqb e "r" then Some "013"%char
                  else None);
            '(t, rest) ← parseString r';
            Some (String c' t, rest)
        | EmptyString => None
        end
      else if (nat_of_ascii c <? 32)%nat then None
      else '(t, rest) ← parseString r; Some (String c t, rest)
  end.

Definition isDigit (c : ascii) : bool :=
  let n := nat_of_ascii c in (48 <=? n)%nat && (n <=? 57)%nat.

Fixpoint takeDigits (s : string) : string * string :=
  match s with
  | EmptyString => (EmptyString, EmptyString)
  | String c r =>
      if isDigit c then let '(d, rest) := takeDigits r in (String c d, rest)
      else (EmptyString, s)
  end.

Definition digitsValue (d : string) : Z := default 0 (JS.parseDigits 10 None d).

(** A number: an optional sign, digits without leading zero, and an
    optional exponent that is not negative.  A literal with a fraction or
    a negative exponent is outside the reference implementation, which
    refuses it. *)
Definition parseNumber (s : string) : option (string * string) :=
  let '(sign, s) :=
    match s with
    | String "-"%char r => ("-", r)
    | _ => (EmptyString, s)
    end in
  let '(d, rest) := takeDigits s in
  match d with
  | EmptyString => None
  | String "0"%char (String _ _) => None
  | _ =>
      match rest with
      | String c r =>
          if Ascii.eqb c "." then None
          else if Ascii.eqb c "e" || Ascii.eqb c "E" then
            let r := match r with String "+"%char r' => r' | _ => r end in
            let '(x, rest') := takeDigits r in
            match x with
            | EmptyString => None
            | _ => Some (canonical sign (digitsValue d * 10 ^ digitsValue x), rest')
            end
          else Some (canonical sign (digitsValue d), rest)
      | EmptyString => Some (canonical sign (digitsValue d), rest)
      end
  end.

Inductive mode :=
| Value
| Elements (acc : list jsval)
| Members (acc : list (string * jsval)).

Fixpoint parseAt (fuel : nat) (md : mode) (s : string) : option (jsval * string) :=
  match fuel with
  | O => None
  | S fuel' =>
      let s := skipSpace s in
      match md with
      | Value =>
          match s with
          | String "{"%char r =>
              match skipSpace r with
              | String "}"%char r' => Some (JObj [], r')
              | r' => parseAt fuel' (Members []) r'
              end
          | String "["%char r =>
              match skipSpace r with
              | String "]"%char r' => Some (JArr [], r')
              | r' => parseAt fuel' (Elements []) r'
              end
          | String c r =>
              if Ascii.eqb c quote then
                '(t, rest) ← parseString r; Some (JStr t, rest)
              else if JS.isPrefixOf "null" s then Some (JNull, JS.dropChars 4 s)
              else if JS.isPrefixOf "true" s then Some (JBool true, JS.dropChars 4 s)
              else if JS.isPrefixOf "false" s then Some (JBool false, JS.dropChars 5 s)
              else '(t, rest) ← parseNumber s; Some (JNum t, rest)
          | EmptyString => None
          end
      | Elements acc =>
          '(v, r) ← parseAt fuel' Value s;
          match skipSpace r with
          | String ","%char r' => parseAt fuel' (Elements (acc ++ [v])) r'
          | String "]"%char r' => Some (JArr (acc ++ [v]), r')
          | _ => None
          end
      | Members acc =>
          match s with
          | String c r =>
              if Ascii.eqb c quote then
                '(k, r) ← parseString r;
                match skipSpace r with
                | String ":"%char r =>
                    '(v, r) ← parseAt fuel' Value r;
                    match skipSpace r with
                    | String ","%char r' => parseAt fuel' (Members (setProp k v acc)) r'
                    | String "}"%char r' => Some (JObj (setProp k v acc), r')
                    | _ => None
                    end
                | _ => None
                end
              else None
          | EmptyString => None
          end
      end
  end.

Definition parse (s : string) : option jsval :=
  match parseAt (2 * String.length s + 2) Value s with
  | Some (v, r) =>
      match skipSpace r with
      | EmptyString => Some v
      | _ => None
      end
  | None => None
  end.

End RefJSON.

(** ** Notions used to state the properties *)

(** [graft on p c]: the tree [on] with [c] put at the path [p]; the
    directories above [p] have to be there. *)
Fixpoint graft (on : option node) (p : path) (c : node) : option node :=
  match p with
  | [] => Some c
  | x :: q =>
      match on with
      | Some (Dir m) => c' ← graft (m !! x) q c; Some (Dir (<[x := c']> m))
      | _ => None
      end
  end.

(** The number of nested calls that [copyDirectory] needs for a tree. *)
Fixpoint height (n : node) : nat :=
  match n with
  | File _ => O
  | Dir m => S (map_fold (λ _ c acc, Nat.max (height c) acc) O m)
  end.

(** Two paths that part at some component: neither lies below the other. *)
Inductive diverge : path → path → Prop :=
| diverge_here x y p q : x ≠ y → diverge (x :: p) (y :: q)
| diverge_below x p q : diverge p q → diverge (x :: p) (x :: q).

Definition dirAt (n : node) (p : path) : Prop := ∃ m, FS.lookup n p = Some (Dir m).

(** [inside p q]: the path [q] lies strictly below [p]. *)
Definition inside (p q : path) : Prop := ∃ r, r ≠ [] ∧ q = p ++ r.

(** The console output of the steps. *)
Definition bannerTrace : list event :=
  [Log "cyan" "C2C Community Starter Kit - Create New App";
   Log "cyan" "===============================================";
   NewLine].

Definition nameQuestion : event := Question "What is the name of your project? ".

Definition descriptionQuestion : event := Question "Describe your project (optional): ".

Definition typeMenu : list event :=
  [LogInfo "Available project types:";
   Log "yellow" "  1. Basic CRUD App";
   Log "yellow" "  2. Simple Dashboard";
   Log "yellow" "  3. Plugin Starter";
   Log "yellow" "  4. Custom (from scratch)";
   NewLine;
   Question "Choose a project type (1-4): "].

Definition databaseMenu : list event :=
  [LogInfo "Database configuration:";
   Log "yellow" "  1. Use Supabase (recommended)";
   Log "yellow" "  2. Use local PostgreSQL";
   Log "yellow" "  3. Skip database setup";
   NewLine;
   Question "Choose database option (1-3): "].

Definition authMenu : list event :=
  [LogInfo "Authentication configuration:";
   Log "yellow" "  1. Enable authentication (recommended)";
   Log "yellow" "  2. Skip authentication setup";
   NewLine;
   Question "Choose auth option (1-2): "].

Definition answersTrace : list event :=
  bannerTrace ++ [nameQuestion; descriptionQuestion] ++ typeMenu ++ databaseMenu ++ authMenu.

Definition summaryTrace (projectName : string) (projectPath : path) : list event :=
  [NewLine;
   Log "green" "Project created successfully!";
   Log "green" "================================";
   NewLine;
   Log "cyan" ("Project name: " +:+ projectName);
   Log "cyan" ("Project path: " +:+ path_to_string projectPath);
   NewLine;
   Log "yellow" "Next steps:";
   Log "white" ("1. cd " +:+ projectName);
   Log "white" "2. pnpm dev";
   Log "white" "3. Open http://localhost:3000";
   NewLine;
   Log "magenta" "Happy coding!"].


(** The fields of a manifest other than [name] and [description] keep
    their values from [v] to [v']. *)
Definition otherFieldsKept (v v' : jsval) : Prop :=
  match v, v' with
  | JObj props, JObj props' =>
      ∀ k, k ≠ "name" → k ≠ "description" → getProp k props' = getProp k props
  | _, _ => v' = v
  end.

Module Spec.

(** The replacement of the README as the specification words it: every
    occurrence of the token is replaced by the answer itself. *)
Fixpoint replaceLiteralFrom (tok answer : string) (skip : nat) (s : string) : string :=
  match s with
  | EmptyString => EmptyString
  | String c s' =>
      match skip with
      | S k => replaceLiteralFrom tok answer k s'
      | O =>
          if JS.isPrefixOf tok s then
            answer +:+ replaceLiteralFrom tok answer (String.length tok - 1) s'
          else String c (replaceLiteralFrom tok answer O s')
      end
  end.

Definition replaceLiteral (tok answer s : string) : string :=
  replaceLiteralFrom tok answer O s.

Definition updateReadme (readme projectName description : string) : string :=
  replaceLiteral "{{PROJECT_DESCRIPTION}}" description
    (replaceLiteral "{{PROJECT_NAME}}" projectName readme).

End Spec.

(** The number of times a command has been spawned. *)
Definition isExec (cmd : string) (e : event) : bool :=
  match e with
  | Exec c _ => String.eqb c cmd
  | _ => false
  end.

Definition execCount (cmd : string) (tr : list event) : nat :=
  length (List.filter (isExec cmd) tr).

(** [noExit m]: the computation [m] never calls [process.exit]. *)
Definition noExit {A} (m : M A) : Prop := ∀ w c w', m w ≠ Exited c w'.

(** ** Notions used to state the further properties *)

(** The world in which a run ends, however it ends; a run that the model
    cannot follow to its end has none. *)
Definition finalWorld {A} (r : result A) : option world :=
  match r with
  | Done _ w => Some w
  | Thrown _ w => Some w
  | Exited _ w => Some w
  | Waiting w => Some w
  | OutOfFuel => None
  end.

(** [respectsAt R m w]: however the run of [m] from [w] ends, the world it
    ends in is related by [R] to [w]. *)
Definition respectsAt {A} (R : relation world) (m : M A) (w : world) : Prop :=
  ∀ w', finalWorld (m w) = Some w' → R w w'.

Definition respects {A} (R : relation world) (m : M A) : Prop :=
  ∀ w, respectsAt R m w.

(** The relations between the world before and the world after. *)
Definition sameFiles : relation world := λ w w', fs w' = fs w.

Definition sameInput : relation world := λ w w', stdin w' = stdin w.

Definition sameTrace : relation world := λ w w', trace w' = trace w.

Definition unchangedAt (S : path → Prop) : relation world := λ w w',
  ∀ q, S q → FS.lookup (fs w') q = FS.lookup (fs w) q.

Definition keepsDirectories : relation world := λ w w',
  ∀ p, dirAt (fs w) p → dirAt (fs w') p.

Definition emits (P : event → Prop) : relation world := λ w w',
  ∃ events, trace w' = trace w ++ events ∧ Forall P events.

Definition isSpawn (e : event) : bool :=
  match e with
  | Exec _ _ => true
  | _ => false
  end.

Definition noSpawn (e : event) : Prop := isSpawn e = false.

(** The commands that the script spawns. *)
Definition gitCommit : string :=
  "git commit -m " +:+ quoted "Initial commit from C2C starter kit".

Definition commands : list string :=
  ["pnpm install"; "npm install"; "git init"; "git add ."; gitCommit].

(** [spawnsIn dir e]: if [e] is a spawned command, it is one of
    [commands] and runs in [dir]. *)
Definition spawnsIn (dir : path) (e : event) : Prop :=
  ∀ cmd d, e = Exec cmd d → d = dir ∧ cmd ∈ commands.

(** ** The colours *)

Definition esc : string := String "027"%char EmptyString.

(** The own properties of the table [colors]. *)
Definition colors : gmap string string :=
  {[ "reset" := esc +:+ "[0m";
     "bright" := esc +:+ "[1m";
     "red" := esc +:+ "[31m";
     "green" := esc +:+ "[32m";
     "yellow" := esc +:+ "[33m";
     "blue" := esc +:+ "[34m";
     "magenta" := esc +:+ "[35m";
     "cyan" := esc +:+ "[36m" ]}.

(** A template literal renders [undefined] as the text [undefined]. *)
Definition interpolate (x : option string) : string := default "undefined" x.

(** [colorize(text, color)], for a [color] that is no property of
    [Object.prototype]; [log(message, color)] writes this line. *)
Definition colorize (text color : string) : string :=
  interpolate (colors !! color) +:+ text +:+ interpolate (colors !! "reset").

(** How a line logged with [color] is written: wrapped in the code of the
    colour and the reset code, or with [undefined] in place of the code. *)
Definition wellColoured (e : event) : Prop :=
  ∀ color text, e = Log color text →
    (color = "white"
     ∧ colorize text color = "undefined" +:+ text +:+ esc +:+ "[0m")
    ∨ (∃ code, colors !! color = Some code
               ∧ colorize text color = code +:+ text +:+ esc +:+ "[0m").

(** ** Project names *)

(** The first, or the last, code unit of a text is white space. *)
Definition startsWithSpace (s : string) : bool :=
  match s with
  | String c _ => JS.isWhiteSpace c
  | EmptyString => false
  end.

Definition endsWithSpace (s : string) : bool := startsWithSpace (String.rev s).

(** A text of white space only. *)
Fixpoint isBlank (s : string) : bool :=
  match s with
  | EmptyString => true
  | String c s' => JS.isWhiteSpace c && isBlank s'
  end.

Fixpoint hasSeparator (s : string) : bool :=
  match s with
  | EmptyString => false
  | String c s' => Ascii.eqb c "/"%char || hasSeparator s'
  end.

(** A name that [path.join] takes as one component. *)
Definition isPlainName (s : string) : bool :=
  negb (hasSeparator s)
  && negb (String.eqb s EmptyString)
  && negb (String.eqb s ".")
  && negb (String.eqb s "..").

(** The keys among [ks] that the object [props] does not have. *)
Definition missingKeys (ks : list string) (props : list (string * jsval)) : list string :=
  List.filter (λ k, match getProp k props with None => true | Some _ => false end) ks.

(** ** The setup test [scripts/test-complete-setup.js] *)

Module SetupTest.

(** The template directories that [testTemplates] looks for, relative to
    the root of the kit. *)
Definition templates : list string :=
  ["templates/basic-crud-app";
   "templates/simple-dashboard";
   "templates/plugin-starter"].

End SetupTest.

(** ** Concrete scenarios *)

Module Scenario.

(** The kit is installed in [/kit]; the script lies in [/kit/scripts]. *)
Definition kitScripts : path := ["kit"; "scripts"].
Definition home : path := ["home"].

Definition manifest : string :=
  "{ " +:+ quoted "name" +:+ ": " +:+ quoted "template" +:+ ", "
    +:+ quoted "version" +:+ ": " +:+ quoted "0.1.0" +:+ ", "
    +:+ quoted "description" +:+ ": " +:+ quoted EmptyString +:+ ", "
    +:+ quoted "scripts" +:+ ": { " +:+ quoted "dev" +:+ ": " +:+ quoted "next dev" +:+ " } }".

Definition readme : string :=
  "# {{PROJECT_NAME}} - {{PROJECT_DESCRIPTION}} - made with {{PROJECT_NAME}}".

Definition basicCrud : node :=
  Dir {[ "package.json" := File manifest;
         "README.md" := File readme;
         "components" := Dir {[ "ItemList.tsx" := File "export {}" ]} ]}.

Definition kit : node :=
  Dir {[ "scripts" := Dir ∅;
         "templates" := Dir {[ "basic-crud" := basicCrud ]} ]}.

(** A machine with the kit and an empty working directory [/home]. *)
Definition root : node := Dir {[ "kit" := kit; "home" := Dir ∅ ]}.

(** The same machine after an earlier run has made [/home/helper-app]. *)
Definition rootTaken : node :=
  Dir {[ "kit" := kit;
         "home" := Dir {[ "helper-app" := Dir {[ "notes.txt" := File "mine" ]} ]} ]}.

(** A project directory that holds only a README. *)
Definition rootReadme (text : string) : node :=
  Dir {[ "home" := Dir {[ "shop" := Dir {[ "README.md" := File text ]} ]} ]}.

(** A kit with a template for the type [custom]; the scaffolder is run
    from inside that template. *)
Definition customTemplate : path := ["kit"; "templates"; "custom"].

Definition rootNested : node :=
  Dir {[ "kit" :=
           Dir {[ "scripts" := Dir ∅;
                  "templates" := Dir {[ "custom" := Dir {[ "README.md" := File readme ]} ]} ]} ]}.

(** [rootNested] once [/kit/templates/custom/app] is made. *)
Definition rootNestedMade : node :=
  Dir {[ "kit" :=
           Dir {[ "scripts" := Dir ∅;
                  "templates" :=
                    Dir {[ "custom" := Dir {[ "README.md" := File readme;
                                             "app" := Dir ∅ ]} ]} ]} ]}.

(** [root] once [/home/helper-app], or [/home/blog], is made. *)
Definition rootMade (projectName : string) : node :=
  Dir {[ "kit" := kit; "home" := Dir {[ projectName := Dir ∅ ]} ]}.

(** [root] once the template [basic-crud] is copied to [/home/helper-app]. *)
Definition rootCopied : node :=
  Dir {[ "kit" := kit; "home" := Dir {[ "helper-app" := basicCrud ]} ]}.

Definition manifestObject : jsval :=
  JObj [("name", JStr "template");
        ("version", JStr "0.1.0");
        ("description", JStr EmptyString);
        ("scripts", JObj [("dev", JStr "next dev")])].

Definition helperManifest : jsval :=
  JObj [("name", JStr "helper-app");
        ("version", JStr "0.1.0");
        ("description", JStr "Test");
        ("scripts", JObj [("dev", JStr "next dev")])].

(** [root] at the end of the run with the answers [helperAnswers]. *)
Definition rootScaffolded : node :=
  Dir {[ "kit" := kit;
         "home" :=
           Dir {[ "helper-app" :=
                    Dir {[ "package.json" := File (RefJSON.stringify helperManifest);
                           "README.md" := File "# helper-app - Test - made with helper-app";
                           "components" := Dir {[ "ItemList.tsx" := File "export {}" ]} ]} ]} ]}.

Definition allSucceed (cmd : string) (dir : path) (n : node) : bool * node := (true, n).
Definition allFail (cmd : string) (dir : path) (n : node) : bool * node := (false, n).

Definition helperAnswers : list string := ["helper-app"; "Test"; "1"; "1"; "1"].

Definition helperConfig : Config :=
  {| cfg_name := "helper-app";
     cfg_description := "Test";
     cfg_type := "basic-crud";
     cfg_database := "supabase";
     cfg_auth := true |}.

Definition shop (description : string) : Config :=
  {| cfg_name := "shop";
     cfg_description := description;
     cfg_type := "custom";
     cfg_database := "supabase";
     cfg_auth := true |}.

End Scenario.

(** ** Further scenarios *)

Module Cases.

Import Scenario.

(** A machine on which [/home/notes] is a file. *)
Definition rootNotes : node :=
  Dir {[ "kit" := kit; "home" := Dir {[ "notes" := File "to do" ]} ]}.

(** A kit in which [templates/custom] is a file; the same machine once
    [/home/blog] is made. *)
Definition kitFileTemplate : node :=
  Dir {[ "scripts" := Dir ∅;
         "templates" := Dir {[ "custom" := File "not a directory" ]} ]}.

Definition rootFileTemplate : node :=
  Dir {[ "kit" := kitFileTemplate; "home" := Dir ∅ ]}.

Definition rootFileTemplateMade : node :=
  Dir {[ "kit" := kitFileTemplate; "home" := Dir {[ "blog" := Dir ∅ ]} ]}.

Definition blogAnswers : list string := ["blog"; "My blog"; "4"; "1"; "1"].

(** A project directory with a manifest and a README. *)
Definition rootManifest (text : string) : node :=
  Dir {[ "home" :=
           Dir {[ "shop" := Dir {[ "package.json" := File text;
                                   "README.md" := File readme ]} ]} ]}.

(** A manifest with a number beyond the range of a double, and one with
    a number beyond its precision. *)
Definition overflowManifest : string :=
  "{ " +:+ quoted "name" +:+ ": " +:+ quoted "template" +:+ ", "
    +:+ quoted "size" +:+ ": 1e999 }".

Definition longManifest : string :=
  "{ " +:+ quoted "name" +:+ ": " +:+ quoted "template" +:+ ", "
    +:+ quoted "build" +:+ ": 12345678901234567890 }".

(** A manifest without name and description. *)
Definition bareManifest : string :=
  "{ " +:+ quoted "version" +:+ ": " +:+ quoted "1.0.0" +:+ " }".

(** The entries of the template [basic-crud]. *)
Definition basicCrudEntries : gmap string node :=
  {[ "package.json" := File manifest;
     "README.md" := File readme;
     "components" := Dir {[ "ItemList.tsx" := File "export {}" ]} ]}.

Definition helperSteps : list event :=
  [LogSuccess "Created project directory: /home/helper-app";
   LogSuccess "Copied template files for basic-crud";
   LogSuccess "Updated configuration files"].

End Cases.

(** ** The script *)

Section Script.

(** [process.cwd()] and [__dirname], absolute and normalised. *)
Variable cwd : path.
Variable dirname : path.

(** [execSync(cmd, { cwd })]: what the command does to the file system and
    whether it succeeds ([false]: it exits non-zero or cannot be spawned,
    and [execSync] throws). *)
Variable spawn : string → path → node → bool * node.

(** [JSON.parse] ([None]: a [SyntaxError]) and [JSON.stringify(v, null, 2)]. *)
Variable JSON_parse : string → option jsval.
Variable JSON_stringify : jsval → string.

Definition execSync (cmd : string) (dir : path) : M unit := λ w,
  let r := spawn cmd dir (fs w) in
  let w' := {| fs := r.2; stdin := stdin w; trace := trace w ++ [Exec cmd dir] |} in
  if r.1 then Done tt w' else Thrown (ExecError cmd) w'.

Definition getProjectName : M string :=
  answer ← question "What is the name of your project? ";
  mret (JS.trim answer).

Definition getProjectDescription : M string :=
  answer ← question "Describe your project (optional): ";
  mret (JS.trim answer).

Definition types : list string := ["basic-crud"; "dashboard"; "plugin"; "custom"].

(** The choice made from an answer: [types[type - 1] || 'custom']. *)
Definition projectTypeOf (answer : string) : string :=
  let type := JS.parseInt (JS.trim answer) in
  JS.orElse (JS.index types ((λ t, t - 1) <$> type)) "custom".

Definition getProjectType : M string :=
  logInfo "Available project types:";;
  log "  1. Basic CRUD App" "yellow";;
  log "  2. Simple Dashboard" "yellow";;
  log "  3. Plugin Starter" "yellow";;
  log "  4. Custom (from scratch)" "yellow";;
  console_log;;
  answer ← question "Choose a project type (1-4): ";
  mret (projectTypeOf answer).

Definition options : list string := ["supabase"; "local"; "none"].

(** [options[option - 1] || 'supabase'] *)
Definition databaseConfigOf (answer : string) : string :=
  let option := JS.parseInt (JS.trim answer) in
  JS.orElse (JS.index options ((λ t, t - 1) <$> option)) "supabase".

Definition getDatabaseConfig : M string :=
  logInfo "Database configuration:";;
  log "  1. Use Supabase (recommended)" "yellow";;
  log "  2. Use local PostgreSQL" "yellow";;
  log "  3. Skip database setup" "yellow";;
  console_log;;
  answer ← question "Choose database option (1-3): ";
  mret (databaseConfigOf answer).

(** [option === 1] *)
Definition authConfigOf (answer : string) : bool :=
  match JS.parseInt (JS.trim answer) with
  | Some 1 => true
  | _ => false
  end.

Definition getAuthConfig : M bool :=
  logInfo "Authentication configuration:";;
  log "  1. Enable authentication (recommended)" "yellow";;
  log "  2. Skip authentication setup" "yellow";;
  console_log;;
  answer ← question "Choose auth option (1-2): ";
  mret (authConfigOf answer).

Definition createProjectDirectory (projectPath : path) : M unit :=
  b ← existsSync projectPath;
  (if b : bool then
     throw (Error ("Directory " +:+ path_to_string projectPath +:+ " already exists"))
   else mret tt);;
  mkdirSync projectPath;;
  logSuccess ("Created project directory: " +:+ path_to_string projectPath).

(** [path.join(dir, entry.name)] for a name listed by [readdirSync]: such a
    name is a single component, neither [.] nor [..]. *)
Definition joinEntry (dir : path) (entry : Dirent) : path := dir ++ [name entry].

(** Each call of the function uses one unit of [fuel]; the recursion of
    the source has no bound of its own. *)
Fixpoint copyDirectory (fuel : nat) (src dest : path) : M unit :=
  match fuel with
  | O => λ _, OutOfFuel
  | S fuel' =>
      entries ← readdirSync src;
      forOf entries (λ entry,
        let srcPath := joinEntry src entry in
        let destPath := joinEntry dest entry in
        if isDirectory entry then
          mkdirSync destPath;;
          copyDirectory fuel' srcPath destPath
        else copyFileSync srcPath destPath)
  end.

Definition templatePathOf (projectType : string) : path :=
  path_join dirname [".."; "templates"; projectType].

Definition copyTemplateFiles (fuel : nat) (projectPath : path) (projectType : string)
  : M unit :=
  let templatePath := templatePathOf projectType in
  b ← existsSync templatePath;
  if negb b then
    logWarning ("Template " +:+ projectType +:+ " not found, using basic template")
  else
    copyDirectory fuel templatePath projectPath;;
    logSuccess ("Copied template files for " +:+ projectType).

Definition PROJECT_NAME : string := "{{PROJECT_NAME}}".
Definition PROJECT_DESCRIPTION : string := "{{PROJECT_DESCRIPTION}}".

Definition updatePackageJson (text : string) (config : Config) : M string :=
  packageJson ← orThrow (JSON_parse text) SyntaxError;
  packageJson ← orThrow (assignProp packageJson "name" (JStr (cfg_name config))) TypeError;
  packageJson ← orThrow (assignProp packageJson "description"
                           (JStr (cfg_description config))) TypeError;
  mret (JSON_stringify packageJson).

Definition updateReadme (readme : string) (config : Config) : string :=
  let readme := JS.replaceAll PROJECT_NAME (cfg_name config) readme in
  let readme := JS.replaceAll PROJECT_DESCRIPTION (cfg_description config) readme in
  readme.

Definition updateConfigFiles (projectPath : path) (config : Config) : M unit :=
  let packageJsonPath := path_join projectPath ["package.json"] in
  b ← existsSync packageJsonPath;
  (if b : bool then
     text ← readFileSync packageJsonPath;
     text' ← updatePackageJson text config;
     writeFileSync packageJsonPath text'
   else mret tt);;
  let readmePath := path_join projectPath ["README.md"] in
  b ← existsSync readmePath;
  (if b : bool then
     readme ← readFileSync readmePath;
     writeFileSync readmePath (updateReadme readme config)
   else mret tt);;
  logSuccess "Updated configuration files".

Definition installDependencies (projectPath : path) : M unit :=
  logInfo "Installing dependencies...";;
  tryCatch
    (execSync "pnpm install" projectPath;;
     logSuccess "Dependencies installed successfully")
    (λ _,
      logWarning "Failed to install dependencies with pnpm, trying npm...";;
      tryCatch
        (execSync "npm install" projectPath;;
         logSuccess "Dependencies installed successfully")
        (λ _,
          logWarning "Failed to install dependencies automatically";;
          logInfo ("Please run " +:+ quoted "pnpm install" +:+ " or " +:+ quoted "npm install"
                   +:+ " in your project directory"))).

Definition createInitialCommit (projectPath : path) : M unit :=
  tryCatch
    (execSync "git init" projectPath;;
     execSync "git add ." projectPath;;
     execSync ("git commit -m " +:+ quoted "Initial commit from C2C starter kit") projectPath;;
     logSuccess "Created initial git commit")
    (λ _,
      logWarning "Failed to create initial git commit";;
      logInfo ("Please run " +:+ quoted "git init" +:+ " and " +:+ quoted "git commit"
                 +:+ " manually")).

Definition displaySuccessMessage (projectName : string) (projectPath : path) : M unit :=
  console_log;;
  log "Project created successfully!" "green";;
  log "================================" "green";;
  console_log;;
  log ("Project name: " +:+ projectName) "cyan";;
  log ("Project path: " +:+ path_to_string projectPath) "cyan";;
  console_log;;
  log "Next steps:" "yellow";;
  log ("1. cd " +:+ projectName) "white";;
  log "2. pnpm dev" "white";;
  log "3. Open http://localhost:3000" "white";;
  console_log;;
  log "Happy coding!" "magenta".

(** The body of the [try] block of [createNewApp]. *)
Definition createNewApp_try (fuel : nat) : M unit :=
  log "C2C Community Starter Kit - Create New App" "cyan";;
  log "===============================================" "cyan";;
  console_log;;
  projectName ← getProjectName;
  (if String.eqb projectName EmptyString then
     logError "Project name is required";;
     process_exit 1
   else mret tt);;
  projectDescription ← getProjectDescription;
  projectType ← getProjectType;
  databaseConfig ← getDatabaseConfig;
  authConfig ← getAuthConfig;
  let projectPath := path_join cwd [projectName] in
  createProjectDirectory projectPath;;
  copyTemplateFiles fuel projectPath projectType;;
  updateConfigFiles projectPath
    {| cfg_name := projectName;
       cfg_description := projectDescription;
       cfg_type := projectType;
       cfg_database := databaseConfig;
       cfg_auth := authConfig |};;
  installDependencies projectPath;;
  createInitialCommit projectPath;;
  displaySuccessMessage projectName projectPath.

Definition createNewApp (fuel : nat) : M unit :=
  tryCatch (createNewApp_try fuel)
    (λ error,
      logError ("Failed to create app: " +:+ message error);;
      process_exit 1).

(** [createNewApp().catch(console.error)] *)
Definition main (fuel : nat) : M unit :=
  tryCatch (createNewApp fuel) (λ error, emit (LogError (message error))).

(** The exit code of the process: 0 when the script runs to its end, the
    argument of [process.exit] otherwise.  A run that waits for input, or
    that the model cannot follow to its end, has none. *)
Definition exitCode (r : result unit) : option Z :=
  match r with
  | Done _ _ => Some 0
  | Exited code _ => Some code
  | Thrown _ _ => Some 1
  | Waiting _ => None
  | OutOfFuel => None
  end.

(** *** The run, cut at its steps

    The same run as [createNewApp_try], cut into the collection of the
    answers, the steps that write the project directory, and the steps
    that call the package manager and git. *)

Definition projectPathOf (projectName : string) : path := path_join cwd [projectName].

Definition collect : M Config :=
  log "C2C Community Starter Kit - Create New App" "cyan";;
  log "===============================================" "cyan";;
  console_log;;
  projectName ← getProjectName;
  (if String.eqb projectName EmptyString then
     logError "Project name is required";;
     process_exit 1
   else mret tt);;
  projectDescription ← getProjectDescription;
  projectType ← getProjectType;
  databaseConfig ← getDatabaseConfig;
  authConfig ← getAuthConfig;
  mret {| cfg_name := projectName;
          cfg_description := projectDescription;
          cfg_type := projectType;
          cfg_database := databaseConfig;
          cfg_auth := authConfig |}.

Definition materialize (fuel : nat) (config : Config) : M unit :=
  let projectPath := projectPathOf (cfg_name config) in
  createProjectDirectory projectPath;;
  copyTemplateFiles fuel projectPath (cfg_type config);;
  updateConfigFiles projectPath config.

Definition finish (projectName : string) (projectPath : path) : M unit :=
  installDependencies projectPath;;
  createInitialCommit projectPath;;
  displaySuccessMessage projectName projectPath.

(** The manifest object that [updateConfigFiles] serialises. *)
Definition updatedManifest (text : string) (config : Config) : option jsval :=
  packageJson ← JSON_parse text;
  packageJson ← assignProp packageJson "name" (JStr (cfg_name config));
  assignProp packageJson "description" (JStr (cfg_description config)).

(** The run up to the point where the dependencies are installed. *)
Definition upToInstall (fuel : nat) : M Config :=
  config ← collect;
  materialize fuel config;;
  mret config.

(** The two halves of [updateConfigFiles]. *)
Definition rewriteManifest (projectPath : path) (config : Config) : M unit :=
  let packageJsonPath := path_join projectPath ["package.json"] in
  b ← existsSync packageJsonPath;
  if b : bool then
    text ← readFileSync packageJsonPath;
    text' ← updatePackageJson text config;
    writeFileSync packageJsonPath text'
  else mret tt.

Definition rewriteReadme (projectPath : path) (config : Config) : M unit :=
  let readmePath := path_join projectPath ["README.md"] in
  b ← existsSync readmePath;
  if b : bool then
    readme ← readFileSync readmePath;
    writeFileSync readmePath (updateReadme readme config)
  else mret tt.

(** * Properties *)

(** ** The primitives on examples *)

Example trim_example : JS.trim "  my app  " = "my app".
Proof. reflexivity. Qed.

Example parseInt_examples :
  JS.parseInt "2" = Some 2
  ∧ JS.parseInt " 3 apps" = Some 3
  ∧ JS.parseInt "-7px" = Some (-7)
  ∧ JS.parseInt "0x1f" = Some 31
  ∧ JS.parseInt "abc" = None
  ∧ JS.parseInt "0x" = None.
Proof. by split_and!. Qed.

Example replaceAll_examples :
  JS.replaceAll "{{X}}" "ab" "1{{X}}2{{X}}{{X}" = "1ab2ab{{X}"
  ∧ JS.replaceAll "{{X}}" "[$&|$$|$`|$'|$1]" "a{{X}}b" = "a[{{X}}|$|a|b|$1]b".
Proof. by split_and!. Qed.

Example path_join_example :
  path_join ["home"; "me"] ["../you/./work//app"] = ["home"; "you"; "work"; "app"].
Proof. reflexivity. Qed.

Example choice_examples :
  projectTypeOf "1" = "basic-crud"
  ∧ projectTypeOf " 2 " = "dashboard"
  ∧ projectTypeOf "4" = "custom"
  ∧ databaseConfigOf "3" = "none"
  ∧ authConfigOf "1" = true
  ∧ authConfigOf "2" = false.
Proof. by split_and!. Qed.

Example stringify_parse_example :
  RefJSON.parse Scenario.manifest = Some Scenario.manifestObject
  ∧ RefJSON.parse (RefJSON.stringify Scenario.manifestObject) = Some Scenario.manifestObject.
Proof. split; vm_compute; reflexivity. Qed.

(** ** The monad *)

Lemma bind_Done {A B} (m : M A) (f : A → M B) w a w' :
  m w = Done a w' → (m ≫= f) w = f a w'.
Proof. unfold mbind, M_bind. by intros ->. Qed.

Lemma bind_Thrown {A B} (m : M A) (f : A → M B) w e w' :
  m w = Thrown e w' → (m ≫= f) w = Thrown e w'.
Proof. unfold mbind, M_bind. by intros ->. Qed.

Lemma bind_Exited {A B} (m : M A) (f : A → M B) w c w' :
  m w = Exited c w' → (m ≫= f) w = Exited c w'.
Proof. unfold mbind, M_bind. by intros ->. Qed.

Lemma bind_assoc {A B C} (m : M A) (f : A → M B) (g : B → M C) w :
  ((m ≫= f) ≫= g) w = (m ≫= λ a, f a ≫= g) w.
Proof. unfold mbind, M_bind. by destruct (m w). Qed.

Lemma bind_ext {A B} (m : M A) (f g : A → M B) w :
  (∀ a w', f a w' = g a w') → (m ≫= f) w = (m ≫= g) w.
Proof. intros H. unfold mbind, M_bind. destruct (m w); auto. Qed.

Lemma bind_Done_inv {A B} (m : M A) (f : A → M B) w b w' :
  (m ≫= f) w = Done b w' → ∃ a w1, m w = Done a w1 ∧ f a w1 = Done b w'.
Proof. unfold mbind, M_bind. destruct (m w) as [a w1| | | |]; try done. eauto. Qed.

(** Unfolds the primitives of the monad in a run on a given world. *)
Ltac run :=
  cbv beta iota zeta delta
    [mbind M_bind mret M_ret tryCatch throw orThrow process_exit emit question
     log logError logSuccess logInfo logWarning console_log existsSync];
  cbn [fs stdin trace].

Ltac trace_assoc := repeat rewrite <- app_assoc; cbn [app].

Ltac done_with_events :=
  eexists _, _; split; [reflexivity|]; split; [reflexivity|];
  cbn [trace]; trace_assoc; reflexivity.

(** ** The file system *)

Lemma height_child m x c : m !! x = Some c → (height c < height (Dir m))%nat.
Proof.
  intros H. simpl. rewrite <- (insert_delete_id m x c H).
  rewrite map_fold_insert_L; [lia | intros; lia | apply lookup_delete_eq].
Qed.

Lemma lookup_app n p q : FS.lookup n (p ++ q) = FS.lookup n p ≫= λ c, FS.lookup c q.
Proof.
  revert n. induction p as [|x p IH]; intros n; simpl; [done|].
  destruct n as [d|m]; [done|].
  destruct (m !! x) as [c|]; simpl; [apply IH | done].
Qed.

Lemma lookup_graft_below on p c n' q :
  graft on p c = Some n' → FS.lookup n' (p ++ q) = FS.lookup c q.
Proof.
  revert on n'. induction p as [|x p IH]; intros on n' H; simpl in *.
  - by inversion H.
  - destruct on as [[d|m]|]; try done.
    destruct (graft (m !! x) p c) as [c'|] eqn:E; simpl in H; [|done].
    inversion H; subst. simpl. rewrite lookup_insert_eq. simpl. by eapply IH.
Qed.

Lemma lookup_graft_at on p c n' : graft on p c = Some n' → FS.lookup n' p = Some c.
Proof.
  intros H. rewrite <- (app_nil_r p). by rewrite (lookup_graft_below _ _ _ _ [] H).
Qed.

Lemma lookup_graft_diverge n p c n' q :
  graft (Some n) p c = Some n' → diverge p q → FS.lookup n' q = FS.lookup n q.
Proof.
  intros H D. revert n n' H. induction D as [x y p q Hne|x p q D IH]; intros n n' H; simpl in *.
  - destruct n as [d|m]; [done|].
    destruct (graft (m !! x) p c) as [c'|]; simpl in H; [|done].
    inversion H; subst. by rewrite lookup_insert_ne.
  - destruct n as [d|m]; [done|].
    destruct (graft (m !! x) p c) as [c'|] eqn:E; simpl in H; [|done].
    inversion H; subst. rewrite lookup_insert_eq. simpl.
    destruct (m !! x) as [cx|] eqn:Ex; simpl.
    + by eapply IH.
    + destruct p; simpl in E; [inversion D | done].
Qed.

Lemma graft_id n p c : FS.lookup n p = Some c → graft (Some n) p c = Some n.
Proof.
  revert n. induction p as [|x p IH]; intros n H; simpl in *.
  - by inversion H.
  - destruct n as [d|m]; [done|].
    destruct (m !! x) as [cx|] eqn:Ex; simpl in *; [|done].
    rewrite (IH _ H). simpl. by rewrite insert_id.
Qed.

Lemma graft_graft on p c1 n1 r c :
  graft on p c1 = Some n1 →
  graft (Some n1) (p ++ r) c = c1' ← graft (Some c1) r c; graft on p c1'.
Proof.
  revert on n1. induction p as [|x p IH]; intros on n1 H; simpl in *.
  - inversion H; subst. by destruct (graft (Some n1) r c).
  - destruct on as [[d|m]|]; try done.
    destruct (graft (m !! x) p c1) as [c'|] eqn:E; simpl in H; [|done].
    inversion H; subst. rewrite lookup_insert_eq.
    rewrite (IH _ _ E).
    destruct (graft (Some c1) r c) as [c1'|]; simpl; [|done].
    destruct (graft (m !! x) p c1'); simpl; [|done].
    by rewrite insert_insert_eq.
Qed.

Lemma graft_child on p m1 n1 x c :
  graft on p (Dir m1) = Some n1 →
  graft (Some n1) (p ++ [x]) c = graft on p (Dir (<[x := c]> m1)).
Proof. intros H. by rewrite (graft_graft _ _ _ _ _ _ H). Qed.

Lemma mkdirp_graft n p m x :
  FS.lookup n p = Some (Dir m) → m !! x = None →
  FS.mkdirp n (p ++ [x]) = graft (Some n) (p ++ [x]) (Dir ∅).
Proof.
  revert n. induction p as [|y p IH]; intros n H Hx; simpl in *.
  - inversion H; subst. by rewrite Hx.
  - destruct n as [d|m']; [done|].
    destruct (m' !! y) as [cy|] eqn:Ey; simpl in *; [|done].
    by rewrite (IH _ H Hx).
Qed.

Lemma putFile_graft n p m x data :
  FS.lookup n p = Some (Dir m) → (∀ mx, m !! x ≠ Some (Dir mx)) →
  FS.putFile n (p ++ [x]) data = graft (Some n) (p ++ [x]) (File data).
Proof.
  revert n. induction p as [|y p IH]; intros n H Hx.
  - simpl in H. inversion H; subst. simpl.
    destruct (m !! x) as [[d|mx]|] eqn:E; try done. by destruct (Hx mx).
  - simpl in H. destruct n as [d|m']; [done|].
    destruct (m' !! y) as [cy|] eqn:Ey; simpl in H; [|done].
    change ((y :: p) ++ [x]) with (y :: (p ++ [x])).
    assert (FS.putFile (Dir m') (y :: p ++ [x]) data
            = c ← m' !! y; c' ← FS.putFile c (p ++ [x]) data; Some (Dir (<[y := c']> m'))) as ->.
    { destruct p; reflexivity. }
    rewrite Ey. simpl. rewrite Ey. simpl. by rewrite (IH _ H Hx).
Qed.

Lemma graft_is_Some on p c c' : is_Some (graft on p c) → is_Some (graft on p c').
Proof.
  revert on. induction p as [|x p IH]; intros on [n H]; simpl in *; [eauto|].
  destruct on as [[d|m]|]; try done.
  destruct (graft (m !! x) p c) as [c1|] eqn:E; simpl in H; [|done].
  destruct (IH (m !! x)) as [c2 ->]; [eauto|]. simpl. eauto.
Qed.

Lemma diverge_sym p q : diverge p q → diverge q p.
Proof. induction 1; constructor; [congruence | assumption]. Qed.

Lemma diverge_app p q r s : diverge p q → diverge (p ++ r) (q ++ s).
Proof. induction 1; simpl; constructor; assumption. Qed.

Lemma diverge_app_r p q s : diverge p q → diverge p (q ++ s).
Proof. intros H. rewrite <- (app_nil_r p). by apply diverge_app. Qed.

Lemma path_cases (p q : path) :
  p = q ∨ (∃ r, r ≠ [] ∧ q = p ++ r) ∨ (∃ r, r ≠ [] ∧ p = q ++ r) ∨ diverge p q.
Proof.
  revert q. induction p as [|x p IH]; intros [|y q].
  - by left.
  - right; left. by exists (y :: q).
  - right; right; left. by exists (x :: p).
  - destruct (decide (x = y)) as [->|Hne].
    + destruct (IH q) as [->|[(r & ? & ->)|[(r & ? & ->)|Hd]]].
      * by left.
      * right; left. by exists r.
      * right; right; left. by exists r.
      * right; right; right. by constructor.
    + right; right; right. by constructor.
Qed.

Lemma diverge_siblings (p : path) x y q q' : x ≠ y → diverge (p ++ x :: q) (p ++ y :: q').
Proof. intros Hne. induction p; cbn; by constructor. Qed.

Lemma dirAt_cons_inv m x p :
  dirAt (Dir m) (x :: p) → ∃ mx, m !! x = Some (Dir mx) ∧ dirAt (Dir mx) p.
Proof.
  intros [m' H]. simpl in H. destruct (m !! x) as [[d|mx]|] eqn:E; simpl in H.
  - destruct p; done.
  - exists mx. split; [done|]. by exists m'.
  - done.
Qed.

Lemma mkdirp_Some_inv n q n' :
  FS.mkdirp n q = Some n' →
  match q with
  | [] => n' = n ∧ ∃ m, n = Dir m
  | x :: q' => ∃ m c', n = Dir m ∧ FS.mkdirp (default (Dir ∅) (m !! x)) q' = Some c'
                       ∧ n' = Dir (<[x := c']> m)
  end.
Proof.
  destruct n as [d|m]; [by destruct q|]. destruct q as [|x q']; simpl.
  - intros [= <-]. eauto.
  - destruct (FS.mkdirp (default (Dir ∅) (m !! x)) q') as [c'|] eqn:E; simpl; [|done].
    intros [= <-]. eauto.
Qed.

Lemma mkdirp_preserves q : ∀ n n' p, FS.mkdirp n q = Some n' → dirAt n p → dirAt n' p.
Proof.
  induction q as [|x q IH]; intros n n' p H Hd; apply mkdirp_Some_inv in H.
  - by destruct H as [-> _].
  - destruct H as (m & c' & -> & Hc & ->).
    destruct p as [|y p]; [by eexists|].
    apply dirAt_cons_inv in Hd as (my & Hy & Hd).
    destruct (decide (x = y)) as [->|Hne].
    + rewrite Hy in Hc. simpl in Hc. destruct (IH _ _ _ Hc Hd) as [m' Hm'].
      exists m'. simpl. by rewrite lookup_insert_eq.
    + destruct Hd as [m' Hm']. exists m'. simpl. rewrite lookup_insert_ne; [|done].
      by rewrite Hy.
Qed.

Lemma mkdirp_dirAt q : ∀ n n', FS.mkdirp n q = Some n' → dirAt n' q.
Proof.
  induction q as [|x q IH]; intros n n' H; apply mkdirp_Some_inv in H.
  - destruct H as [-> [m ->]]. by eexists.
  - destruct H as (m & c' & -> & Hc & ->).
    destruct (IH _ _ Hc) as [m' Hm']. exists m'. simpl. by rewrite lookup_insert_eq.
Qed.

Lemma putFile_Some_inv n q data n' :
  FS.putFile n q data = Some n' →
  ∃ m x q' c', n = Dir m ∧ q = x :: q' ∧ n' = Dir (<[x := c']> m) ∧
    ((q' = [] ∧ c' = File data ∧ ∀ mx, m !! x ≠ Some (Dir mx)) ∨
     (∃ c, m !! x = Some c ∧ FS.putFile c q' data = Some c')).
Proof.
  destruct n as [d|m]; [by destruct q|]. destruct q as [|x [|y q']]; [done| |].
  - simpl. destruct (m !! x) as [[d|mx]|] eqn:E; intros [= <-];
      exists m, x, [], (File data); split_and!; try done; left; split_and!; try done;
      intros mx; by rewrite E.
  - intros H.
    assert (FS.putFile (Dir m) (x :: y :: q') data
      = c ← m !! x; c' ← FS.putFile c (y :: q') data; Some (Dir (<[x := c']> m))) as E
      by reflexivity.
    rewrite E in H. clear E. unfold mbind, option_bind in H.
    destruct (m !! x) as [c|] eqn:Ex; [|discriminate].
    destruct (FS.putFile c (y :: q') data) as [c'|] eqn:Hc; [|discriminate].
    inversion H; subst. exists m, x, (y :: q'), c'. split_and!; try done. right. eauto.
Qed.

Lemma putFile_preserves q data : ∀ n n' p,
  FS.putFile n q data = Some n' → dirAt n p → dirAt n' p.
Proof.
  induction q as [|x q IH]; intros n n' p H Hd;
    apply putFile_Some_inv in H as (m & x' & q' & c' & -> & Hq & -> & Hcase); [done|].
  inversion Hq; subst x' q'. clear Hq.
  destruct p as [|y p]; [by eexists|].
  apply dirAt_cons_inv in Hd as (my & Hy & Hd).
  destruct (decide (x = y)) as [->|Hne].
  - destruct Hcase as [(_ & _ & Hnot)|(c & Hc & Hput)]; [by destruct (Hnot my)|].
    rewrite Hy in Hc. inversion Hc; subst c.
    destruct (IH _ _ _ Hput Hd) as [m' Hm'].
    exists m'. simpl. by rewrite lookup_insert_eq.
  - destruct Hd as [m' Hm']. exists m'. simpl. rewrite lookup_insert_ne; [|done].
    by rewrite Hy.
Qed.

Lemma mkdirp_fresh p : ∀ n n',
  FS.lookup n p = None → FS.mkdirp n p = Some n' → FS.lookup n' p = Some (Dir ∅).
Proof.
  induction p as [|x p IH]; intros n n' Hl Hm; [done|].
  apply mkdirp_Some_inv in Hm as (m & c' & -> & Hc & ->).
  cbn [FS.lookup] in *. rewrite lookup_insert_eq. cbn [mbind option_bind].
  destruct (m !! x) as [c|] eqn:Ex; cbn [default mbind option_bind] in Hl, Hc.
  - by eapply IH.
  - destruct p as [|y p].
    + by apply mkdirp_Some_inv in Hc as [-> _].
    + eapply (IH (Dir ∅)); [|exact Hc]. cbn [FS.lookup]. by rewrite lookup_empty.
Qed.

Lemma exists_false n p : FS.exists_ n p = false ↔ FS.lookup n p = None.
Proof. unfold FS.exists_. by destruct (FS.lookup n p). Qed.

Lemma exists_true n p : FS.exists_ n p = true ↔ is_Some (FS.lookup n p).
Proof.
  unfold FS.exists_. by destruct (FS.lookup n p); split; try done; intros [? ?].
Qed.

Lemma putFile_Some_graft p data : ∀ n n',
  FS.putFile n p data = Some n' → graft (Some n) p (File data) = Some n'.
Proof.
  induction p as [|x p IH]; intros n n' H;
    apply putFile_Some_inv in H as (m & x' & q' & c' & -> & Hq & -> & Hcase); [done|].
  inversion Hq; subst x' q'. cbn [graft].
  destruct Hcase as [(-> & -> & _)|(c & Hc & Hput)]; [done|].
  rewrite Hc. by rewrite (IH _ _ Hput).
Qed.

Lemma readFile_putFile n p data n' :
  FS.putFile n p data = Some n' → FS.readFile n' p = Some data.
Proof.
  intros H. apply putFile_Some_graft in H. unfold FS.readFile.
  by rewrite (lookup_graft_at _ _ _ _ H).
Qed.

Lemma lookup_putFile_diverge n p data n' q :
  FS.putFile n p data = Some n' → diverge p q → FS.lookup n' q = FS.lookup n q.
Proof. intros H. apply putFile_Some_graft in H. by eapply lookup_graft_diverge. Qed.

(** Writing to a file the text that it holds changes nothing. *)
Lemma putFile_same p x : ∀ n data,
  FS.readFile n (p ++ [x]) = Some data → FS.putFile n (p ++ [x]) data = Some n.
Proof.
  intros n data H. unfold FS.readFile in H.
  destruct (FS.lookup n (p ++ [x])) as [[d|m]|] eqn:Hl; try done. inversion H; subst d.
  rewrite lookup_app in Hl.
  destruct (FS.lookup n p) as [[d|m]|] eqn:Hp; cbn in Hl; try done.
  destruct (m !! x) as [c|] eqn:Hx; cbn in Hl; [|done]. inversion Hl; subst c.
  rewrite (putFile_graft _ _ _ _ _ Hp); [|intros mx; by rewrite Hx].
  apply graft_id. rewrite lookup_app, Hp. cbn. by rewrite Hx.
Qed.

(** ** The string primitives *)

Lemma replaceFrom_absent tok repl : ∀ s before,
  JS.occurs tok s = false → JS.replaceFrom tok repl before O s = s.
Proof.
  induction s as [|c s IH]; intros before H; [done|].
  cbn [JS.occurs] in H. apply orb_false_iff in H as [H1 H2].
  cbn [JS.replaceFrom]. rewrite H1. f_equal. by apply IH.
Qed.

(** Where the token does not occur, nothing is replaced. *)
Lemma replaceAll_absent tok repl s :
  JS.occurs tok s = false → JS.replaceAll tok repl s = s.
Proof. apply replaceFrom_absent. Qed.

Lemma getSubstitution_cons matched before after c r :
  c ≠ "$"%char →
  JS.getSubstitution matched before after (String c r)
  = String c (JS.getSubstitution matched before after r).
Proof.
  intros Hc. destruct c as [[] [] [] [] [] [] [] []]; try reflexivity. by destruct Hc.
Qed.

(** A replacement text without dollar sign stands for itself. *)
Lemma getSubstitution_plain matched before after : ∀ repl,
  JS.occurs "$" repl = false → JS.getSubstitution matched before after repl = repl.
Proof.
  induction repl as [|c r IH]; intros H; [done|].
  cbn [JS.occurs JS.isPrefixOf] in H. apply orb_false_iff in H as [H1 H2].
  rewrite getSubstitution_cons.
  - f_equal. by apply IH.
  - intros ->. done.
Qed.

(** For an answer without dollar sign the replacement is the literal one
    of the specification. *)
Lemma replaceFrom_literal tok repl :
  JS.occurs "$" repl = false →
  ∀ s before skip,
    JS.replaceFrom tok repl before skip s = Spec.replaceLiteralFrom tok repl skip s.
Proof.
  intros Hrepl. induction s as [|c s IH]; intros before skip; [done|].
  cbn [JS.replaceFrom Spec.replaceLiteralFrom].
  destruct skip as [|k]; [|apply IH].
  destruct (JS.isPrefixOf tok (String c s)).
  - by rewrite getSubstitution_plain, IH.
  - by rewrite IH.
Qed.

Lemma updateReadme_literal readme config :
  JS.occurs "$" (cfg_name config) = false →
  JS.occurs "$" (cfg_description config) = false →
  updateReadme readme config
  = Spec.updateReadme readme (cfg_name config) (cfg_description config).
Proof.
  intros Hn Hd. unfold updateReadme, Spec.updateReadme, JS.replaceAll, Spec.replaceLiteral,
    PROJECT_NAME, PROJECT_DESCRIPTION.
  by rewrite !replaceFrom_literal.
Qed.

(** ** The calls of the file system in a run *)

Lemma mkdirSync_Done p w n' :
  FS.mkdirp (fs w) p = Some n' →
  mkdirSync p w = Done tt {| fs := n'; stdin := stdin w; trace := trace w |}.
Proof. unfold mkdirSync, liftFs. by intros ->. Qed.

Lemma copyFileSync_Done src dest w data n' :
  FS.readFile (fs w) src = Some data →
  FS.putFile (fs w) dest data = Some n' →
  copyFileSync src dest w = Done tt {| fs := n'; stdin := stdin w; trace := trace w |}.
Proof. unfold copyFileSync, liftFs. intros -> H. simpl. by rewrite H. Qed.

Lemma readdirSync_Done p w m :
  FS.lookup (fs w) p = Some (Dir m) →
  readdirSync p w = Done (FS.dirent <$> map_to_list m) w.
Proof. unfold readdirSync, FS.readdir. by intros ->. Qed.

Lemma copyFileSync_Done_inv src dest w w' :
  copyFileSync src dest w = Done tt w' →
  ∃ data, FS.putFile (fs w) dest data = Some (fs w').
Proof.
  unfold copyFileSync, liftFs. destruct (FS.readFile (fs w) src) as [data|]; simpl; [|done].
  destruct (FS.putFile (fs w) dest data) as [n'|] eqn:E; [|done].
  intros [= <-]. eauto.
Qed.

Lemma mkdirSync_Done_inv p w w' :
  mkdirSync p w = Done tt w' → FS.mkdirp (fs w) p = Some (fs w').
Proof.
  unfold mkdirSync, liftFs. destruct (FS.mkdirp (fs w) p) as [n'|]; [|done].
  by intros [= <-].
Qed.

Lemma readdirSync_Done_inv p w es w' :
  readdirSync p w = Done es w' →
  w' = w ∧ ∃ m, FS.lookup (fs w) p = Some (Dir m) ∧ es = FS.dirent <$> map_to_list m.
Proof.
  unfold readdirSync, FS.readdir.
  destruct (FS.lookup (fs w) p) as [[d|m]|]; try done. intros [= <- <-]. eauto.
Qed.

(** ** The copy of the template *)

Section Loop.

Context {A : Type} (body : A → M unit) (I : world → Prop).

Hypothesis body_keeps : ∀ x w1 w2, I w1 → body x w1 = Done tt w2 → I w2.

Lemma forOf_keeps l : ∀ w w', I w → forOf l body w = Done tt w' → I w'.
Proof.
  induction l as [|x l IH]; intros w w' Hw H; simpl in H.
  - by inversion H; subst.
  - apply bind_Done_inv in H as ([] & w1 & H1 & H2). eauto.
Qed.

Lemma forOf_reaches l e : ∀ w w',
  e ∈ l → I w → forOf l body w = Done tt w' →
  ∃ w1 w2, I w1 ∧ body e w1 = Done tt w2.
Proof.
  induction l as [|x l IH]; intros w w' He Hw H; [by apply elem_of_nil in He|].
  simpl in H. apply bind_Done_inv in H as ([] & w1 & H1 & H2).
  apply elem_of_cons in He as [->|He]; eauto.
Qed.

End Loop.

Section Copy.

Variables (inp : list string) (tr : list event).

Lemma copyDirectory_graft fuel : ∀ src dst n ms,
  (height (Dir ms) ≤ fuel)%nat →
  diverge src dst →
  FS.lookup n src = Some (Dir ms) →
  FS.lookup n dst = Some (Dir ∅) →
  ∃ n', graft (Some n) dst (Dir ms) = Some n' ∧
        copyDirectory fuel src dst (World n inp tr) = Done tt (World n' inp tr).
Proof.
  induction fuel as [|fuel IH]; intros src dst n ms Hh Hdiv HS HD.
  { simpl in Hh. lia. }
  assert (Hloop : ∀ l m_done n_c,
    NoDup l.*1 →
    (∀ x c, (x, c) ∈ l → ms !! x = Some c) →
    (∀ x, x ∈ l.*1 → m_done !! x = None) →
    graft (Some n) dst (Dir m_done) = Some n_c →
    ∃ n', graft (Some n) dst (Dir (m_done ∪ list_to_map l)) = Some n' ∧
      forOf (FS.dirent <$> l)
        (λ entry,
          let srcPath := joinEntry src entry in
          let destPath := joinEntry dst entry in
          if isDirectory entry then
            mkdirSync destPath;; copyDirectory fuel srcPath destPath
          else copyFileSync srcPath destPath)
        (World n_c inp tr) = Done tt (World n' inp tr)).
  { induction l as [|[x c] l IHl]; intros m_done n_c Hnd Hin Hfresh Hg.
    - exists n_c. simpl. rewrite (right_id_L ∅ (∪)). done.
    - rewrite fmap_cons in Hnd. apply NoDup_cons in Hnd as [Hx Hnd].
      assert (Hdonex : m_done !! x = None) by (apply Hfresh; simpl; left).
      assert (Hcx : ms !! x = Some c) by (apply Hin; left).
      assert (HnD : FS.lookup n_c dst = Some (Dir m_done)) by (by eapply lookup_graft_at).
      assert (HnS : FS.lookup n_c (src ++ [x]) = Some c).
      { rewrite (lookup_graft_diverge _ _ _ _ _ Hg); [|by apply diverge_app_r, diverge_sym].
        rewrite lookup_app, HS. simpl. by rewrite Hcx. }
      assert (Hrest : ∀ c', ∀ y, y ∈ l.*1 → <[x := c']> m_done !! y = None).
      { intros c' y Hy. rewrite lookup_insert_ne; [|intros ->; done].
        apply Hfresh. simpl. by right. }
      assert (Hunion : ∀ m2, <[x := c]> m_done ∪ m2 = m_done ∪ <[x := c]> m2).
      { intros m2. rewrite <- insert_union_l. by rewrite insert_union_r. }
      rewrite fmap_cons. cbn [forOf list_to_map foldr uncurry fst snd].
      rewrite <- Hunion.
      destruct c as [data|mc].
      + (* a file is copied *)
        destruct (graft_is_Some (Some n) dst (Dir m_done) (Dir (<[x := File data]> m_done)))
          as [n1 Hn1]; [eauto|].
        destruct (IHl (<[x := File data]> m_done) n1) as (n' & Hn' & Hrun); auto.
        { intros y cy Hy. apply Hin. by right. }
        exists n'. split; [done|].
        erewrite bind_Done; [apply Hrun|].
        cbv beta zeta delta [joinEntry FS.dirent]; cbn [isDirectory name fst snd].
        eapply copyFileSync_Done; cbn [fs].
        * unfold FS.readFile. by rewrite HnS.
        * rewrite (putFile_graft _ _ m_done), (graft_child _ _ _ _ _ _ Hg); [done..|].
          intros mx. by rewrite Hdonex.
      + (* a directory is created and copied *)
        destruct (graft_is_Some (Some n) dst (Dir m_done) (Dir (<[x := Dir ∅]> m_done)))
          as [n1 Hn1]; [eauto|].
        destruct (IH (src ++ [x]) (dst ++ [x]) n1 mc) as (n2 & Hn2 & Hcopy).
        * pose proof (height_child _ _ _ Hcx). lia.
        * by apply diverge_app.
        * rewrite (lookup_graft_diverge _ _ _ _ _ Hn1); [|by apply diverge_app_r, diverge_sym].
          rewrite lookup_app, HS. simpl. by rewrite Hcx.
        * rewrite (lookup_graft_below _ _ _ _ [x] Hn1). simpl. by rewrite lookup_insert_eq.
        * rewrite (graft_child _ _ _ _ _ _ Hn1), insert_insert_eq in Hn2.
          destruct (IHl (<[x := Dir mc]> m_done) n2) as (n' & Hn' & Hrun); auto.
          { intros y cy Hy. apply Hin. by right. }
          exists n'. split; [done|].
          erewrite bind_Done; [apply Hrun|].
          cbv beta zeta delta [joinEntry FS.dirent]; cbn [isDirectory name fst snd].
          erewrite bind_Done; [apply Hcopy|].
          eapply mkdirSync_Done; cbn [fs].
          by rewrite (mkdirp_graft _ _ _ _ HnD Hdonex), (graft_child _ _ _ _ _ _ Hg). }
  destruct (Hloop (map_to_list ms) ∅ n) as (n' & Hn' & Hrun).
  - apply NoDup_fst_map_to_list.
  - intros x c Hx. by apply elem_of_map_to_list.
  - intros x _. apply lookup_empty.
  - by apply graft_id.
  - exists n'. rewrite (left_id_L ∅ (∪)), list_to_map_to_list in Hn'. split; [done|].
    cbn [copyDirectory]. erewrite bind_Done; [apply Hrun|].
    by apply readdirSync_Done.
Qed.

End Copy.

Lemma copyDirectory_empty fuel src dest w :
  FS.lookup (fs w) src = Some (Dir ∅) →
  copyDirectory (S fuel) src dest w = Done tt w.
Proof.
  intros H. cbn [copyDirectory]. erewrite bind_Done; [|by apply readdirSync_Done].
  by rewrite map_to_list_empty.
Qed.

(** The copy into a fresh directory that does not lie inside the template:
    the directory becomes the tree of the template, and nothing else
    changes. *)
Lemma copyDirectory_fresh fuel src dest n ms inp tr :
  (height (Dir ms) ≤ fuel)%nat →
  FS.lookup n src = Some (Dir ms) →
  FS.lookup n dest = Some (Dir ∅) →
  ¬ inside src dest →
  ∃ n', copyDirectory fuel src dest (World n inp tr) = Done tt (World n' inp tr)
        ∧ (∀ rel, FS.lookup n' (dest ++ rel) = FS.lookup n (src ++ rel))
        ∧ (∀ rel, FS.lookup n' (src ++ rel) = FS.lookup n (src ++ rel)).
Proof.
  intros Hfuel Hsrc Hdest Hin.
  destruct (path_cases src dest) as [->|[Hins|[(r & Hr & ->)|Hdiv]]].
  - exists n. rewrite Hdest in Hsrc. inversion Hsrc; subst ms.
    destruct fuel as [|fuel]; [cbn in Hfuel; lia|].
    split; [|done]. by apply copyDirectory_empty.
  - done.
  - rewrite lookup_app, Hdest in Hsrc. destruct r as [|x r]; [done|].
    cbn in Hsrc. by rewrite lookup_empty in Hsrc.
  - destruct (copyDirectory_graft inp tr fuel src dest n ms) as (n' & Hg & Hrun); try done.
    exists n'. split_and!; [done|..].
    + intros rel. rewrite (lookup_graft_below _ _ _ _ rel Hg).
      by rewrite lookup_app, Hsrc.
    + intros rel. apply (lookup_graft_diverge _ _ _ _ _ Hg).
      by apply diverge_app_r, diverge_sym.
Qed.

Lemma copyDirectory_preserves fuel : ∀ src dst w w' p,
  copyDirectory fuel src dst w = Done tt w' → dirAt (fs w) p → dirAt (fs w') p.
Proof.
  induction fuel as [|fuel IH]; intros src dst w w' p H Hd; [done|].
  cbn [copyDirectory] in H.
  apply bind_Done_inv in H as (es & w1 & Hr & Hloop).
  apply readdirSync_Done_inv in Hr as (-> & _).
  eapply (forOf_keeps _ (λ w, dirAt (fs w) p)); [|exact Hd|exact Hloop].
  intros e w1 w2 Hw1. cbv beta zeta.
  destruct (isDirectory e).
  - intros Hb. apply bind_Done_inv in Hb as ([] & w3 & Hm & Hc).
    apply mkdirSync_Done_inv in Hm. eapply IH; [exact Hc|].
    by eapply mkdirp_preserves.
  - intros Hb. apply copyFileSync_Done_inv in Hb as [data Hput].
    by eapply putFile_preserves.
Qed.

(** Copying a directory into one of its own subdirectories never ends. *)
Lemma copyDirectory_into_itself fuel : ∀ src r w w',
  r ≠ [] → dirAt (fs w) (src ++ r) → copyDirectory fuel src (src ++ r) w ≠ Done tt w'.
Proof.
  induction fuel as [|fuel IH]; intros src r w w' Hr Hd H; [done|].
  cbn [copyDirectory] in H.
  apply bind_Done_inv in H as (es & w1 & Hrd & Hloop).
  apply readdirSync_Done_inv in Hrd as (-> & ms & HS & ->).
  destruct r as [|x r]; [done|].
  assert (∃ mx, ms !! x = Some (Dir mx)) as [mx Hx].
  { destruct Hd as [m' Hm']. rewrite lookup_app, HS in Hm'.
    assert (dirAt (Dir ms) (x :: r)) as Hd' by by exists m'.
    apply dirAt_cons_inv in Hd' as (mx & ? & _). eauto. }
  assert (Hin : FS.dirent (x, Dir mx) ∈ FS.dirent <$> map_to_list ms).
  { apply list_elem_of_fmap. exists (x, Dir mx). split; [done|].
    by apply elem_of_map_to_list. }
  match type of Hloop with forOf _ ?b _ = _ =>
    assert (Hkeeps : ∀ e w1 w2, dirAt (fs w1) (src ++ x :: r) →
              b e w1 = Done tt w2 → dirAt (fs w2) (src ++ x :: r)) end.
  { intros e w1 w2 Hw1. cbv beta zeta. destruct (isDirectory e).
    - intros Hb. apply bind_Done_inv in Hb as ([] & w3 & Hm & Hc).
      apply mkdirSync_Done_inv in Hm. eapply copyDirectory_preserves; [exact Hc|].
      by eapply mkdirp_preserves.
    - intros Hb. apply copyFileSync_Done_inv in Hb as [data Hput].
      by eapply putFile_preserves. }
  destruct (forOf_reaches _ _ Hkeeps _ _ _ _ Hin Hd Hloop) as (w1 & w2 & Hw1 & Hbody).
  clear Hkeeps Hloop.
  cbv beta zeta delta [joinEntry FS.dirent] in Hbody; cbn [isDirectory name fst snd] in Hbody.
    apply bind_Done_inv in Hbody as ([] & w3 & Hm & Hc).
    apply mkdirSync_Done_inv, mkdirp_dirAt in Hm.
    replace ((src ++ x :: r) ++ [x]) with ((src ++ [x]) ++ (r ++ [x])) in Hc, Hm
      by (by rewrite <- !app_assoc).
    eapply IH; [|exact Hm|exact Hc]. by destruct r.
Qed.

(** ** Running the steps of the script *)

Lemma getProjectName_run w answer rest :
  stdin w = answer :: rest →
  getProjectName w
  = Done (JS.trim answer)
      {| fs := fs w; stdin := rest; trace := trace w ++ [nameQuestion] |}.
Proof. intros H. unfold getProjectName. run. by rewrite H. Qed.

Lemma getProjectDescription_run w answer rest :
  stdin w = answer :: rest →
  getProjectDescription w
  = Done (JS.trim answer)
      {| fs := fs w; stdin := rest; trace := trace w ++ [descriptionQuestion] |}.
Proof. intros H. unfold getProjectDescription. run. by rewrite H. Qed.

Lemma getProjectType_run w answer rest :
  stdin w = answer :: rest →
  getProjectType w
  = Done (projectTypeOf answer)
      {| fs := fs w; stdin := rest; trace := trace w ++ typeMenu |}.
Proof. intros H. unfold getProjectType. run. rewrite H. by trace_assoc. Qed.

Lemma getDatabaseConfig_run w answer rest :
  stdin w = answer :: rest →
  getDatabaseConfig w
  = Done (databaseConfigOf answer)
      {| fs := fs w; stdin := rest; trace := trace w ++ databaseMenu |}.
Proof. intros H. unfold getDatabaseConfig. run. rewrite H. by trace_assoc. Qed.

Lemma getAuthConfig_run w answer rest :
  stdin w = answer :: rest →
  getAuthConfig w
  = Done (authConfigOf answer)
      {| fs := fs w; stdin := rest; trace := trace w ++ authMenu |}.
Proof. intros H. unfold getAuthConfig. run. rewrite H. by trace_assoc. Qed.

(** The configuration that five answers stand for. *)
Lemma collect_run w a1 a2 a3 a4 a5 rest :
  stdin w = a1 :: a2 :: a3 :: a4 :: a5 :: rest →
  JS.trim a1 ≠ EmptyString →
  collect w
  = Done {| cfg_name := JS.trim a1;
            cfg_description := JS.trim a2;
            cfg_type := projectTypeOf a3;
            cfg_database := databaseConfigOf a4;
            cfg_auth := authConfigOf a5 |}
      {| fs := fs w; stdin := rest; trace := trace w ++ answersTrace |}.
Proof.
  intros Hin Hname. apply String.eqb_neq in Hname.
  unfold collect.
  do 3 (erewrite bind_Done; [|reflexivity]).
  erewrite bind_Done; [|by apply getProjectName_run; run; rewrite Hin].
  rewrite Hname.
  erewrite bind_Done; [|reflexivity].
  erewrite bind_Done; [|by apply getProjectDescription_run].
  erewrite bind_Done; [|by apply getProjectType_run].
  erewrite bind_Done; [|by apply getDatabaseConfig_run].
  erewrite bind_Done; [|by apply getAuthConfig_run].
  unfold mret, M_ret. cbn [fs stdin trace]. unfold answersTrace, bannerTrace.
  by trace_assoc.
Qed.

(** With an empty name the collection ends the process at once. *)
Lemma collect_empty_name w answer rest :
  stdin w = answer :: rest →
  JS.trim answer = EmptyString →
  collect w
  = Exited 1 {| fs := fs w; stdin := rest;
                trace := trace w ++ bannerTrace
                           ++ [nameQuestion; LogError "Project name is required"] |}.
Proof.
  intros Hin Hname. unfold collect.
  do 3 (erewrite bind_Done; [|reflexivity]).
  erewrite bind_Done; [|by apply getProjectName_run; run; rewrite Hin].
  rewrite Hname. cbn [String.eqb]. run. unfold bannerTrace, nameQuestion. by trace_assoc.
Qed.

Lemma createNewApp_try_steps fuel w :
  createNewApp_try fuel w
  = (config ← collect;
     materialize fuel config;;
     finish (cfg_name config) (projectPathOf (cfg_name config))) w.
Proof.
  unfold createNewApp_try, collect, materialize, finish, projectPathOf.
  repeat (rewrite bind_assoc; apply bind_ext; intros ? ?).
  symmetry. erewrite bind_Done; [|reflexivity]. cbn [cfg_name cfg_type].
  rewrite bind_assoc. apply bind_ext; intros ? ?.
  rewrite bind_assoc. by apply bind_ext.
Qed.

Lemma createNewApp_try_upToInstall fuel w :
  createNewApp_try fuel w
  = (config ← upToInstall fuel;
     finish (cfg_name config) (projectPathOf (cfg_name config))) w.
Proof.
  rewrite createNewApp_try_steps. unfold upToInstall.
  rewrite bind_assoc. apply bind_ext; intros config w1.
  rewrite bind_assoc. apply bind_ext; intros [] w2.
  symmetry. by erewrite bind_Done.
Qed.

(** [createNewApp] catches every exception, so the handler of [main] is
    never entered. *)
Lemma main_createNewApp fuel w : main fuel w = createNewApp fuel w.
Proof.
  unfold main, createNewApp, tryCatch.
  by destruct (createNewApp_try fuel w).
Qed.

Lemma main_not_Thrown fuel w e w' : main fuel w ≠ Thrown e w'.
Proof.
  rewrite main_createNewApp. unfold createNewApp, tryCatch.
  by destruct (createNewApp_try fuel w).
Qed.

Lemma main_Done fuel w w' :
  createNewApp_try fuel w = Done tt w' → main fuel w = Done tt w'.
Proof. intros H. rewrite main_createNewApp. unfold createNewApp, tryCatch. by rewrite H. Qed.

Lemma main_Done_inv fuel w w' :
  main fuel w = Done tt w' → createNewApp_try fuel w = Done tt w'.
Proof.
  rewrite main_createNewApp. unfold createNewApp, tryCatch.
  by destruct (createNewApp_try fuel w) as [[] w1| | | |].
Qed.

Lemma main_Exited fuel w c w' :
  createNewApp_try fuel w = Exited c w' → main fuel w = Exited c w'.
Proof. intros H. rewrite main_createNewApp. unfold createNewApp, tryCatch. by rewrite H. Qed.

Lemma main_Thrown fuel w e w' :
  createNewApp_try fuel w = Thrown e w' →
  main fuel w
  = Exited 1 {| fs := fs w'; stdin := stdin w';
                trace := trace w' ++ [LogError ("Failed to create app: " +:+ message e)] |}.
Proof. intros H. rewrite main_createNewApp. unfold createNewApp, tryCatch. by rewrite H. Qed.

Lemma path_join_entry (p : path) :
  path_join p ["package.json"] = p ++ ["package.json"]
  ∧ path_join p ["README.md"] = p ++ ["README.md"].
Proof. done. Qed.

Lemma createProjectDirectory_exists projectPath w :
  FS.exists_ (fs w) projectPath = true →
  createProjectDirectory projectPath w
  = Thrown (Error ("Directory " +:+ path_to_string projectPath +:+ " already exists")) w.
Proof. intros H. unfold createProjectDirectory. run. by rewrite H. Qed.

Lemma createProjectDirectory_fresh projectPath w n' :
  FS.exists_ (fs w) projectPath = false →
  FS.mkdirp (fs w) projectPath = Some n' →
  createProjectDirectory projectPath w
  = Done tt {| fs := n'; stdin := stdin w;
               trace := trace w ++ [LogSuccess ("Created project directory: "
                                                  +:+ path_to_string projectPath)] |}.
Proof.
  intros H Hm. unfold createProjectDirectory, mkdirSync, liftFs. run. by rewrite H, Hm.
Qed.

Lemma copyTemplateFiles_missing fuel projectPath projectType w :
  FS.exists_ (fs w) (templatePathOf projectType) = false →
  copyTemplateFiles fuel projectPath projectType w
  = Done tt {| fs := fs w; stdin := stdin w;
               trace := trace w ++ [LogWarning ("Template " +:+ projectType
                                       +:+ " not found, using basic template")] |}.
Proof. intros H. unfold copyTemplateFiles. run. by rewrite H. Qed.

Lemma copyTemplateFiles_present fuel projectPath projectType w :
  FS.exists_ (fs w) (templatePathOf projectType) = true →
  copyTemplateFiles fuel projectPath projectType w
  = (copyDirectory fuel (templatePathOf projectType) projectPath;;
     logSuccess ("Copied template files for " +:+ projectType)) w.
Proof. intros H. unfold copyTemplateFiles. run. by rewrite H. Qed.

(** In a project directory without manifest and README nothing is rewritten. *)
Lemma updateConfigFiles_absent projectPath config w :
  FS.exists_ (fs w) (projectPath ++ ["package.json"]) = false →
  FS.exists_ (fs w) (projectPath ++ ["README.md"]) = false →
  updateConfigFiles projectPath config w
  = Done tt {| fs := fs w; stdin := stdin w;
               trace := trace w ++ [LogSuccess "Updated configuration files"] |}.
Proof.
  intros H1 H2. unfold updateConfigFiles.
  destruct (path_join_entry projectPath) as [-> ->].
  run. by rewrite H1, H2.
Qed.

Lemma execSync_run cmd dir w :
  execSync cmd dir w
  = let r := spawn cmd dir (fs w) in
    let w' := {| fs := r.2; stdin := stdin w; trace := trace w ++ [Exec cmd dir] |} in
    if r.1 then Done tt w' else Thrown (ExecError cmd) w'.
Proof. reflexivity. Qed.

Lemma displaySuccessMessage_run projectName projectPath w :
  displaySuccessMessage projectName projectPath w
  = Done tt {| fs := fs w; stdin := stdin w;
               trace := trace w ++ summaryTrace projectName projectPath |}.
Proof.
  unfold displaySuccessMessage, log, console_log.
  do 12 (erewrite bind_Done; [|reflexivity]; cbn [fs stdin trace]).
  unfold emit, summaryTrace. cbn [fs stdin trace]. by trace_assoc.
Qed.

(** One call of [execSync] in a run: both outcomes of the command. *)
Ltac exec_step :=
  rewrite execSync_run; cbn zeta; cbn [fs stdin trace];
  match goal with
  | |- context [spawn ?c ?p ?n] => destruct (spawn c p n) as [[] ?]
  end;
  cbn [fst snd fs stdin trace].

(** Installing the dependencies never fails the run. *)
Lemma installDependencies_Done projectPath w :
  ∃ w' events,
    installDependencies projectPath w = Done tt w'
    ∧ stdin w' = stdin w
    ∧ trace w' = trace w ++ LogInfo "Installing dependencies..."
                   :: Exec "pnpm install" projectPath :: events.
Proof.
  unfold installDependencies. run. exec_step; [done_with_events|].
  exec_step; done_with_events.
Qed.

(** Nor does the initial commit. *)
Lemma createInitialCommit_Done projectPath w :
  ∃ w' events,
    createInitialCommit projectPath w = Done tt w'
    ∧ stdin w' = stdin w
    ∧ trace w' = trace w ++ Exec "git init" projectPath :: events.
Proof.
  unfold createInitialCommit. run. exec_step; [|done_with_events].
  exec_step; [|done_with_events]. exec_step; done_with_events.
Qed.

(** Once the project directory is written the run reaches the summary. *)
Lemma finish_Done projectName projectPath w :
  ∃ w' installEvents gitEvents,
    finish projectName projectPath w = Done tt w'
    ∧ stdin w' = stdin w
    ∧ trace w' = trace w
        ++ (LogInfo "Installing dependencies..."
              :: Exec "pnpm install" projectPath :: installEvents)
        ++ (Exec "git init" projectPath :: gitEvents)
        ++ summaryTrace projectName projectPath.
Proof.
  destruct (installDependencies_Done projectPath w) as (w1 & ev1 & H1 & Hi1 & Ht1).
  destruct (createInitialCommit_Done projectPath w1) as (w2 & ev2 & H2 & Hi2 & Ht2).
  exists {| fs := fs w2; stdin := stdin w2;
            trace := trace w2 ++ summaryTrace projectName projectPath |}, ev1, ev2.
  split_and!.
  - unfold finish. erewrite bind_Done; [|exact H1]. erewrite bind_Done; [|exact H2].
    apply displaySuccessMessage_run.
  - cbn. congruence.
  - cbn. rewrite Ht2, Ht1. by rewrite <- !app_assoc.
Qed.

(** ** Counting the spawned commands *)

Lemma execCount_app cmd tr tr' :
  execCount cmd (tr ++ tr') = (execCount cmd tr + execCount cmd tr')%nat.
Proof. unfold execCount. by rewrite List.filter_app, length_app. Qed.

(** ** Where the process can exit *)

Lemma noExit_bind {A B} (m : M A) (f : A → M B) :
  noExit m → (∀ a, noExit (f a)) → noExit (m ≫= f).
Proof.
  intros Hm Hf w c w'. unfold mbind, M_bind.
  destruct (m w) as [a w1|e w1|c1 w1|w1|] eqn:E; try done.
  - apply Hf.
  - by destruct (Hm w c1 w1).
Qed.

Lemma noExit_mret {A} (a : A) : noExit (mret a).
Proof. done. Qed.

Lemma noExit_emit e : noExit (emit e).
Proof. done. Qed.

Lemma noExit_throw {A} e : noExit (throw e : M A).
Proof. done. Qed.

Lemma noExit_orThrow {A} (o : option A) e : noExit (orThrow o e).
Proof. intros w c w'. unfold orThrow. by destruct o. Qed.

Lemma noExit_question q : noExit (question q).
Proof. intros w c w'. unfold question. by destruct (stdin w). Qed.

Lemma noExit_liftFs syscall p f : noExit (liftFs syscall p f).
Proof. intros w c w'. unfold liftFs. by destruct (f (fs w)). Qed.

Lemma noExit_existsSync p : noExit (existsSync p).
Proof. done. Qed.

Lemma noExit_readdirSync p : noExit (readdirSync p).
Proof. intros w c w'. unfold readdirSync. by destruct (FS.readdir (fs w) p). Qed.

Lemma noExit_readFileSync p : noExit (readFileSync p).
Proof. intros w c w'. unfold readFileSync. by destruct (FS.readFile (fs w) p). Qed.

Lemma noExit_tryCatch {A} (m : M A) h :
  noExit m → (∀ e, noExit (h e)) → noExit (tryCatch m h).
Proof.
  intros Hm Hh w c w'. unfold tryCatch.
  destruct (m w) as [a w1|e w1|c1 w1|w1|] eqn:E; try done.
  - apply Hh.
  - by destruct (Hm w c1 w1).
Qed.

Lemma noExit_forOf {A} (l : list A) body :
  (∀ x, noExit (body x)) → noExit (forOf l body).
Proof.
  intros Hb. induction l as [|x l IH]; [done|].
  cbn [forOf]. apply noExit_bind; auto.
Qed.

Lemma noExit_if {A} (b : bool) (m1 m2 : M A) :
  noExit m1 → noExit m2 → noExit (if b then m1 else m2).
Proof. by destruct b. Qed.

Create HintDb noexit.

#[local] Hint Resolve noExit_mret noExit_emit noExit_throw noExit_orThrow noExit_question
  noExit_liftFs noExit_existsSync noExit_readdirSync noExit_readFileSync : noexit.

(** Splits a computation into its steps, down to the primitives. *)
Ltac no_exit :=
  repeat first
    [ apply noExit_bind; [|intros ?]
    | apply noExit_tryCatch; [|intros ?]
    | apply noExit_if
    | apply noExit_forOf; intros ?
    | progress auto with noexit ].

Lemma noExit_copyDirectory fuel : ∀ src dest, noExit (copyDirectory fuel src dest).
Proof.
  induction fuel as [|fuel IH]; intros src dest; [done|].
  cbn [copyDirectory]. unfold mkdirSync, copyFileSync. no_exit; apply IH.
Qed.

Lemma noExit_materialize fuel config : noExit (materialize fuel config).
Proof.
  unfold materialize, createProjectDirectory, copyTemplateFiles, updateConfigFiles,
    updatePackageJson, mkdirSync, writeFileSync, logSuccess, logWarning.
  no_exit; apply noExit_copyDirectory.
Qed.

Lemma noExit_finish projectName projectPath : noExit (finish projectName projectPath).
Proof.
  intros w c w' H.
  destruct (finish_Done projectName projectPath w) as (w1 & ? & ? & Hf & _).
  congruence.
Qed.

(** The only call of [process.exit] in the [try] block is the one for an
    empty project name. *)
Lemma collect_Exited_inv w c w' :
  collect w = Exited c w' →
  c = 1 ∧ ∃ answer rest, stdin w = answer :: rest ∧ JS.trim answer = EmptyString.
Proof.
  destruct (stdin w) as [|answer rest] eqn:Hin;
    unfold collect; do 3 (erewrite bind_Done; [|reflexivity]).
  { unfold getProjectName. run. by rewrite Hin. }
  erewrite bind_Done; [|by apply getProjectName_run; run; rewrite Hin].
  destruct (String.eqb_spec (JS.trim answer) EmptyString) as [Hname|Hname].
  - run. intros [= <- _]. eauto.
  - erewrite bind_Done; [|reflexivity]. intros H. exfalso. revert H.
    unfold getProjectDescription, getProjectType, getDatabaseConfig, getAuthConfig,
      logInfo, log, console_log.
    match goal with |- ?m _ = _ → False => assert (noExit m) as Hne by no_exit end.
    apply Hne.
Qed.

(** ** Rewriting the manifest and the README *)

Lemma getProp_setProp_eq k v props : getProp k (setProp k v props) = Some v.
Proof.
  induction props as [|[k' v'] props IH]; cbn.
  - by rewrite String.eqb_refl.
  - destruct (String.eqb_spec k' k) as [->|Hne]; cbn.
    + by rewrite String.eqb_refl.
    + by destruct (String.eqb_spec k' k).
Qed.

Lemma getProp_setProp_ne k k' v props :
  k ≠ k' → getProp k' (setProp k v props) = getProp k' props.
Proof.
  intros Hne. induction props as [|[k0 v0] props IH]; cbn.
  - by destruct (String.eqb_spec k k').
  - destruct (String.eqb_spec k0 k) as [->|Hne0]; cbn.
    + by destruct (String.eqb_spec k k').
    + by rewrite IH.
Qed.

Lemma setProp_id k v props : getProp k props = Some v → setProp k v props = props.
Proof.
  induction props as [|[k' v'] props IH]; cbn; [done|].
  destruct (String.eqb_spec k' k) as [->|Hne].
  - by intros [= ->].
  - intros H. by rewrite IH.
Qed.

(** Assigning the two fields leaves every other field as it was. *)
Lemma updatedManifest_kept text config v v' :
  JSON_parse text = Some v →
  updatedManifest text config = Some v' →
  otherFieldsKept v v'.
Proof.
  intros Hp. unfold updatedManifest. rewrite Hp. cbn.
  destruct v as [|b|r|s|items|props]; cbn; try by intros [= <-].
  intros [= <-]. intros k Hn Hd. by rewrite !getProp_setProp_ne.
Qed.

(** Assigning the two fields a second time changes nothing. *)
Lemma updatedManifest_again text config v :
  updatedManifest text config = Some v →
  JSON_parse (JSON_stringify v) = Some v →
  updatedManifest (JSON_stringify v) config = Some v.
Proof.
  unfold updatedManifest. intros H ->. cbn.
  destruct (JSON_parse text) as [[|b|r|s|items|props]|]; cbn in H; try done;
    try by inversion H.
  inversion H; subst v. cbn. do 2 f_equal.
  rewrite (setProp_id "name").
  - apply setProp_id, getProp_setProp_eq.
  - rewrite getProp_setProp_ne; [|done]. apply getProp_setProp_eq.
Qed.

Lemma updatePackageJson_run text config w :
  updatePackageJson text config w
  = match JSON_parse text with
    | None => Thrown SyntaxError w
    | Some v =>
        match updatedManifest text config with
        | Some v' => Done (JSON_stringify v') w
        | None => Thrown TypeError w
        end
    end.
Proof.
  unfold updatePackageJson, updatedManifest. run.
  destruct (JSON_parse text) as [v|]; [|done]. cbn.
  destruct (assignProp v "name" _) as [v1|]; [|done]. cbn.
  by destruct (assignProp v1 "description" _).
Qed.

(** A file that is there can be overwritten. *)
Lemma putFile_over_file p x n old data :
  FS.readFile n (p ++ [x]) = Some old → is_Some (FS.putFile n (p ++ [x]) data).
Proof.
  intros H. unfold FS.readFile in H.
  destruct (FS.lookup n (p ++ [x])) as [[d|m]|] eqn:Hl; try done.
  rewrite lookup_app in Hl.
  destruct (FS.lookup n p) as [[d'|m]|] eqn:Hp; cbn in Hl; try done.
  destruct (m !! x) as [c|] eqn:Hx; cbn in Hl; [|done]. inversion Hl; subst c.
  rewrite (putFile_graft _ _ _ _ _ Hp); [|intros mx; by rewrite Hx].
  apply (graft_is_Some _ _ (File d)). rewrite graft_id; [done|].
  rewrite lookup_app, Hp. cbn. by rewrite Hx.
Qed.

Lemma updateConfigFiles_halves projectPath config w :
  updateConfigFiles projectPath config w
  = (rewriteManifest projectPath config;;
     rewriteReadme projectPath config;;
     logSuccess "Updated configuration files") w.
Proof.
  unfold updateConfigFiles, rewriteManifest, rewriteReadme. cbv zeta.
  rewrite bind_assoc. apply bind_ext; intros b w1.
  apply bind_ext; intros [] w2. by rewrite bind_assoc.
Qed.

Section Halves.

Variables (projectPath : path) (config : Config).

Local Abbreviation packageJsonPath := (projectPath ++ ["package.json"]).

Local Abbreviation readmePath := (projectPath ++ ["README.md"]).

Lemma rewriteManifest_absent w :
  FS.exists_ (fs w) packageJsonPath = false →
  rewriteManifest projectPath config w = Done tt w.
Proof.
  intros H. unfold rewriteManifest. destruct (path_join_entry projectPath) as [-> _].
  run. by rewrite H.
Qed.

Lemma rewriteManifest_present w text v n' :
  FS.readFile (fs w) packageJsonPath = Some text →
  updatedManifest text config = Some v →
  FS.putFile (fs w) packageJsonPath (JSON_stringify v) = Some n' →
  rewriteManifest projectPath config w
  = Done tt {| fs := n'; stdin := stdin w; trace := trace w |}.
Proof.
  intros Hr Hv Hw. unfold rewriteManifest.
  destruct (path_join_entry projectPath) as [-> _].
  assert (FS.exists_ (fs w) packageJsonPath = true) as Hex.
  { unfold FS.exists_, FS.readFile in *. by destruct (FS.lookup (fs w) packageJsonPath). }
  erewrite bind_Done; [|unfold existsSync; by rewrite Hex]. cbv beta iota.
  erewrite bind_Done; [|unfold readFileSync; by rewrite Hr].
  erewrite bind_Done.
  2: { rewrite updatePackageJson_run, Hv.
       unfold updatedManifest in Hv. by destruct (JSON_parse text). }
  unfold writeFileSync, liftFs. by rewrite Hw.
Qed.

Lemma rewriteManifest_Done_inv w w' :
  rewriteManifest projectPath config w = Done tt w' →
  stdin w' = stdin w ∧ trace w' = trace w
  ∧ ((FS.exists_ (fs w) packageJsonPath = false ∧ fs w' = fs w)
     ∨ (∃ text v, FS.readFile (fs w) packageJsonPath = Some text
          ∧ updatedManifest text config = Some v
          ∧ FS.putFile (fs w) packageJsonPath (JSON_stringify v) = Some (fs w'))).
Proof.
  unfold rewriteManifest. destruct (path_join_entry projectPath) as [-> _].
  run.
  destruct (FS.exists_ (fs w) packageJsonPath) eqn:Hex.
  2: { intros [= <-]. split_and!; try done. by left. }
  unfold readFileSync.
  destruct (FS.readFile (fs w) packageJsonPath) as [text|] eqn:Hr; [|done].
  rewrite updatePackageJson_run.
  destruct (JSON_parse text) as [v0|]; [|done].
  destruct (updatedManifest text config) as [v|] eqn:Hv; [|done].
  unfold writeFileSync, liftFs. cbn [fs stdin trace].
  destruct (FS.putFile (fs w) packageJsonPath (JSON_stringify v)) as [n'|] eqn:Hw; [|done].
  intros [= <-]. split_and!; try done. right. by exists text, v.
Qed.

Lemma rewriteReadme_absent w :
  FS.exists_ (fs w) readmePath = false →
  rewriteReadme projectPath config w = Done tt w.
Proof.
  intros H. unfold rewriteReadme. destruct (path_join_entry projectPath) as [_ ->].
  run. by rewrite H.
Qed.

Lemma rewriteReadme_present w readme n' :
  FS.readFile (fs w) readmePath = Some readme →
  FS.putFile (fs w) readmePath (updateReadme readme config) = Some n' →
  rewriteReadme projectPath config w
  = Done tt {| fs := n'; stdin := stdin w; trace := trace w |}.
Proof.
  intros Hr Hw. unfold rewriteReadme.
  destruct (path_join_entry projectPath) as [_ ->].
  assert (FS.exists_ (fs w) readmePath = true) as Hex.
  { unfold FS.exists_, FS.readFile in *. by destruct (FS.lookup (fs w) readmePath). }
  erewrite bind_Done; [|unfold existsSync; by rewrite Hex]. cbv beta iota.
  erewrite bind_Done; [|unfold readFileSync; by rewrite Hr].
  unfold writeFileSync, liftFs. by rewrite Hw.
Qed.

Lemma rewriteReadme_Done_inv w w' :
  rewriteReadme projectPath config w = Done tt w' →
  stdin w' = stdin w ∧ trace w' = trace w
  ∧ ((FS.exists_ (fs w) readmePath = false ∧ fs w' = fs w)
     ∨ (∃ readme, FS.readFile (fs w) readmePath = Some readme
          ∧ FS.putFile (fs w) readmePath (updateReadme readme config) = Some (fs w'))).
Proof.
  unfold rewriteReadme. destruct (path_join_entry projectPath) as [_ ->].
  run.
  destruct (FS.exists_ (fs w) readmePath) eqn:Hex.
  2: { intros [= <-]. split_and!; try done. by left. }
  unfold readFileSync.
  destruct (FS.readFile (fs w) readmePath) as [readme|] eqn:Hr; [|done].
  unfold writeFileSync, liftFs. cbn [fs stdin trace].
  destruct (FS.putFile (fs w) readmePath (updateReadme readme config)) as [n'|] eqn:Hw;
    [|done].
  intros [= <-]. split_and!; try done. right. by exists readme.
Qed.

End Halves.

Lemma updateConfigFiles_Done_inv projectPath config w w' :
  updateConfigFiles projectPath config w = Done tt w' →
  ∃ w1 w2,
    rewriteManifest projectPath config w = Done tt w1
    ∧ rewriteReadme projectPath config w1 = Done tt w2
    ∧ w' = {| fs := fs w2; stdin := stdin w2;
              trace := trace w2 ++ [LogSuccess "Updated configuration files"] |}.
Proof.
  rewrite updateConfigFiles_halves. intros H.
  apply bind_Done_inv in H as ([] & w1 & H1 & H).
  apply bind_Done_inv in H as ([] & w2 & H2 & H).
  exists w1, w2. split_and!; [done..|]. by inversion H.
Qed.

Lemma updateConfigFiles_Done projectPath config w w1 w2 :
  rewriteManifest projectPath config w = Done tt w1 →
  rewriteReadme projectPath config w1 = Done tt w2 →
  updateConfigFiles projectPath config w
  = Done tt {| fs := fs w2; stdin := stdin w2;
               trace := trace w2 ++ [LogSuccess "Updated configuration files"] |}.
Proof.
  intros H1 H2. rewrite updateConfigFiles_halves.
  erewrite bind_Done; [|exact H1]. by erewrite bind_Done; [|exact H2].
Qed.

(** The rewriting of the README leaves the manifest alone. *)
Lemma rewriteReadme_keeps_manifest projectPath config w w' :
  rewriteReadme projectPath config w = Done tt w' →
  FS.lookup (fs w') (projectPath ++ ["package.json"])
  = FS.lookup (fs w) (projectPath ++ ["package.json"]).
Proof.
  intros H. apply rewriteReadme_Done_inv in H as (_ & _ & [[_ ->]|(readme & _ & Hput)]);
    [done|].
  eapply lookup_putFile_diverge; [exact Hput|]. by apply diverge_siblings.
Qed.

(** The configuration step rewrites no other path than the two files. *)
Lemma updateConfigFiles_frame projectPath config w w' q :
  updateConfigFiles projectPath config w = Done tt w' →
  diverge (projectPath ++ ["package.json"]) q →
  diverge (projectPath ++ ["README.md"]) q →
  FS.lookup (fs w') q = FS.lookup (fs w) q.
Proof.
  intros H Hp Hr. apply updateConfigFiles_Done_inv in H as (w1 & w2 & H1 & H2 & ->).
  cbn [fs].
  apply rewriteManifest_Done_inv in H1 as (_ & _ & [[_ E1]|(text & v & _ & _ & Hput1)]);
  apply rewriteReadme_Done_inv in H2 as (_ & _ & [[_ E2]|(readme & _ & Hput2)]).
  - congruence.
  - rewrite <- E1. by eapply lookup_putFile_diverge.
  - rewrite E2. by eapply lookup_putFile_diverge.
  - rewrite (lookup_putFile_diverge _ _ _ _ _ Hput2 Hr).
    by eapply lookup_putFile_diverge.
Qed.

(** * The claims of the specification *)

(** C1: if the destination directory ([process.cwd()] joined with the
    project name) exists when the run reaches the creation of the
    directory, the run fails with the error "Directory ... already exists":
    the [try] block throws it before anything is copied or spawned, the
    process exits with code 1, and the file system (so also the directory
    that was there) is unchanged. *)
Theorem C1_destination_exists fuel w a1 a2 a3 a4 a5 rest :
  stdin w = a1 :: a2 :: a3 :: a4 :: a5 :: rest →
  JS.trim a1 ≠ EmptyString →
  FS.exists_ (fs w) (projectPathOf (JS.trim a1)) = true →
  let err := Error ("Directory " +:+ path_to_string (projectPathOf (JS.trim a1))
                      +:+ " already exists") in
  createNewApp_try fuel w
  = Thrown err {| fs := fs w; stdin := rest; trace := trace w ++ answersTrace |}
  ∧ main fuel w
    = Exited 1 {| fs := fs w; stdin := rest;
                  trace := trace w ++ answersTrace
                             ++ [LogError ("Failed to create app: " +:+ message err)] |}
  ∧ exitCode (main fuel w) = Some 1.
Proof.
  intros Hin Hname Hex err.
  assert (Htry : createNewApp_try fuel w
                 = Thrown err {| fs := fs w; stdin := rest;
                                 trace := trace w ++ answersTrace |}).
  { rewrite createNewApp_try_steps.
    erewrite bind_Done; [|by apply collect_run].
    apply bind_Thrown. unfold materialize. apply bind_Thrown.
    by apply createProjectDirectory_exists. }
  assert (Hmain := main_Thrown _ _ _ _ Htry). cbn [fs stdin trace] in Hmain.
  rewrite <- app_assoc in Hmain.
  split_and!; [done..|]. by rewrite Hmain.
Qed.

(** C2, amended: when the destination is free, the template tree exists
    once the project directory is made, and the project directory does not
    lie inside the template tree, then the copy step completes (with fuel
    for the height of the tree) and the project directory is a copy of the
    template tree: it has a file at a relative path exactly if the
    template has one there, with the same bytes.  The template tree is
    unchanged. *)
Theorem C2_copy_is_exact fuel w projectPath projectType n1 ms :
  FS.exists_ (fs w) projectPath = false →
  FS.mkdirp (fs w) projectPath = Some n1 →
  FS.lookup n1 (templatePathOf projectType) = Some (Dir ms) →
  ¬ inside (templatePathOf projectType) projectPath →
  (height (Dir ms) ≤ fuel)%nat →
  ∃ n2,
    (createProjectDirectory projectPath;;
     copyTemplateFiles fuel projectPath projectType) w
    = Done tt {| fs := n2; stdin := stdin w;
                 trace := trace w
                   ++ [LogSuccess ("Created project directory: "
                                     +:+ path_to_string projectPath);
                       LogSuccess ("Copied template files for " +:+ projectType)] |}
    ∧ (∀ rel data,
         FS.lookup n2 (projectPath ++ rel) = Some (File data)
         ↔ FS.lookup n1 (templatePathOf projectType ++ rel) = Some (File data))
    ∧ (∀ rel, FS.lookup n2 (projectPath ++ rel)
              = FS.lookup n1 (templatePathOf projectType ++ rel))
    ∧ (∀ rel, FS.lookup n2 (templatePathOf projectType ++ rel)
              = FS.lookup n1 (templatePathOf projectType ++ rel)).
Proof.
  intros Hfree Hmk Htpl Hin Hfuel.
  assert (Hdest : FS.lookup n1 projectPath = Some (Dir ∅)).
  { eapply mkdirp_fresh; [|done]. by apply exists_false. }
  destruct (copyDirectory_fresh fuel (templatePathOf projectType) projectPath n1 ms
              (stdin w)
              (trace w ++ [LogSuccess ("Created project directory: "
                                         +:+ path_to_string projectPath)]))
    as (n2 & Hrun & Hcopy & Hsame); try done.
  exists n2. split_and!; [|by intros; rewrite Hcopy|done..].
  erewrite bind_Done; [|by apply createProjectDirectory_fresh].
  rewrite copyTemplateFiles_present; [|cbn [fs]; apply exists_true; by rewrite Htpl].
  erewrite bind_Done; [|exact Hrun].
  run. by trace_assoc.
Qed.

(** C3, amended: the exit code is 0 on every run that completes, and a
    run that has reached the installation of the dependencies always
    completes, whatever the package manager and git do.  A non-zero exit
    code is always 1 and occurs only in these cases: the project name is
    empty after trimming, or an exception is thrown in the [try] block (as
    when the destination directory exists). *)
Theorem C3_exit_codes fuel w :
  (∀ w', main fuel w = Done tt w' → exitCode (main fuel w) = Some 0)
  ∧ (∀ config w1, upToInstall fuel w = Done config w1 →
       ∃ w', main fuel w = Done tt w')
  ∧ (∀ c, exitCode (main fuel w) = Some c → c ≠ 0 →
       c = 1
       ∧ ((∃ answer rest, stdin w = answer :: rest ∧ JS.trim answer = EmptyString)
          ∨ (∃ e w', createNewApp_try fuel w = Thrown e w'))).
Proof.
  split_and!.
  - by intros w' ->.
  - intros config w1 Hup.
    destruct (finish_Done (cfg_name config) (projectPathOf (cfg_name config)) w1)
      as (w' & _ & _ & Hfin & _).
    exists w'. apply main_Done. rewrite createNewApp_try_upToInstall.
    by erewrite bind_Done.
  - intros c Hc Hnz.
    destruct (createNewApp_try fuel w) as [[] w'|e w'|c' w'|w'|] eqn:Htry.
    + rewrite (main_Done _ _ _ Htry) in Hc. cbn in Hc. congruence.
    + rewrite (main_Thrown _ _ _ _ Htry) in Hc. cbn in Hc. split; [congruence|eauto].
    + rewrite (main_Exited _ _ _ _ Htry) in Hc. cbn in Hc. inversion Hc; subst c'.
      rewrite createNewApp_try_steps in Htry.
      unfold mbind, M_bind in Htry.
      destruct (collect w) as [config w1|e w1|c1 w1|w1|] eqn:Hcol; try done.
      * exfalso. revert Htry.
        apply (noExit_bind (materialize fuel config) (λ _, finish _ _));
          [apply noExit_materialize|intros _; apply noExit_finish].
      * inversion Htry; subst.
        destruct (collect_Exited_inv _ _ _ Hcol) as [-> Hempty]. by split; [|left].
    + rewrite main_createNewApp in Hc. unfold createNewApp, tryCatch in Hc.
      by rewrite Htry in Hc.
    + rewrite main_createNewApp in Hc. unfold createNewApp, tryCatch in Hc.
      by rewrite Htry in Hc.
Qed.

(** C5, amended: applying the substitution step a second time with the
    same answers leaves every file as the first application left it,
    provided that [JSON.parse] reads the manifest that the first
    application wrote back as the object it was written from, and that no
    token occurs in the README that the first application wrote. *)
Theorem C5_second_application_is_identity projectPath config w w1 :
  updateConfigFiles projectPath config w = Done tt w1 →
  (∀ text v,
     FS.readFile (fs w) (projectPath ++ ["package.json"]) = Some text →
     updatedManifest text config = Some v →
     JSON_parse (JSON_stringify v) = Some v) →
  (∀ readme1,
     FS.readFile (fs w1) (projectPath ++ ["README.md"]) = Some readme1 →
     JS.occurs PROJECT_NAME readme1 = false
     ∧ JS.occurs PROJECT_DESCRIPTION readme1 = false) →
  updateConfigFiles projectPath config w1
  = Done tt {| fs := fs w1; stdin := stdin w1;
               trace := trace w1 ++ [LogSuccess "Updated configuration files"] |}.
Proof.
  intros Hfirst Hjson Htokens.
  apply updateConfigFiles_Done_inv in Hfirst as (wa & wb & Ha & Hb & ->).
  cbn [fs stdin trace] in *.
  set (w1 := {| fs := fs wb; stdin := stdin wb;
                trace := trace wb ++ [LogSuccess "Updated configuration files"] |}).
  assert (Hmanifest : rewriteManifest projectPath config w1 = Done tt w1).
  { pose proof (rewriteReadme_keeps_manifest _ _ _ _ Hb) as Hkeep.
    apply rewriteManifest_Done_inv in Ha as (_ & _ & [[Habs Efs]|(text & v & Hr & Hv & Hput)]).
    - apply rewriteManifest_absent. unfold w1. cbn [fs]. apply exists_false.
      rewrite Hkeep, Efs. by apply exists_false.
    - assert (Hread : FS.readFile (fs wb) (projectPath ++ ["package.json"])
                      = Some (JSON_stringify v)).
      { unfold FS.readFile. rewrite Hkeep. by apply readFile_putFile in Hput. }
      erewrite rewriteManifest_present; [|exact Hread| |by apply putFile_same].
      + reflexivity.
      + apply (updatedManifest_again text); [done|]. by eapply Hjson. }
  assert (Hreadme : rewriteReadme projectPath config w1 = Done tt w1).
  { apply rewriteReadme_Done_inv in Hb as (_ & _ & [[Habs Efs]|(readme & Hr & Hput)]).
    - apply rewriteReadme_absent. unfold w1. cbn [fs]. by rewrite Efs.
    - pose proof (readFile_putFile _ _ _ _ Hput) as Hread.
      destruct (Htokens _ Hread) as [Hn Hd].
      erewrite rewriteReadme_present; [|exact Hread|].
      + reflexivity.
      + unfold updateReadme. rewrite (replaceAll_absent PROJECT_NAME) by done.
        rewrite (replaceAll_absent PROJECT_DESCRIPTION) by done.
        by apply putFile_same. }
  by rewrite (updateConfigFiles_Done _ _ _ _ _ Hmanifest Hreadme).
Qed.


(** C7: if [pnpm install] fails (it exits non-zero or cannot be spawned),
    [npm install] is run exactly once; whether it succeeds or fails, the
    installation step returns, and the run goes on with [git init] and
    ends with the summary and exit code 0.  If [npm install] fails too, a
    warning and a hint are all that is reported. *)
Theorem C7_fallback_package_manager fuel w0 config w :
  upToInstall fuel w0 = Done config w →
  let projectPath := projectPathOf (cfg_name config) in
  (spawn "pnpm install" projectPath (fs w)).1 = false →
  let npm := spawn "npm install" projectPath (spawn "pnpm install" projectPath (fs w)).2 in
  let tried :=
    [LogInfo "Installing dependencies...";
     Exec "pnpm install" projectPath;
     LogWarning "Failed to install dependencies with pnpm, trying npm...";
     Exec "npm install" projectPath] in
  let outcome :=
    if npm.1 then [LogSuccess "Dependencies installed successfully"]
    else [LogWarning "Failed to install dependencies automatically";
          LogInfo ("Please run " +:+ quoted "pnpm install" +:+ " or "
                     +:+ quoted "npm install" +:+ " in your project directory")] in
  let w2 := {| fs := npm.2; stdin := stdin w; trace := trace w ++ tried ++ outcome |} in
  installDependencies projectPath w = Done tt w2
  ∧ execCount "npm install" (trace w2) = S (execCount "npm install" (trace w))
  ∧ ∃ w' gitEvents,
      main fuel w0 = Done tt w'
      ∧ trace w' = trace w2 ++ (Exec "git init" projectPath :: gitEvents)
                     ++ summaryTrace (cfg_name config) projectPath
      ∧ exitCode (main fuel w0) = Some 0.
Proof.
  intros Hup projectPath Hpnpm npm tried outcome w2.
  assert (Hinstall : installDependencies projectPath w = Done tt w2).
  { unfold installDependencies. run. rewrite execSync_run. cbn zeta.
    cbn [fs stdin trace]. rewrite Hpnpm. rewrite execSync_run. cbn zeta.
    cbn [fs stdin trace]. fold npm. unfold w2, outcome, tried.
    destruct npm.1; cbn [fs stdin trace]; by trace_assoc. }
  split_and!; [done|..].
  - unfold w2. cbn [trace]. rewrite !execCount_app.
    unfold outcome. destruct npm.1; cbn; lia.
  - destruct (createInitialCommit_Done projectPath w2) as (w3 & gitEvents & Hgit & _ & Htr).
    assert (Hmain : main fuel w0
      = Done tt {| fs := fs w3; stdin := stdin w3;
                   trace := trace w3 ++ summaryTrace (cfg_name config) projectPath |}).
    { apply main_Done. rewrite createNewApp_try_upToInstall.
      erewrite bind_Done; [|exact Hup]. unfold finish.
      erewrite bind_Done; [|exact Hinstall]. erewrite bind_Done; [|exact Hgit].
      apply displaySuccessMessage_run. }
    eexists _, gitEvents. split_and!; [exact Hmain|..].
    + cbn [trace]. rewrite Htr. by rewrite <- !app_assoc.
    + by rewrite Hmain.
Qed.

(** C8: if the template directory of the chosen type does not exist when
    the copy step looks for it, the step only logs a warning: the project
    directory stays empty, the configuration step finds nothing to
    rewrite, and the run goes on with the installation of the
    dependencies and git and ends with the summary and exit code 0. *)
Theorem C8_missing_template fuel w a1 a2 a3 a4 a5 rest n1 :
  stdin w = a1 :: a2 :: a3 :: a4 :: a5 :: rest →
  JS.trim a1 ≠ EmptyString →
  let projectName := JS.trim a1 in
  let projectPath := projectPathOf projectName in
  let projectType := projectTypeOf a3 in
  FS.exists_ (fs w) projectPath = false →
  FS.mkdirp (fs w) projectPath = Some n1 →
  FS.exists_ n1 (templatePathOf projectType) = false →
  let config := {| cfg_name := projectName;
                   cfg_description := JS.trim a2;
                   cfg_type := projectType;
                   cfg_database := databaseConfigOf a4;
                   cfg_auth := authConfigOf a5 |} in
  let w1 := {| fs := n1; stdin := rest;
               trace := trace w ++ answersTrace
                 ++ [LogSuccess ("Created project directory: "
                                   +:+ path_to_string projectPath);
                     LogWarning ("Template " +:+ projectType
                                   +:+ " not found, using basic template");
                     LogSuccess "Updated configuration files"] |} in
  FS.lookup n1 projectPath = Some (Dir ∅)
  ∧ upToInstall fuel w = Done config w1
  ∧ ∃ w' installEvents gitEvents,
      main fuel w = Done tt w'
      ∧ trace w' = trace w1
          ++ (LogInfo "Installing dependencies..."
                :: Exec "pnpm install" projectPath :: installEvents)
          ++ (Exec "git init" projectPath :: gitEvents)
          ++ summaryTrace projectName projectPath
      ∧ exitCode (main fuel w) = Some 0.
Proof.
  intros Hin Hname projectName projectPath projectType Hfree Hmk Hmiss config w1.
  assert (Hdest : FS.lookup n1 projectPath = Some (Dir ∅)).
  { eapply mkdirp_fresh; [|done]. by apply exists_false. }
  assert (Hchild : ∀ x, FS.exists_ n1 (projectPath ++ [x]) = false).
  { intros x. apply exists_false. rewrite lookup_app, Hdest. cbn.
    by rewrite lookup_empty. }
  assert (Hup : upToInstall fuel w = Done config w1).
  { unfold upToInstall.
    erewrite bind_Done; [|by apply collect_run].
    erewrite bind_Done; [reflexivity|].
    unfold materialize. cbn [cfg_name cfg_type]. fold projectPath.
    erewrite bind_Done; [|by apply createProjectDirectory_fresh].
    erewrite bind_Done; [|by apply copyTemplateFiles_missing].
    rewrite updateConfigFiles_absent by apply Hchild.
    cbn [fs stdin trace]. unfold w1. by trace_assoc. }
  split_and!; [done..|].
  destruct (finish_Done projectName projectPath w1)
    as (w' & installEvents & gitEvents & Hfin & _ & Htr).
  assert (Hmain : main fuel w = Done tt w').
  { apply main_Done. rewrite createNewApp_try_upToInstall.
    erewrite bind_Done; [|exact Hup]. exact Hfin. }
  exists w', installEvents, gitEvents. split_and!; [done..|]. by rewrite Hmain.
Qed.

(** C9: if the answer to the question for the project name is empty
    after trimming, the process exits with code 1 right after that
    question: no further question is asked and no further line of input is
    read, no command is spawned, and the file system is unchanged. *)
Theorem C9_empty_name_exits fuel w answer rest :
  stdin w = answer :: rest →
  JS.trim answer = EmptyString →
  main fuel w
  = Exited 1 {| fs := fs w; stdin := rest;
                trace := trace w ++ bannerTrace
                           ++ [nameQuestion; LogError "Project name is required"] |}
  ∧ exitCode (main fuel w) = Some 1.
Proof.
  intros Hin Hname.
  assert (Hmain : main fuel w
    = Exited 1 {| fs := fs w; stdin := rest;
                  trace := trace w ++ bannerTrace
                             ++ [nameQuestion; LogError "Project name is required"] |}).
  { apply main_Exited. rewrite createNewApp_try_steps.
    apply bind_Exited. by eapply collect_empty_name. }
  split; [done|]. by rewrite Hmain.
Qed.
(** C10, amended: when the configuration step rewrites a [package.json]
    that is there, the file it leaves is the serialisation of the parsed
    manifest with the two fields assigned.  Provided that [JSON.parse]
    reads that serialisation back as the object it was written from, every
    other key of the file that is left has, as [JSON.parse] reads it, the
    value that [JSON.parse] read from the file of the template.  For a
    manifest that is an object the rewriting does take place. *)
Theorem C10_other_fields_kept projectPath config w text v :
  FS.readFile (fs w) (projectPath ++ ["package.json"]) = Some text →
  JSON_parse text = Some v →
  (∀ v', updatedManifest text config = Some v' →
         JSON_parse (JSON_stringify v') = Some v') →
  (∀ w', updateConfigFiles projectPath config w = Done tt w' →
     ∃ written v',
       FS.readFile (fs w') (projectPath ++ ["package.json"]) = Some written
       ∧ updatedManifest text config = Some v'
       ∧ written = JSON_stringify v'
       ∧ JSON_parse written = Some v'
       ∧ otherFieldsKept v v')
  ∧ (∀ props, v = JObj props →
       ∃ w1 written props',
         rewriteManifest projectPath config w = Done tt w1
         ∧ FS.readFile (fs w1) (projectPath ++ ["package.json"]) = Some written
         ∧ JSON_parse written = Some (JObj props')
         ∧ getProp "name" props' = Some (JStr (cfg_name config))
         ∧ getProp "description" props' = Some (JStr (cfg_description config))
         ∧ otherFieldsKept v (JObj props')).
Proof.
  intros Hread Hparse Hback. split.
  - intros w' Hrun.
    apply updateConfigFiles_Done_inv in Hrun as (w1 & w2 & H1 & H2 & ->). cbn [fs].
    pose proof (rewriteReadme_keeps_manifest _ _ _ _ H2) as Hkeep.
    apply rewriteManifest_Done_inv in H1
      as (_ & _ & [[Habs _]|(text' & v' & Hr & Hv & Hput)]).
    + apply exists_false in Habs. unfold FS.readFile in Hread. by rewrite Habs in Hread.
    + rewrite Hread in Hr. inversion Hr; subst text'.
      exists (JSON_stringify v'), v'. split_and!; [|done|done|by apply Hback|].
      * unfold FS.readFile. rewrite Hkeep. by apply readFile_putFile in Hput.
      * by eapply updatedManifest_kept.
  - intros props ->.
    set (props' := setProp "description" (JStr (cfg_description config))
                     (setProp "name" (JStr (cfg_name config)) props)).
    assert (Hv : updatedManifest text config = Some (JObj props'))
      by (unfold updatedManifest; by rewrite Hparse).
    destruct (putFile_over_file projectPath "package.json" (fs w) text
                (JSON_stringify (JObj props')) Hread) as [n1 Hput].
    exists {| fs := n1; stdin := stdin w; trace := trace w |},
      (JSON_stringify (JObj props')), props'.
    split_and!.
    + by eapply rewriteManifest_present.
    + by apply readFile_putFile in Hput.
    + by apply Hback.
    + unfold props'. rewrite getProp_setProp_ne; [|done]. apply getProp_setProp_eq.
    + apply getProp_setProp_eq.
    + by eapply updatedManifest_kept.
Qed.

(** * Further properties of the script *)

(** ** How a run ends *)

Lemma final_bind {A B} (m : M A) (f : A → M B) w w' :
  finalWorld ((m ≫= f) w) = Some w' →
  (∃ a w1, m w = Done a w1 ∧ finalWorld (f a w1) = Some w')
  ∨ (finalWorld (m w) = Some w' ∧ ∀ a w1, m w ≠ Done a w1).
Proof.
  unfold mbind, M_bind. destruct (m w) as [a w1|e w1|c w1|w1|] eqn:E; intros H;
    [left; by exists a, w1|right; split; [done|by intros ? ?]..].
Qed.

Lemma final_tryCatch {A} (m : M A) (h : error → M A) w w' :
  finalWorld (tryCatch m h w) = Some w' →
  (∃ e w1, m w = Thrown e w1 ∧ finalWorld (h e w1) = Some w')
  ∨ (finalWorld (m w) = Some w' ∧ ∀ e w1, m w ≠ Thrown e w1).
Proof.
  unfold tryCatch. destruct (m w) as [a w1|e w1|c w1|w1|] eqn:E; intros H;
    [|left; by exists e, w1|..]; right; split; try done; by intros ? ?.
Qed.

#[local] Instance sameFiles_preorder : PreOrder sameFiles.
Proof. split; [done|]. unfold sameFiles. intros w1 w2 w3 H1 H2. congruence. Qed.

#[local] Instance sameInput_preorder : PreOrder sameInput.
Proof. split; [done|]. unfold sameInput. intros w1 w2 w3 H1 H2. congruence. Qed.

#[local] Instance sameTrace_preorder : PreOrder sameTrace.
Proof. split; [done|]. unfold sameTrace. intros w1 w2 w3 H1 H2. congruence. Qed.

#[local] Instance unchangedAt_preorder S : PreOrder (unchangedAt S).
Proof.
  split; [done|]. intros w1 w2 w3 H1 H2 q Hq. by rewrite H2, H1.
Qed.

#[local] Instance keepsDirectories_preorder : PreOrder keepsDirectories.
Proof. split; [by intros w p Hp|]. intros w1 w2 w3 H1 H2 p Hp. by apply H2, H1. Qed.

#[local] Instance emits_preorder P : PreOrder (emits P).
Proof.
  split.
  - intros w. exists []. by rewrite app_nil_r.
  - intros w1 w2 w3 (ev1 & H1 & HP1) (ev2 & H2 & HP2).
    exists (ev1 ++ ev2). split; [by rewrite H2, H1, app_assoc|].
    by apply Forall_app.
Qed.

Lemma emits_mono (P Q : event → Prop) w w' :
  (∀ e, P e → Q e) → emits P w w' → emits Q w w'.
Proof. intros HPQ (ev & H & HP). exists ev. split; [done|]. eapply Forall_impl; eauto. Qed.

Section Respects.

Context (R : relation world) `{!PreOrder R}.

Lemma respectsAt_bind {A B} (m : M A) (f : A → M B) w :
  respectsAt R m w →
  (∀ a w1, m w = Done a w1 → respectsAt R (f a) w1) →
  respectsAt R (m ≫= f) w.
Proof.
  intros Hm Hf w' H. apply final_bind in H as [(a & w1 & Hd & H)|[H _]].
  - transitivity w1; [apply Hm; by rewrite Hd|by eapply Hf].
  - by apply Hm.
Qed.

Lemma respectsAt_tryCatch {A} (m : M A) (h : error → M A) w :
  respectsAt R m w →
  (∀ e w1, m w = Thrown e w1 → respectsAt R (h e) w1) →
  respectsAt R (tryCatch m h) w.
Proof.
  intros Hm Hh w' H. apply final_tryCatch in H as [(e & w1 & Hd & H)|[H _]].
  - transitivity w1; [apply Hm; by rewrite Hd|by eapply Hh].
  - by apply Hm.
Qed.

Lemma respects_bind {A B} (m : M A) (f : A → M B) :
  respects R m → (∀ a, respects R (f a)) → respects R (m ≫= f).
Proof. intros Hm Hf w. apply respectsAt_bind; [apply Hm|]. intros a w1 _. apply Hf. Qed.

Lemma respects_tryCatch {A} (m : M A) (h : error → M A) :
  respects R m → (∀ e, respects R (h e)) → respects R (tryCatch m h).
Proof. intros Hm Hh w. apply respectsAt_tryCatch; [apply Hm|]. intros e w1 _. apply Hh. Qed.

Lemma respects_if {A} (b : bool) (m1 m2 : M A) :
  respects R m1 → respects R m2 → respects R (if b then m1 else m2).
Proof. by destruct b. Qed.

Lemma respects_mret {A} (a : A) : respects R (mret a).
Proof. intros w w' [= <-]. reflexivity. Qed.

Lemma respects_throw {A} e : respects R (throw e : M A).
Proof. intros w w' [= <-]. reflexivity. Qed.

Lemma respects_orThrow {A} (o : option A) e : respects R (orThrow o e).
Proof. intros w w'. unfold orThrow. destruct o; intros [= <-]; reflexivity. Qed.

Lemma respects_process_exit {A} c : respects R (process_exit c : M A).
Proof. intros w w' [= <-]. reflexivity. Qed.

Lemma respects_existsSync p : respects R (existsSync p).
Proof. intros w w' [= <-]. reflexivity. Qed.

Lemma respects_readdirSync p : respects R (readdirSync p).
Proof. intros w w'. unfold readdirSync. destruct FS.readdir; intros [= <-]; reflexivity. Qed.

Lemma respects_readFileSync p : respects R (readFileSync p).
Proof. intros w w'. unfold readFileSync. destruct FS.readFile; intros [= <-]; reflexivity. Qed.

Lemma respects_forOf {A} (l : list A) (body : A → M unit) :
  (∀ x, respects R (body x)) → respects R (forOf l body).
Proof.
  intros Hbody. induction l as [|x l IH]; [apply respects_mret|].
  apply respects_bind; [apply Hbody|]. intros _. apply IH.
Qed.

Lemma respects_emit e :
  (∀ w, R w {| fs := fs w; stdin := stdin w; trace := trace w ++ [e] |}) →
  respects R (emit e).
Proof. intros H w w' [= <-]. apply H. Qed.

Lemma respects_question q :
  (∀ w rest, R w {| fs := fs w; stdin := rest; trace := trace w ++ [Question q] |}) →
  respects R (question q).
Proof. intros H w w'. unfold question. destruct (stdin w); intros [= <-]; apply H. Qed.

Lemma respects_liftFs syscall p f :
  (∀ w n, f (fs w) = Some n → R w {| fs := n; stdin := stdin w; trace := trace w |}) →
  respects R (liftFs syscall p f).
Proof.
  intros H w w'. unfold liftFs. destruct (f (fs w)) eqn:Hf; intros [= <-];
    [by apply H|reflexivity].
Qed.

Lemma respects_execSync cmd dir :
  (∀ w n, R w {| fs := n; stdin := stdin w; trace := trace w ++ [Exec cmd dir] |}) →
  respects R (execSync cmd dir).
Proof.
  intros H w w'. rewrite execSync_run. cbn zeta.
  destruct (spawn cmd dir (fs w)) as [[] n]; intros [= <-]; apply H.
Qed.

End Respects.

Lemma respects_mono {A} (R R' : relation world) (m : M A) :
  (∀ w w', R w w' → R' w w') → respects R m → respects R' m.
Proof. intros HR Hm w w' H. by apply HR, Hm. Qed.

(** The steps of a run, once more, for a relation that they keep. *)
Ltac respect tac :=
  repeat lazymatch goal with
  | |- respects _ (_ ≫= _) => apply respects_bind; [apply _| |intros ?]
  | |- respects _ (tryCatch _ _) => apply respects_tryCatch; [apply _| |intros ?]
  | |- respects _ (if _ then _ else _) => apply respects_if
  | |- respects _ (forOf _ _) => apply respects_forOf; [apply _|intros ?]
  | |- respects _ (mret _) => apply respects_mret; apply _
  | |- respects _ (throw _) => apply respects_throw; apply _
  | |- respects _ (orThrow _ _) => apply respects_orThrow; apply _
  | |- respects _ (process_exit _) => apply respects_process_exit; apply _
  | |- respects _ (existsSync _) => apply respects_existsSync; apply _
  | |- respects _ (readdirSync _) => apply respects_readdirSync; apply _
  | |- respects _ (readFileSync _) => apply respects_readFileSync; apply _
  | |- respects _ (emit _) => apply respects_emit; tac
  | |- respects _ (question _) => apply respects_question; tac
  | |- respects _ (liftFs _ _ _) => apply respects_liftFs; [apply _|tac]
  | |- respects _ (execSync _ _) => apply respects_execSync; tac
  | |- respects _ (log _ _) => unfold log
  | |- respects _ (logError _) => unfold logError
  | |- respects _ (logSuccess _) => unfold logSuccess
  | |- respects _ (logInfo _) => unfold logInfo
  | |- respects _ (logWarning _) => unfold logWarning
  | |- respects _ console_log => unfold console_log
  | |- respects _ (mkdirSync _) => unfold mkdirSync
  | |- respects _ (writeFileSync _ _) => unfold writeFileSync
  | |- respects _ (copyFileSync _ _) => unfold copyFileSync
  end.

(** ** The file system *)

Lemma diverge_prefix r p q : diverge p q → diverge (r ++ p) (r ++ q).
Proof. intros H. induction r; [done|]. by apply diverge_below. Qed.

Lemma diverge_app_l p q s : diverge p q → diverge (p ++ s) q.
Proof. intros H. by apply diverge_sym, diverge_app_r, diverge_sym. Qed.

Lemma mkdirp_diverge p : ∀ n n' q,
  FS.mkdirp n p = Some n' → diverge p q → FS.lookup n' q = FS.lookup n q.
Proof.
  induction p as [|x p IH]; intros n n' q Hmk Hd; [inversion Hd|].
  apply mkdirp_Some_inv in Hmk as (m & c' & -> & Hc & ->).
  inversion Hd as [x' y p' q' Hne|x' p' q' Hd']; subst; cbn [FS.lookup].
  - by rewrite lookup_insert_ne.
  - rewrite lookup_insert_eq. cbn [mbind option_bind].
    rewrite (IH _ _ _ Hc Hd').
    destruct (m !! x) as [c|]; cbn [default mbind option_bind]; [done|].
    destruct q' as [|y q']; [inversion Hd'|]. cbn [FS.lookup]. by rewrite lookup_empty.
Qed.

Lemma lookup_through_file n pre d r :
  FS.lookup n pre = Some (File d) → r ≠ [] → FS.lookup n (pre ++ r) = None.
Proof. intros H Hr. rewrite lookup_app, H. by destruct r. Qed.

Lemma mkdirp_through_file pre : ∀ n d r,
  FS.lookup n pre = Some (File d) → FS.mkdirp n (pre ++ r) = None.
Proof.
  induction pre as [|x pre IH]; intros n d r H.
  - cbn in H. injection H as ->. by destruct r.
  - destruct n as [d'|m]; [done|]. cbn [FS.lookup] in H.
    destruct (m !! x) as [c|] eqn:Ex; [|done]. cbn [mbind option_bind] in H.
    cbn [app FS.mkdirp]. rewrite Ex. cbn [default].
    by rewrite (IH _ _ _ H).
Qed.

Lemma lookup_prefix_is_Some n p r : is_Some (FS.lookup n (p ++ r)) → is_Some (FS.lookup n p).
Proof. rewrite lookup_app. destruct (FS.lookup n p); [by eexists|]. by intros [? ?]. Qed.

(** ** The project directory *)

Lemma createProjectDirectory_blocked projectPath w :
  FS.exists_ (fs w) projectPath = false →
  FS.mkdirp (fs w) projectPath = None →
  createProjectDirectory projectPath w = Thrown (FsError "mkdir" projectPath) w.
Proof.
  intros H Hm. unfold createProjectDirectory, mkdirSync, liftFs. run. by rewrite H, Hm.
Qed.

Lemma createProjectDirectory_Done_inv projectPath w w' :
  createProjectDirectory projectPath w = Done tt w' →
  FS.exists_ (fs w) projectPath = false
  ∧ FS.mkdirp (fs w) projectPath = Some (fs w')
  ∧ stdin w' = stdin w
  ∧ trace w' = trace w ++ [LogSuccess ("Created project directory: "
                                         +:+ path_to_string projectPath)].
Proof.
  intros H. destruct (FS.exists_ (fs w) projectPath) eqn:Hex.
  - by rewrite createProjectDirectory_exists in H.
  - destruct (FS.mkdirp (fs w) projectPath) as [n'|] eqn:Hmk.
    + rewrite (createProjectDirectory_fresh _ _ n') in H by done. by inversion H.
    + by rewrite createProjectDirectory_blocked in H.
Qed.

(** X1: when [createProjectDirectory] returns, the project path is an empty
    directory, every path on the way to it is a directory, and every other
    path of the file system is as it was before. *)
Theorem createProjectDirectory_adds_one_directory projectPath w w' :
  createProjectDirectory projectPath w = Done tt w' →
  FS.lookup (fs w') projectPath = Some (Dir ∅)
  ∧ (∀ q r, projectPath = q ++ r → dirAt (fs w') q)
  ∧ (∀ q, (∀ r, projectPath ≠ q ++ r) → FS.lookup (fs w') q = FS.lookup (fs w) q).
Proof.
  intros H. apply createProjectDirectory_Done_inv in H as (Hex & Hmk & _ & _).
  apply exists_false in Hex.
  assert (Hnew : FS.lookup (fs w') projectPath = Some (Dir ∅)) by by eapply mkdirp_fresh.
  split_and!; [done| |].
  - intros q r ->. apply mkdirp_dirAt in Hmk as [m Hm].
    rewrite lookup_app in Hm. destruct (FS.lookup (fs w') q) as [[d|mq]|] eqn:Hq; [|by eexists|done].
    by destruct r.
  - intros q Hq.
    destruct (path_cases projectPath q) as [->|[(r & Hr & ->)|[(r & Hr & ->)|Hd]]].
    + by destruct (Hq []); rewrite app_nil_r.
    + rewrite !lookup_app, Hnew, Hex. destruct r as [|x r]; [done|].
      cbn [mbind option_bind FS.lookup]. by rewrite lookup_empty.
    + by destruct (Hq r).
    + by eapply mkdirp_diverge.
Qed.

(** X2: a file on the way to the project path stops the run at the
    creation of the directory: [mkdirSync] throws, the process exits with
    code 1, and the file system is unchanged. *)
Theorem file_on_the_way_to_project fuel w a1 a2 a3 a4 a5 rest pre r d :
  stdin w = a1 :: a2 :: a3 :: a4 :: a5 :: rest →
  JS.trim a1 ≠ EmptyString →
  projectPathOf (JS.trim a1) = pre ++ r →
  r ≠ [] →
  FS.lookup (fs w) pre = Some (File d) →
  createNewApp_try fuel w
  = Thrown (FsError "mkdir" (projectPathOf (JS.trim a1)))
      {| fs := fs w; stdin := rest; trace := trace w ++ answersTrace |}
  ∧ ∃ w', main fuel w = Exited 1 w' ∧ fs w' = fs w ∧ stdin w' = rest.
Proof.
  intros Hin Hname Hpath Hr Hfile.
  assert (Htry : createNewApp_try fuel w
                 = Thrown (FsError "mkdir" (projectPathOf (JS.trim a1)))
                     {| fs := fs w; stdin := rest; trace := trace w ++ answersTrace |}).
  { rewrite createNewApp_try_steps.
    erewrite bind_Done; [|by apply collect_run].
    apply bind_Thrown. unfold materialize. apply bind_Thrown. cbn [cfg_name].
    apply createProjectDirectory_blocked; cbn [fs]; rewrite Hpath.
    - apply exists_false. by eapply lookup_through_file.
    - by eapply mkdirp_through_file. }
  split; [done|].
  eexists. split; [by apply main_Thrown|]. done.
Qed.

(** ** The copy of the template *)

Lemma copyDirectory_not_a_directory fuel src dest w :
  (∀ m, FS.lookup (fs w) src ≠ Some (Dir m)) →
  copyDirectory (S fuel) src dest w = Thrown (FsError "scandir" src) w.
Proof.
  intros H. cbn [copyDirectory]. apply bind_Thrown. unfold readdirSync, FS.readdir.
  destruct (FS.lookup (fs w) src) as [[d|m]|]; [done| |done]. by destruct (H m).
Qed.

(** X3: if the template path exists but is a file, the copy step throws
    when it lists it: the process exits with code 1, and the empty project
    directory that the run has made stays behind. *)
Theorem template_that_is_a_file fuel w a1 a2 a3 a4 a5 rest n1 d :
  stdin w = a1 :: a2 :: a3 :: a4 :: a5 :: rest →
  JS.trim a1 ≠ EmptyString →
  let projectPath := projectPathOf (JS.trim a1) in
  let templatePath := templatePathOf (projectTypeOf a3) in
  FS.exists_ (fs w) projectPath = false →
  FS.mkdirp (fs w) projectPath = Some n1 →
  FS.lookup n1 templatePath = Some (File d) →
  createNewApp_try (S fuel) w
  = Thrown (FsError "scandir" templatePath)
      {| fs := n1; stdin := rest;
         trace := trace w ++ answersTrace
                    ++ [LogSuccess ("Created project directory: "
                                      +:+ path_to_string projectPath)] |}
  ∧ FS.lookup n1 projectPath = Some (Dir ∅)
  ∧ ∃ w', main (S fuel) w = Exited 1 w' ∧ fs w' = n1.
Proof.
  intros Hin Hname projectPath templatePath Hfree Hmk Htpl.
  assert (Htry : createNewApp_try (S fuel) w
                 = Thrown (FsError "scandir" templatePath)
                     {| fs := n1; stdin := rest;
                        trace := trace w ++ answersTrace
                          ++ [LogSuccess ("Created project directory: "
                                            +:+ path_to_string projectPath)] |}).
  { rewrite createNewApp_try_steps.
    erewrite bind_Done; [|by apply collect_run].
    apply bind_Thrown. unfold materialize. cbn [cfg_name cfg_type].
    fold projectPath templatePath.
    erewrite bind_Done; [|by apply createProjectDirectory_fresh].
    apply bind_Thrown.
    rewrite copyTemplateFiles_present;
      [|cbn [fs]; apply exists_true; exists (File d); exact Htpl].
    apply bind_Thrown. cbn [fs stdin trace]. rewrite <- app_assoc.
    apply copyDirectory_not_a_directory. cbn [fs]. intros m Hm.
    change (FS.lookup n1 templatePath = Some (Dir m)) in Hm. congruence. }
  split_and!; [done| |].
  - eapply mkdirp_fresh; [|done]. by apply exists_false.
  - eexists. split; [by apply main_Thrown|]. done.
Qed.

Section CopyRespects.

Context (R : relation world) `{!PreOrder R}.

(** A relation between worlds that does not look at the files is kept by
    the copy. *)
Lemma respects_copyDirectory_console fuel : ∀ src dest,
  (∀ w n, R w {| fs := n; stdin := stdin w; trace := trace w |}) →
  respects R (copyDirectory fuel src dest).
Proof.
  induction fuel as [|fuel IH]; intros src dest HR; [by intros w w' [=]|].
  cbn [copyDirectory]. unfold mkdirSync, copyFileSync.
  respect ltac:(intros; apply HR). by apply IH.
Qed.

End CopyRespects.

Lemma copyDirectory_outside fuel : ∀ src dest,
  respects (unchangedAt (diverge dest)) (copyDirectory fuel src dest).
Proof.
  induction fuel as [|fuel IH]; intros src dest; [by intros w w' [=]|].
  cbn [copyDirectory]. apply respects_bind; [apply _|apply respects_readdirSync; apply _|].
  intros entries. apply respects_forOf; [apply _|]. intros entry.
  destruct (isDirectory entry).
  - apply respects_bind; [apply _| |].
    + apply respects_liftFs; [apply _|]. intros w n Hmk q Hq. cbn [fs].
      eapply mkdirp_diverge; [exact Hmk|]. by apply diverge_app_l.
    + intros _. eapply respects_mono; [|apply IH].
      intros w w' H q Hq. apply H. by apply diverge_app_l.
  - apply respects_liftFs; [apply _|]. intros w n Hf q Hq. cbn [fs].
    destruct (FS.readFile (fs w) (joinEntry src entry)) as [data|]; [|done].
    cbn [mbind option_bind] in Hf.
    eapply lookup_putFile_diverge; [exact Hf|]. by apply diverge_app_l.
Qed.

Lemma copyDirectory_keeps fuel : ∀ src dest,
  respects keepsDirectories (copyDirectory fuel src dest).
Proof.
  induction fuel as [|fuel IH]; intros src dest; [by intros w w' [=]|].
  cbn [copyDirectory]. apply respects_bind; [apply _|apply respects_readdirSync; apply _|].
  intros entries. apply respects_forOf; [apply _|]. intros entry.
  destruct (isDirectory entry).
  - apply respects_bind; [apply _| |by intros _].
    apply respects_liftFs; [apply _|]. intros w n Hmk p Hp. cbn [fs].
    by eapply mkdirp_preserves.
  - apply respects_liftFs; [apply _|]. intros w n Hf p Hp. cbn [fs].
    destruct (FS.readFile (fs w) (joinEntry src entry)) as [data|]; [|done].
    cbn [mbind option_bind] in Hf. by eapply putFile_preserves.
Qed.

(** X4: however [copyDirectory] ends, it has written only below its
    destination: every path that parts from the destination holds what it
    held before.  It reads no input and logs nothing. *)
Theorem copyDirectory_writes_below_dest fuel src dest w w' :
  finalWorld (copyDirectory fuel src dest w) = Some w' →
  stdin w' = stdin w
  ∧ trace w' = trace w
  ∧ ∀ q, diverge dest q → FS.lookup (fs w') q = FS.lookup (fs w) q.
Proof.
  intros H. split_and!.
  - by apply (respects_copyDirectory_console sameInput fuel src dest) in H.
  - by apply (respects_copyDirectory_console sameTrace fuel src dest) in H.
  - by apply copyDirectory_outside in H.
Qed.

(** X5: however [copyDirectory] ends, every directory that was there is
    still a directory: it removes nothing, and a file of the template never
    takes the place of a directory of the destination. *)
Theorem copyDirectory_keeps_directories fuel src dest w w' p :
  finalWorld (copyDirectory fuel src dest w) = Some w' →
  dirAt (fs w) p → dirAt (fs w') p.
Proof. intros H Hp. apply copyDirectory_keeps in H. by apply H. Qed.

(** X6: a run whose project path lies inside the template directory of the
    chosen type never completes, whatever the fuel: the copy finds the
    project directory among the entries of the template and goes on
    copying it into itself. *)
Theorem project_inside_template_never_completes fuel w a1 a2 a3 a4 a5 rest w' :
  stdin w = a1 :: a2 :: a3 :: a4 :: a5 :: rest →
  inside (templatePathOf (projectTypeOf a3)) (projectPathOf (JS.trim a1)) →
  main fuel w ≠ Done tt w'.
Proof.
  intros Hin (r & Hr & Hpath) H.
  apply main_Done_inv in H. rewrite createNewApp_try_steps in H.
  apply bind_Done_inv in H as (config & w0 & Hc & H).
  destruct (decide (JS.trim a1 = EmptyString)) as [Hname|Hname].
  { by rewrite (collect_empty_name _ _ _ Hin Hname) in Hc. }
  rewrite (collect_run _ _ _ _ _ _ _ Hin Hname) in Hc. inversion Hc; subst config w0.
  clear Hc. apply bind_Done_inv in H as ([] & w1 & H & _).
  unfold materialize in H. cbn [cfg_name cfg_type] in H.
  apply bind_Done_inv in H as ([] & wa & Hmk & H).
  apply bind_Done_inv in H as ([] & wb & Hcopy & _).
  apply createProjectDirectory_Done_inv in Hmk as (_ & Hmk & _ & _).
  apply mkdirp_dirAt in Hmk. rewrite Hpath in Hmk, Hcopy.
  rewrite copyTemplateFiles_present in Hcopy.
  - apply bind_Done_inv in Hcopy as ([] & wc & Hcopy & _).
    by apply copyDirectory_into_itself in Hcopy.
  - apply exists_true. destruct Hmk as [m Hm]. eapply lookup_prefix_is_Some. by rewrite Hm.
Qed.

(** ** What the steps leave alone *)

Lemma emits_one P e w n i :
  P e → emits P w {| fs := n; stdin := i; trace := trace w ++ [e] |}.
Proof. intros He. exists [e]. split; [done|]. by constructor. Qed.

Lemma emits_none P w n i : emits P w {| fs := n; stdin := i; trace := trace w |}.
Proof. exists []. split; [by rewrite app_nil_r|]. constructor. Qed.

Ltac only_logs := first [ by intros; apply emits_one | by intros; apply emits_none ].

Lemma collect_sameFiles : respects sameFiles collect.
Proof.
  unfold collect, getProjectName, getProjectDescription, getProjectType,
    getDatabaseConfig, getAuthConfig.
  respect ltac:(by intros).
Qed.

Lemma collect_noSpawn : respects (emits noSpawn) collect.
Proof.
  unfold collect, getProjectName, getProjectDescription, getProjectType,
    getDatabaseConfig, getAuthConfig.
  respect only_logs.
Qed.

Lemma materialize_sameInput fuel config : respects sameInput (materialize fuel config).
Proof.
  unfold materialize, createProjectDirectory, copyTemplateFiles, updateConfigFiles,
    updatePackageJson, mkdirSync, writeFileSync. cbn zeta.
  respect ltac:(by intros). by apply respects_copyDirectory_console; [apply _|].
Qed.

Lemma materialize_noSpawn fuel config : respects (emits noSpawn) (materialize fuel config).
Proof.
  unfold materialize, createProjectDirectory, copyTemplateFiles, updateConfigFiles,
    updatePackageJson, mkdirSync, writeFileSync. cbn zeta.
  respect only_logs. apply respects_copyDirectory_console; [apply _|]. only_logs.
Qed.

Lemma materialize_outside fuel config :
  respects (unchangedAt (diverge (projectPathOf (cfg_name config)))) (materialize fuel config).
Proof.
  unfold materialize, createProjectDirectory, copyTemplateFiles, updateConfigFiles,
    updatePackageJson, mkdirSync, writeFileSync. cbn zeta.
  destruct (path_join_entry (projectPathOf (cfg_name config))) as [-> ->].
  respect ltac:(first
    [ by intros
    | intros w n Hmk q Hq; cbn [fs]; by eapply mkdirp_diverge
    | intros w n Hput q Hq; cbn [fs];
      eapply lookup_putFile_diverge; [exact Hput|by apply diverge_app_l] ]).
  apply copyDirectory_outside.
Qed.

(** X7: however the steps that write the project end (directory, copy of
    the template, configuration), they have written only below the project
    path: every path that parts from it holds what it held before.  So a
    template that lies neither inside nor above the project directory is
    left as it was; a template that contains the project directory is not:
    the project directory is made in it.  The steps read no input and
    spawn no command. *)
Theorem materialize_writes_below_project fuel config w w' :
  finalWorld (materialize fuel config w) = Some w' →
  stdin w' = stdin w
  ∧ (∃ events, trace w' = trace w ++ events ∧ Forall (λ e, isSpawn e = false) events)
  ∧ (∀ q, diverge (projectPathOf (cfg_name config)) q →
          FS.lookup (fs w') q = FS.lookup (fs w) q)
  ∧ (diverge (projectPathOf (cfg_name config)) (templatePathOf (cfg_type config)) →
     ∀ rel, FS.lookup (fs w') (templatePathOf (cfg_type config) ++ rel)
            = FS.lookup (fs w) (templatePathOf (cfg_type config) ++ rel)).
Proof.
  intros H.
  assert (Hout : ∀ q, diverge (projectPathOf (cfg_name config)) q →
                      FS.lookup (fs w') q = FS.lookup (fs w) q)
    by by apply materialize_outside in H.
  split_and!.
  - by apply materialize_sameInput in H.
  - by apply materialize_noSpawn in H.
  - exact Hout.
  - intros Hd rel. apply Hout. by apply diverge_app_r.
Qed.

(** X8: however the configuration step ends, also when it throws half-way,
    it has changed no path other than [package.json] and [README.md] of the
    project directory. *)
Theorem updateConfigFiles_touches_two_files projectPath config w w' q :
  finalWorld (updateConfigFiles projectPath config w) = Some w' →
  diverge (projectPath ++ ["package.json"]) q →
  diverge (projectPath ++ ["README.md"]) q →
  FS.lookup (fs w') q = FS.lookup (fs w) q.
Proof.
  intros H Hp Hr.
  assert (Hout : respects
            (unchangedAt (λ q, diverge (projectPath ++ ["package.json"]) q
                               ∧ diverge (projectPath ++ ["README.md"]) q))
            (updateConfigFiles projectPath config)).
  { unfold updateConfigFiles, updatePackageJson, writeFileSync. cbn zeta.
    destruct (path_join_entry projectPath) as [-> ->].
    respect ltac:(first
      [ by intros
      | intros w1 n Hput q1 [Hq1 Hq2]; cbn [fs]; by eapply lookup_putFile_diverge ]). }
  apply Hout in H. by apply H.
Qed.

(** ** The configuration step *)

Lemma readFile_lookup n p text :
  FS.readFile n p = Some text ↔ FS.lookup n p = Some (File text).
Proof.
  unfold FS.readFile. destruct (FS.lookup n p) as [[d|m]|]; split; intros H;
    by inversion H.
Qed.

Lemma updatedManifest_is_Some text config :
  is_Some (updatedManifest text config) ↔ ∃ v, JSON_parse text = Some v ∧ v ≠ JNull.
Proof.
  unfold updatedManifest. destruct (JSON_parse text) as [v|]; cbn.
  - split.
    + intros Hs. exists v. split; [done|]. intros ->. by destruct Hs.
    + intros (v' & [= <-] & Hv). destruct v; try done; by eexists.
  - split; [by intros [? ?]|by intros (? & ? & ?)].
Qed.

Lemma rewriteManifest_keeps_readme projectPath config w w' :
  rewriteManifest projectPath config w = Done tt w' →
  FS.lookup (fs w') (projectPath ++ ["README.md"])
  = FS.lookup (fs w) (projectPath ++ ["README.md"]).
Proof.
  intros H. apply rewriteManifest_Done_inv in H
    as (_ & _ & [[_ ->]|(text & v & _ & _ & Hput)]); [done|].
  eapply lookup_putFile_diverge; [exact Hput|]. by apply diverge_siblings.
Qed.

(** When the configuration step returns. *)
Lemma updateConfigFiles_total projectPath config w :
  match FS.lookup (fs w) (projectPath ++ ["package.json"]) with
  | None => True
  | Some (File text) => ∃ v, JSON_parse text = Some v ∧ v ≠ JNull
  | Some (Dir _) => False
  end →
  (∀ m, FS.lookup (fs w) (projectPath ++ ["README.md"]) ≠ Some (Dir m)) →
  ∃ w', updateConfigFiles projectPath config w = Done tt w'.
Proof.
  intros Hm Hr.
  assert (∃ w1, rewriteManifest projectPath config w = Done tt w1) as [w1 H1].
  { destruct (FS.lookup (fs w) (projectPath ++ ["package.json"])) as [[text|m]|] eqn:Hl;
      [|done|].
    - apply (proj2 (updatedManifest_is_Some text config)) in Hm as [v Hv].
      apply readFile_lookup in Hl.
      destruct (putFile_over_file projectPath "package.json" (fs w) text
                  (JSON_stringify v) Hl) as [n1 Hput].
      eexists. by eapply rewriteManifest_present.
    - exists w. apply rewriteManifest_absent. by apply exists_false. }
  pose proof (rewriteManifest_keeps_readme _ _ _ _ H1) as Hkeep.
  assert (∃ w2, rewriteReadme projectPath config w1 = Done tt w2) as [w2 H2].
  { destruct (FS.lookup (fs w1) (projectPath ++ ["README.md"])) as [[text|m]|] eqn:Hl.
    - apply readFile_lookup in Hl.
      destruct (putFile_over_file projectPath "README.md" (fs w1) text
                  (updateReadme text config) Hl) as [n2 Hput].
      eexists. by eapply rewriteReadme_present.
    - rewrite Hkeep in Hl. by destruct (Hr m).
    - exists w1. apply rewriteReadme_absent. by apply exists_false. }
  eexists. by eapply updateConfigFiles_Done.
Qed.

(** X9: the configuration step returns exactly when [package.json], if it
    is there, is a file that [JSON.parse] reads as a value other than
    [null], and [README.md] is no directory.  In every other case it
    throws. *)
Theorem updateConfigFiles_returns_iff projectPath config w :
  (∃ w', updateConfigFiles projectPath config w = Done tt w')
  ↔ match FS.lookup (fs w) (projectPath ++ ["package.json"]) with
    | None => True
    | Some (File text) => ∃ v, JSON_parse text = Some v ∧ v ≠ JNull
    | Some (Dir _) => False
    end
    ∧ ∀ m, FS.lookup (fs w) (projectPath ++ ["README.md"]) ≠ Some (Dir m).
Proof.
  split; [|intros [Hm Hr]; by apply updateConfigFiles_total].
  intros [w' H]. apply updateConfigFiles_Done_inv in H as (w1 & w2 & H1 & H2 & _).
  pose proof (rewriteManifest_keeps_readme _ _ _ _ H1) as Hkeep.
  split.
  - apply rewriteManifest_Done_inv in H1
      as (_ & _ & [[Habs _]|(text & v & Hr & Hv & _)]).
    + apply exists_false in Habs. by rewrite Habs.
    + apply readFile_lookup in Hr. rewrite Hr.
      apply (proj1 (updatedManifest_is_Some text config)). by rewrite Hv.
  - intros m Hm. rewrite <- Hkeep in Hm.
    apply rewriteReadme_Done_inv in H2 as (_ & _ & [[Habs _]|(readme & Hr & _)]).
    + apply exists_false in Habs. congruence.
    + apply readFile_lookup in Hr. congruence.
Qed.

(** X10: a [package.json] that is no JSON text, or that holds [null], makes
    the configuration step throw before it has written anything: the
    manifest and the README are as the copy left them. *)
Theorem manifest_that_cannot_be_updated projectPath config w text :
  FS.readFile (fs w) (projectPath ++ ["package.json"]) = Some text →
  (JSON_parse text = None →
   updateConfigFiles projectPath config w = Thrown SyntaxError w)
  ∧ (JSON_parse text = Some JNull →
     updateConfigFiles projectPath config w = Thrown TypeError w).
Proof.
  intros Hread.
  assert (Hex : FS.exists_ (fs w) (projectPath ++ ["package.json"]) = true).
  { apply exists_true. apply readFile_lookup in Hread. by rewrite Hread. }
  split; intros Hparse; rewrite updateConfigFiles_halves; apply bind_Thrown;
    unfold rewriteManifest; cbn zeta; destruct (path_join_entry projectPath) as [-> _];
    (erewrite bind_Done; [|unfold existsSync; by rewrite Hex]); cbn beta iota;
    (erewrite bind_Done; [|unfold readFileSync; by rewrite Hread]); cbn beta;
    apply bind_Thrown; rewrite updatePackageJson_run; unfold updatedManifest;
    by rewrite Hparse.
Qed.

Lemma keys_setProp k v props :
  (setProp k v props).*1
  = match getProp k props with
    | Some _ => props.*1
    | None => props.*1 ++ [k]
    end.
Proof.
  induction props as [|[k' v'] props IH]; [done|]. cbn [setProp getProp].
  destruct (String.eqb_spec k' k) as [->|Hne]; [done|].
  cbn [fmap list_fmap fst]. cbn [fmap] in IH. rewrite IH.
  by destruct (getProp k props).
Qed.

(** X11: the manifest object that is written lists the keys of the object
    that was read in their order; [name] and [description] stay where they
    are, and are added at the end, in this order, if they are missing. *)
Theorem manifest_keeps_key_order text config props :
  JSON_parse text = Some (JObj props) →
  ∃ props',
    updatedManifest text config = Some (JObj props')
    ∧ props'.*1 = props.*1 ++ missingKeys ["name"; "description"] props.
Proof.
  intros Hparse. eexists. split.
  - unfold updatedManifest. rewrite Hparse. reflexivity.
  - rewrite !keys_setProp. unfold missingKeys. cbn [List.filter].
    rewrite getProp_setProp_ne by done.
    destruct (getProp "name" props), (getProp "description" props);
      cbn; by rewrite <- ?app_assoc, ?app_nil_r.
Qed.

Lemma updateConfigFiles_readme projectPath config w w' text :
  updateConfigFiles projectPath config w = Done tt w' →
  FS.readFile (fs w) (projectPath ++ ["README.md"]) = Some text →
  FS.readFile (fs w') (projectPath ++ ["README.md"]) = Some (updateReadme text config).
Proof.
  intros H Hread. apply updateConfigFiles_Done_inv in H as (w1 & w2 & H1 & H2 & ->).
  cbn [fs]. pose proof (rewriteManifest_keeps_readme _ _ _ _ H1) as Hkeep.
  apply readFile_lookup in Hread. rewrite <- Hkeep in Hread.
  apply rewriteReadme_Done_inv in H2 as (_ & _ & [[Habs _]|(readme & Hr & Hput)]).
  - apply exists_false in Habs. congruence.
  - apply readFile_lookup in Hr. rewrite Hread in Hr. injection Hr as <-.
    by apply readFile_putFile in Hput.
Qed.

Lemma updateConfigFiles_manifest projectPath config w w' text :
  updateConfigFiles projectPath config w = Done tt w' →
  FS.readFile (fs w) (projectPath ++ ["package.json"]) = Some text →
  ∃ v, updatedManifest text config = Some v
       ∧ FS.readFile (fs w') (projectPath ++ ["package.json"]) = Some (JSON_stringify v).
Proof.
  intros H Hread. apply updateConfigFiles_Done_inv in H as (w1 & w2 & H1 & H2 & ->).
  cbn [fs]. pose proof (rewriteReadme_keeps_manifest _ _ _ _ H2) as Hkeep.
  apply rewriteManifest_Done_inv in H1
    as (_ & _ & [[Habs _]|(text' & v & Hr & Hv & Hput)]).
  - apply exists_false in Habs. apply readFile_lookup in Hread. congruence.
  - rewrite Hread in Hr. injection Hr as <-. exists v. split; [done|].
    unfold FS.readFile. rewrite Hkeep. by apply readFile_putFile in Hput.
Qed.

(** X12: when neither answer holds a dollar sign, the README that the
    configuration step leaves is the README it found with every occurrence
    of the two tokens replaced by the answer itself, the name first. *)
Theorem readme_is_replaced_literally projectPath config w w' text :
  updateConfigFiles projectPath config w = Done tt w' →
  FS.readFile (fs w) (projectPath ++ ["README.md"]) = Some text →
  JS.occurs "$" (cfg_name config) = false →
  JS.occurs "$" (cfg_description config) = false →
  FS.readFile (fs w') (projectPath ++ ["README.md"])
  = Some (Spec.updateReadme text (cfg_name config) (cfg_description config)).
Proof.
  intros H Hread Hn Hd. rewrite <- updateReadme_literal by done.
  by eapply updateConfigFiles_readme.
Qed.

(** X13: a README in which neither token occurs keeps its text, whatever
    the answers are. *)
Theorem readme_without_tokens_is_kept projectPath config w w' text :
  updateConfigFiles projectPath config w = Done tt w' →
  FS.readFile (fs w) (projectPath ++ ["README.md"]) = Some text →
  JS.occurs PROJECT_NAME text = false →
  JS.occurs PROJECT_DESCRIPTION text = false →
  FS.readFile (fs w') (projectPath ++ ["README.md"]) = Some text.
Proof.
  intros H Hread Hn Hd. rewrite (updateConfigFiles_readme _ _ _ _ _ H Hread).
  unfold updateReadme. rewrite (replaceAll_absent PROJECT_NAME) by done.
  by rewrite (replaceAll_absent PROJECT_DESCRIPTION).
Qed.

(** ** The whole run *)

Lemma lookup_child n p m x :
  FS.lookup n p = Some (Dir m) → FS.lookup n (p ++ [x]) = m !! x.
Proof. intros H. rewrite lookup_app, H. cbn. by destruct (m !! x). Qed.

(** The steps that write the project, on a free destination and a template
    that can be copied and configured. *)
Lemma materialize_completes fuel config w n1 ms :
  let projectPath := projectPathOf (cfg_name config) in
  let templatePath := templatePathOf (cfg_type config) in
  FS.exists_ (fs w) projectPath = false →
  FS.mkdirp (fs w) projectPath = Some n1 →
  FS.lookup n1 templatePath = Some (Dir ms) →
  ¬ inside templatePath projectPath →
  (height (Dir ms) ≤ fuel)%nat →
  match ms !! "package.json" with
  | None => True
  | Some (File text) => ∃ v, JSON_parse text = Some v ∧ v ≠ JNull
  | Some (Dir _) => False
  end →
  (∀ m, ms !! "README.md" ≠ Some (Dir m)) →
  ∃ w1,
    materialize fuel config w = Done tt w1
    ∧ (∀ rel, diverge ["package.json"] rel → diverge ["README.md"] rel →
         FS.lookup (fs w1) (projectPath ++ rel) = FS.lookup n1 (templatePath ++ rel))
    ∧ (∀ text, ms !! "package.json" = Some (File text) →
         ∃ v, updatedManifest text config = Some v
              ∧ FS.readFile (fs w1) (projectPath ++ ["package.json"])
                = Some (JSON_stringify v))
    ∧ (∀ text, ms !! "README.md" = Some (File text) →
         FS.readFile (fs w1) (projectPath ++ ["README.md"])
         = Some (updateReadme text config)).
Proof.
  intros projectPath templatePath Hfree Hmk Htpl Hin Hfuel Hmanifest Hreadme.
  destruct w as [n inp tr]. cbn [fs] in Hfree, Hmk.
  assert (Hdest : FS.lookup n1 projectPath = Some (Dir ∅)).
  { eapply mkdirp_fresh; [|done]. by apply exists_false. }
  destruct (copyDirectory_fresh fuel templatePath projectPath n1 ms inp
              (tr ++ [LogSuccess ("Created project directory: "
                                    +:+ path_to_string projectPath)]))
    as (n2 & Hrun & Hcopy & _); try done.
  assert (Hchild : ∀ x, FS.lookup n2 (projectPath ++ [x]) = ms !! x).
  { intros x. rewrite Hcopy. by apply lookup_child. }
  set (wc := {| fs := n2; stdin := inp;
                trace := (tr ++ [LogSuccess ("Created project directory: "
                                               +:+ path_to_string projectPath)])
                           ++ [LogSuccess ("Copied template files for "
                                             +:+ cfg_type config)] |}).
  assert (Hsteps : ∀ w1, updateConfigFiles projectPath config wc = Done tt w1 →
                         materialize fuel config (World n inp tr) = Done tt w1).
  { intros w1 Hupd. unfold materialize. fold projectPath.
    erewrite bind_Done; [|by apply createProjectDirectory_fresh].
    cbn [fs stdin trace].
    erewrite bind_Done; [exact Hupd|].
    rewrite copyTemplateFiles_present;
      [|cbn [fs]; apply exists_true; exists (Dir ms); exact Htpl].
    erewrite bind_Done; [|exact Hrun]. reflexivity. }
  destruct (updateConfigFiles_total projectPath config wc) as [w1 Hupd].
  { cbn [fs]. by rewrite Hchild. }
  { cbn [fs]. intros m. rewrite Hchild. apply Hreadme. }
  exists w1. split_and!.
  - by apply Hsteps.
  - intros rel Hp Hr. rewrite <- Hcopy.
    apply (updateConfigFiles_frame _ _ _ _ _ Hupd); by apply diverge_prefix.
  - intros text Htext. eapply updateConfigFiles_manifest; [exact Hupd|].
    apply readFile_lookup. cbn [fs]. by rewrite Hchild.
  - intros text Htext. eapply updateConfigFiles_readme; [exact Hupd|].
    apply readFile_lookup. cbn [fs]. by rewrite Hchild.
Qed.

(** X14: a run with five answers and a name that is not empty completes
    with exit code 0 whenever the destination is free and can be made, the
    template of the chosen type is a directory that does not contain the
    destination, its [package.json] (if any) is a file that holds JSON
    other than [null], and its [README.md] (if any) is a file.  The project
    directory is then the template with the two files rewritten from the
    answers. *)
Theorem run_completes fuel w a1 a2 a3 a4 a5 rest n1 ms :
  stdin w = a1 :: a2 :: a3 :: a4 :: a5 :: rest →
  JS.trim a1 ≠ EmptyString →
  let projectPath := projectPathOf (JS.trim a1) in
  let templatePath := templatePathOf (projectTypeOf a3) in
  let config := {| cfg_name := JS.trim a1;
                   cfg_description := JS.trim a2;
                   cfg_type := projectTypeOf a3;
                   cfg_database := databaseConfigOf a4;
                   cfg_auth := authConfigOf a5 |} in
  FS.exists_ (fs w) projectPath = false →
  FS.mkdirp (fs w) projectPath = Some n1 →
  FS.lookup n1 templatePath = Some (Dir ms) →
  ¬ inside templatePath projectPath →
  (height (Dir ms) ≤ fuel)%nat →
  match ms !! "package.json" with
  | None => True
  | Some (File text) => ∃ v, JSON_parse text = Some v ∧ v ≠ JNull
  | Some (Dir _) => False
  end →
  (∀ m, ms !! "README.md" ≠ Some (Dir m)) →
  ∃ w1 w',
    upToInstall fuel w = Done config w1
    ∧ (∀ rel, diverge ["package.json"] rel → diverge ["README.md"] rel →
         FS.lookup (fs w1) (projectPath ++ rel) = FS.lookup n1 (templatePath ++ rel))
    ∧ (∀ text, ms !! "package.json" = Some (File text) →
         ∃ v, updatedManifest text config = Some v
              ∧ FS.readFile (fs w1) (projectPath ++ ["package.json"])
                = Some (JSON_stringify v))
    ∧ (∀ text, ms !! "README.md" = Some (File text) →
         FS.readFile (fs w1) (projectPath ++ ["README.md"])
         = Some (updateReadme text config))
    ∧ main fuel w = Done tt w'
    ∧ exitCode (main fuel w) = Some 0.
Proof.
  intros Hin Hname projectPath templatePath config Hfree Hmk Htpl Hins Hfuel Hm Hr.
  pose proof (collect_run _ _ _ _ _ _ _ Hin Hname) as Hcollect. fold config in Hcollect.
  destruct (materialize_completes fuel config
              {| fs := fs w; stdin := rest; trace := trace w ++ answersTrace |} n1 ms)
    as (w1 & Hmat & Hframe & Hmanifest & Hreadme); try done.
  assert (Hup : upToInstall fuel w = Done config w1).
  { unfold upToInstall. erewrite bind_Done; [|exact Hcollect].
    by erewrite bind_Done; [|exact Hmat]. }
  destruct (finish_Done (cfg_name config) (projectPathOf (cfg_name config)) w1)
    as (w' & _ & _ & Hfin & _).
  assert (Hmain : main fuel w = Done tt w').
  { apply main_Done. rewrite createNewApp_try_upToInstall. by erewrite bind_Done. }
  exists w1, w'. split_and!; [done..|]. by rewrite Hmain.
Qed.

(** ** The questions *)

Lemma bind_Waiting {A B} (m : M A) (f : A → M B) w w' :
  m w = Waiting w' → (m ≫= f) w = Waiting w'.
Proof. unfold mbind, M_bind. by intros ->. Qed.

Lemma main_Waiting fuel w w' :
  createNewApp_try fuel w = Waiting w' → main fuel w = Waiting w'.
Proof. intros H. rewrite main_createNewApp. unfold createNewApp, tryCatch. by rewrite H. Qed.

Lemma getProjectName_waits w :
  stdin w = [] → ∃ w', getProjectName w = Waiting w'.
Proof. intros H. unfold getProjectName. run. rewrite H. by eexists. Qed.

Lemma getProjectDescription_waits w :
  stdin w = [] → ∃ w', getProjectDescription w = Waiting w'.
Proof. intros H. unfold getProjectDescription. run. rewrite H. by eexists. Qed.

Lemma getProjectType_waits w :
  stdin w = [] → ∃ w', getProjectType w = Waiting w'.
Proof. intros H. unfold getProjectType. run. rewrite H. by eexists. Qed.

Lemma getDatabaseConfig_waits w :
  stdin w = [] → ∃ w', getDatabaseConfig w = Waiting w'.
Proof. intros H. unfold getDatabaseConfig. run. rewrite H. by eexists. Qed.

Lemma getAuthConfig_waits w :
  stdin w = [] → ∃ w', getAuthConfig w = Waiting w'.
Proof. intros H. unfold getAuthConfig. run. rewrite H. by eexists. Qed.

(** With fewer than five lines of input the collection of the answers
    waits at a question, unless the name is empty. *)
Lemma collect_waits w :
  (length (stdin w) < 5)%nat →
  (∀ a l, stdin w = a :: l → JS.trim a ≠ EmptyString) →
  ∃ w', collect w = Waiting w'.
Proof.
  intros Hlen Hname. unfold collect.
  do 3 (erewrite bind_Done; [|reflexivity]).
  destruct (stdin w) as [|a1 l1] eqn:Hin.
  { edestruct getProjectName_waits as [w' Hw]; [|exists w'; by apply bind_Waiting]. done. }
  erewrite bind_Done; [|by apply getProjectName_run].
  specialize (Hname a1 l1 eq_refl). apply String.eqb_neq in Hname. rewrite Hname.
  erewrite bind_Done; [|reflexivity].
  destruct l1 as [|a2 l2].
  { edestruct getProjectDescription_waits as [w' Hw]; [|exists w'; by apply bind_Waiting].
    done. }
  erewrite bind_Done; [|by apply getProjectDescription_run].
  destruct l2 as [|a3 l3].
  { edestruct getProjectType_waits as [w' Hw]; [|exists w'; by apply bind_Waiting]. done. }
  erewrite bind_Done; [|by apply getProjectType_run].
  destruct l3 as [|a4 l4].
  { edestruct getDatabaseConfig_waits as [w' Hw]; [|exists w'; by apply bind_Waiting].
    done. }
  erewrite bind_Done; [|by apply getDatabaseConfig_run].
  destruct l4 as [|a5 l5]; [|cbn in Hlen; lia].
  edestruct getAuthConfig_waits as [w' Hw]; [|exists w'; by apply bind_Waiting]. done.
Qed.

(** X15: with fewer than five lines of input the run never gets to write:
    it ends waiting at a question, or with exit code 1 for an empty name;
    in both cases the file system is as it was and no command has been
    spawned. *)
Theorem input_ends_early fuel w :
  (length (stdin w) < 5)%nat →
  ∃ w', (main fuel w = Waiting w' ∨ main fuel w = Exited 1 w')
        ∧ fs w' = fs w
        ∧ ∃ events, trace w' = trace w ++ events
                    ∧ Forall (λ e, isSpawn e = false) events.
Proof.
  intros Hlen.
  assert (∃ w', collect w = Waiting w' ∨ collect w = Exited 1 w') as [w' Hc].
  { destruct (stdin w) as [|a l] eqn:Hin.
    - destruct (collect_waits w) as [w' Hw]; [by rewrite Hin|by rewrite Hin|eauto].
    - destruct (decide (JS.trim a = EmptyString)) as [Hname|Hname].
      + eexists. right. by apply (collect_empty_name _ a l).
      + destruct (collect_waits w) as [w' Hw]; [by rewrite Hin| |eauto].
        rewrite Hin. by intros ? ? [= <- <-]. }
  exists w'. split_and!.
  - destruct Hc as [Hc|Hc]; [left; apply main_Waiting|right; apply main_Exited];
      rewrite createNewApp_try_steps; unfold mbind, M_bind; by rewrite Hc.
  - apply (collect_sameFiles w). by destruct Hc as [-> | ->].
  - apply (collect_noSpawn w). by destruct Hc as [-> | ->].
Qed.

(** X16: an answer to a menu from which [parseInt] reads a number of the
    menu selects the entry with that number; the authentication is enabled
    exactly for the number 1. *)
Theorem valid_choice_selects_entry answer i :
  JS.parseInt (JS.trim answer) = Some i →
  (1 ≤ i ≤ 4 → types !! Z.to_nat (i - 1) = Some (projectTypeOf answer))
  ∧ (1 ≤ i ≤ 3 → options !! Z.to_nat (i - 1) = Some (databaseConfigOf answer))
  ∧ (authConfigOf answer = true ↔ i = 1).
Proof.
  intros H. unfold projectTypeOf, databaseConfigOf, authConfigOf. rewrite H.
  split_and!.
  - intros Hi. assert (i = 1 ∨ i = 2 ∨ i = 3 ∨ i = 4) as [->|[->|[->| ->]]] by lia;
      reflexivity.
  - intros Hi. assert (i = 1 ∨ i = 2 ∨ i = 3) as [->|[->| ->]] by lia; reflexivity.
  - split; [|by intros ->]. by destruct i as [|[p|p|]|p].
Qed.

Lemma orElse_index_in (l : list string) i d :
  d ∈ l → JS.orElse (JS.index l i) d ∈ l.
Proof.
  intros Hd. destruct i as [i|]; [|done]. cbn.
  destruct (0 <=? i); [|done].
  destruct (l !! Z.to_nat i) as [s|] eqn:E; [|done].
  destruct s; [done|]. by eapply list_elem_of_lookup_2.
Qed.

Lemma projectTypeOf_listed answer : projectTypeOf answer ∈ types.
Proof.
  apply orElse_index_in. unfold types. rewrite !elem_of_cons.
  solve [repeat first [left; reflexivity|right]].
Qed.

(** X17: whatever is typed, the project type is one of the four names of the
    menu and the database one of the three, so the template is looked for
    in one of four fixed directories beside the directory of the script:
    the answer cannot point the copy anywhere else. *)
Theorem choice_is_always_listed answer :
  projectTypeOf answer ∈ types
  ∧ databaseConfigOf answer ∈ options
  ∧ templatePathOf (projectTypeOf answer)
    = removelast dirname ++ ["templates"; projectTypeOf answer].
Proof.
  split_and!.
  - apply projectTypeOf_listed.
  - apply orElse_index_in. unfold options. rewrite !elem_of_cons.
    solve [repeat first [left; reflexivity|right]].
  - pose proof (projectTypeOf_listed answer) as H. revert H.
    generalize (projectTypeOf answer). intros t Ht. unfold types in Ht.
    repeat (apply elem_of_cons in Ht as [->|Ht]);
      [..|by apply elem_of_nil in Ht];
      unfold templatePathOf, path_join;
      match goal with
      | |- fold_left _ ?l _ = _ => let l' := eval vm_compute in l in change l with l'
      end;
      cbn [fold_left];
      change (normalizeStep dirname "..") with (removelast dirname);
      unfold normalizeStep; cbn [String.eqb Ascii.eqb Bool.eqb];
      by rewrite <- app_assoc.
Qed.

(** X18: none of the four project types names a template directory that the
    setup test of the kit looks for: [templates/<type>] is never one of
    them. *)
Theorem chosen_type_is_no_shipped_template answer :
  ("templates/" +:+ projectTypeOf answer) ∉ SetupTest.templates.
Proof.
  pose proof (projectTypeOf_listed answer) as H. revert H.
  generalize (projectTypeOf answer). intros t Ht. unfold types in Ht.
  repeat (apply elem_of_cons in Ht as [->|Ht]); [..|by apply elem_of_nil in Ht];
    unfold SetupTest.templates; intros H;
    repeat (apply elem_of_cons in H as [H|H]; [discriminate|]);
    by apply elem_of_nil in H.
Qed.

Lemma append_empty_r (s : string) : s +:+ EmptyString = s.
Proof.
  induction s as [|c s IH]; [done|].
  change (String c (s +:+ EmptyString) = String c s). by rewrite IH.
Qed.

Lemma append_char_assoc (cur : string) c s :
  (cur +:+ String c EmptyString) +:+ s = cur +:+ String c s.
Proof.
  induction cur as [|c' cur IH]; [done|].
  change (String c' ((cur +:+ String c EmptyString) +:+ s) = String c' (cur +:+ String c s)).
  by rewrite IH.
Qed.

Lemma splitOn_plain s : ∀ cur,
  hasSeparator s = false → splitOn "/" cur s = [cur +:+ s].
Proof.
  induction s as [|c s IH]; intros cur H; cbn [splitOn].
  - by rewrite append_empty_r.
  - cbn [hasSeparator] in H. apply orb_false_elim in H as [Hc H].
    rewrite Hc, IH by done. by rewrite append_char_assoc.
Qed.

(** X19: for a name that is a single path component the project directory
    is the child of the working directory with that name.  The name is not
    confined to the working directory: with [../] before such a name the
    project is made beside the working directory. *)
Theorem plain_name_is_child name :
  isPlainName name = true →
  projectPathOf name = cwd ++ [name]
  ∧ projectPathOf ("../" +:+ name) = removelast cwd ++ [name].
Proof.
  unfold isPlainName. intros H.
  repeat (apply andb_true_iff in H as [H ?]).
  repeat match goal with H : negb _ = true |- _ => apply negb_true_iff in H end.
  assert (Hn : ∀ acc, normalizeStep acc name = acc ++ [name]).
  { intros acc. unfold normalizeStep.
    by repeat match goal with H : String.eqb _ _ = false |- _ => rewrite H; clear H end. }
  unfold projectPathOf, path_join. split.
  - cbn [map concat]. rewrite splitOn_plain, app_nil_r by done.
    cbn [fold_left]. change (EmptyString +:+ name) with name. apply Hn.
  - assert (Hs : splitOn "/" EmptyString ("../" +:+ name)
                 = ".." :: splitOn "/" EmptyString name) by reflexivity.
    cbn [map concat]. rewrite Hs, splitOn_plain, app_nil_r by done.
    cbn [fold_left]. change (EmptyString +:+ name) with name. by rewrite Hn.
Qed.

(** ** The spawned commands *)

(** X20: when [pnpm install] succeeds, the installation step reports the
    success and is done: [npm install] is not spawned. *)
Theorem pnpm_success_skips_npm projectPath w :
  (spawn "pnpm install" projectPath (fs w)).1 = true →
  let w' := {| fs := (spawn "pnpm install" projectPath (fs w)).2;
               stdin := stdin w;
               trace := trace w
                 ++ [LogInfo "Installing dependencies...";
                     Exec "pnpm install" projectPath;
                     LogSuccess "Dependencies installed successfully"] |} in
  installDependencies projectPath w = Done tt w'
  ∧ execCount "npm install" (trace w') = execCount "npm install" (trace w).
Proof.
  intros Hpnpm w'. split.
  - unfold installDependencies. run. rewrite execSync_run. cbn zeta.
    cbn [fs stdin trace]. rewrite Hpnpm. unfold w'. cbn [fs stdin trace].
    by trace_assoc.
  - unfold w'. cbn [trace]. rewrite execCount_app. cbn. lia.
Qed.

(** X21: [createInitialCommit] spawns [git init], [git add .] and
    [git commit] in this order and stops at the first that fails; it
    reports the commit only if all three succeeded, a warning and a hint
    otherwise, and it returns in every case. *)
Theorem createInitialCommit_stops_at_first_failure projectPath w :
  let init := spawn "git init" projectPath (fs w) in
  let add := spawn "git add ." projectPath init.2 in
  let commit := spawn gitCommit projectPath add.2 in
  let failed :=
    [LogWarning "Failed to create initial git commit";
     LogInfo ("Please run " +:+ quoted "git init" +:+ " and " +:+ quoted "git commit"
                +:+ " manually")] in
  createInitialCommit projectPath w
  = Done tt
      (if init.1 then
         if add.1 then
           {| fs := commit.2; stdin := stdin w;
              trace := trace w
                ++ [Exec "git init" projectPath; Exec "git add ." projectPath;
                    Exec gitCommit projectPath]
                ++ (if commit.1 then [LogSuccess "Created initial git commit"]
                    else failed) |}
         else
           {| fs := add.2; stdin := stdin w;
              trace := trace w
                ++ [Exec "git init" projectPath; Exec "git add ." projectPath]
                ++ failed |}
       else
         {| fs := init.2; stdin := stdin w;
            trace := trace w ++ [Exec "git init" projectPath] ++ failed |}).
Proof.
  cbv zeta. unfold gitCommit.
  destruct (spawn "git init" projectPath (fs w)) as [[] n1] eqn:E1; cbn [fst snd];
    [destruct (spawn "git add ." projectPath n1) as [[] n2] eqn:E2; cbn [fst snd];
      [destruct (spawn ("git commit -m " +:+ quoted "Initial commit from C2C starter kit")
                   projectPath n2) as [[] n3] eqn:E3; cbn [fst snd]|]|];
    unfold createInitialCommit; run;
    repeat (rewrite execSync_run; cbn zeta; cbn [fs stdin trace];
            rewrite ?E1, ?E2, ?E3; cbn [fst snd fs stdin trace]);
    by trace_assoc.
Qed.

Lemma collect_Done_name w a rest config w1 :
  stdin w = a :: rest → collect w = Done config w1 → cfg_name config = JS.trim a.
Proof.
  intros Hin H.
  destruct (decide (JS.trim a = EmptyString)) as [Hname|Hname].
  { by rewrite (collect_empty_name _ _ _ Hin Hname) in H. }
  destruct rest as [|a2 [|a3 [|a4 [|a5 rest]]]];
    try (destruct (collect_waits w) as [w' Hw];
         [rewrite Hin; cbn; lia|rewrite Hin; by intros ? ? [= <- <-]|congruence]).
  rewrite (collect_run _ _ _ _ _ _ _ Hin Hname) in H. by injection H as <- _.
Qed.

Ltac in_project :=
  first
    [ intros; apply emits_none
    | solve [intros; apply emits_one; intros ? ? [=]]
    | intros; apply emits_one; intros ? ? [= <- <-]; split;
      [reflexivity
      |unfold commands; rewrite !elem_of_cons;
       solve [repeat first [left; reflexivity|right]] ] ].

Lemma finish_spawnsIn projectName projectPath :
  respects (emits (spawnsIn projectPath)) (finish projectName projectPath).
Proof.
  unfold finish, installDependencies, createInitialCommit, displaySuccessMessage.
  respect in_project.
Qed.

Lemma noSpawn_spawnsIn dir e : noSpawn e → spawnsIn dir e.
Proof. intros He cmd d ->. discriminate He. Qed.

(** X22: however a run ends, every command it has spawned is one of
    [pnpm install], [npm install], [git init], [git add .] and the
    [git commit], and ran in the project directory: the working directory
    joined with the trimmed first answer. *)
Theorem commands_run_in_project_directory fuel w a rest w' :
  stdin w = a :: rest →
  finalWorld (main fuel w) = Some w' →
  ∃ events,
    trace w' = trace w ++ events
    ∧ Forall (λ e, ∀ cmd dir, e = Exec cmd dir →
                     dir = projectPathOf (JS.trim a) ∧ cmd ∈ commands) events.
Proof.
  intros Hin. revert w'.
  set (R := emits (spawnsIn (projectPathOf (JS.trim a)))).
  change (respectsAt R (main fuel) w).
  unfold main, createNewApp.
  apply respectsAt_tryCatch; [apply _| |].
  - apply respectsAt_tryCatch; [apply _| |].
    + intros w' H. rewrite createNewApp_try_steps in H. revert w' H.
      apply respectsAt_bind; [apply _| |].
      * intros w' H. eapply emits_mono; [apply noSpawn_spawnsIn|].
        by apply collect_noSpawn.
      * intros config w1 Hc. unfold R.
        rewrite <- (collect_Done_name _ _ _ _ _ Hin Hc).
        apply respects_bind; [apply _| |intros _; apply finish_spawnsIn].
        eapply respects_mono; [|apply materialize_noSpawn].
        intros ? ?. apply emits_mono, noSpawn_spawnsIn.
    + intros e w1 _. revert w1.
      change (respects R (logError ("Failed to create app: " +:+ message e);;
                          (process_exit 1 : M unit))).
      unfold R. respect in_project.
  - intros e w1 _. revert w1. change (respects R (emit (LogError (message e)))).
    unfold R. respect in_project.
Qed.

(** ** The colours *)

Lemma colorize_known text color code :
  colors !! color = Some code →
  colorize text color = code +:+ text +:+ esc +:+ "[0m".
Proof. unfold colorize. by intros ->. Qed.

Lemma colorize_white text :
  colorize text "white" = "undefined" +:+ text +:+ esc +:+ "[0m".
Proof. reflexivity. Qed.

Ltac coloured :=
  first
    [ intros; apply emits_none
    | solve [intros; apply emits_one; intros ? ? [=]]
    | intros; apply emits_one; intros ? ? [= <- <-];
      first
        [ left; split; [reflexivity|apply colorize_white]
        | right; eexists; split; [reflexivity|by apply colorize_known] ] ].

Lemma collect_wellColoured : respects (emits wellColoured) collect.
Proof.
  unfold collect, getProjectName, getProjectDescription, getProjectType,
    getDatabaseConfig, getAuthConfig.
  respect coloured.
Qed.

Lemma materialize_wellColoured fuel config :
  respects (emits wellColoured) (materialize fuel config).
Proof.
  unfold materialize, createProjectDirectory, copyTemplateFiles, updateConfigFiles,
    updatePackageJson. cbn zeta.
  respect coloured. apply respects_copyDirectory_console; [apply _|]. coloured.
Qed.

Lemma finish_wellColoured projectName projectPath :
  respects (emits wellColoured) (finish projectName projectPath).
Proof.
  unfold finish, installDependencies, createInitialCommit, displaySuccessMessage.
  respect coloured.
Qed.

(** X23: on a run that completes, every line written through [log] is
    wrapped in the code of its colour and the reset code, except the lines
    logged with the colour [white], which the table does not have: they
    start with the text [undefined].  Every such run logs lines with
    [white]: the next steps of the summary. *)
Theorem lines_logged_white_lose_their_colour fuel w w' :
  main fuel w = Done tt w' →
  ∃ events,
    trace w' = trace w ++ events
    ∧ Forall (λ e, ∀ color text, e = Log color text →
                (color = "white"
                 ∧ colorize text color = "undefined" +:+ text +:+ esc +:+ "[0m")
                ∨ (∃ code, colors !! color = Some code
                           ∧ colorize text color = code +:+ text +:+ esc +:+ "[0m"))
        events
    ∧ Log "white" "2. pnpm dev" ∈ events.
Proof.
  intros H. apply main_Done_inv in H. rewrite createNewApp_try_steps in H.
  apply bind_Done_inv in H as (config & w0 & Hc & H).
  apply bind_Done_inv in H as ([] & w1 & Hm & Hf).
  destruct (collect_wellColoured w w0) as (e0 & E0 & F0); [by rewrite Hc|].
  destruct (materialize_wellColoured fuel config w0 w1) as (e1 & E1 & F1); [by rewrite Hm|].
  destruct (finish_wellColoured (cfg_name config) (projectPathOf (cfg_name config)) w1 w')
    as (e2 & E2 & F2); [by rewrite Hf|].
  exists (e0 ++ e1 ++ e2). split_and!.
  - by rewrite E2, E1, E0, <- !app_assoc.
  - by repeat apply Forall_app_2.
  - destruct (finish_Done (cfg_name config) (projectPathOf (cfg_name config)) w1)
      as (w'' & ie & ge & Hfin & _ & Htr).
    rewrite Hf in Hfin. injection Hfin as <-. rewrite E2 in Htr.
    apply app_inv_head in Htr. rewrite Htr, !elem_of_app. do 4 right.
    unfold summaryTrace. rewrite !elem_of_cons.
    solve [repeat first [left; reflexivity|right]].
Qed.

(** ** Runs that fail *)

Lemma main_Exited_inv fuel w c w' :
  main fuel w = Exited c w' →
  createNewApp_try fuel w = Exited c w'
  ∨ ∃ e w1, createNewApp_try fuel w = Thrown e w1
            ∧ c = 1
            ∧ w' = {| fs := fs w1; stdin := stdin w1;
                      trace := trace w1
                        ++ [LogError ("Failed to create app: " +:+ message e)] |}.
Proof.
  intros H. destruct (createNewApp_try fuel w) as [[] w1|e w1|c1 w1|w1|] eqn:Htry.
  - by rewrite (main_Done _ _ _ Htry) in H.
  - rewrite (main_Thrown _ _ _ _ Htry) in H. injection H as <- <-. right. eauto.
  - rewrite (main_Exited _ _ _ _ Htry) in H. by left.
  - by rewrite (main_Waiting _ _ _ Htry) in H.
  - rewrite main_createNewApp in H. unfold createNewApp, tryCatch in H.
    by rewrite Htry in H.
Qed.

(** A [try] block that does not run to its end stops while the answers
    are collected or while the project is written. *)
Lemma createNewApp_try_stops fuel w w1 :
  finalWorld (createNewApp_try fuel w) = Some w1 →
  (∀ w2, createNewApp_try fuel w ≠ Done tt w2) →
  (finalWorld (collect w) = Some w1 ∧ ∀ config w0, collect w ≠ Done config w0)
  ∨ ∃ config w0, collect w = Done config w0
                 ∧ finalWorld (materialize fuel config w0) = Some w1
                 ∧ ∀ w2, materialize fuel config w0 ≠ Done tt w2.
Proof.
  rewrite createNewApp_try_steps. intros H Hnot.
  apply final_bind in H as [(config & w0 & Hc & H)|H]; [|by left].
  right. exists config, w0. split; [done|].
  destruct (materialize fuel config w0) as [[] wm|e wm|c wm|wm|] eqn:Hm.
  - exfalso.
    destruct (finish_Done (cfg_name config) (projectPathOf (cfg_name config)) wm)
      as (w2 & _ & _ & Hfin & _).
    apply (Hnot w2). erewrite bind_Done; [|exact Hc]. by erewrite bind_Done; [|exact Hm].
  - erewrite bind_Thrown in H; [|exact Hm]. by split.
  - erewrite bind_Exited in H; [|exact Hm]. by split.
  - erewrite bind_Waiting in H; [|exact Hm]. by split.
  - unfold mbind, M_bind in H. by rewrite Hm in H.
Qed.

(** X24: a run that ends with an exit code other than 0 has spawned no
    command: the package manager and git run only once the project
    directory is written and configured, and from there on nothing fails
    the run. *)
Theorem failed_run_spawns_nothing fuel w c w' :
  main fuel w = Exited c w' →
  ∃ events, trace w' = trace w ++ events ∧ Forall (λ e, isSpawn e = false) events.
Proof.
  intros H. change (emits noSpawn w w').
  assert (Hstop : ∀ w1, finalWorld (createNewApp_try fuel w) = Some w1 →
                        (∀ w2, createNewApp_try fuel w ≠ Done tt w2) →
                        emits noSpawn w w1).
  { intros w1 Hf Hnot.
    destruct (createNewApp_try_stops _ _ _ Hf Hnot)
      as [[Hf' _]|(config & w0 & Hc & Hf' & _)].
    - by apply collect_noSpawn.
    - transitivity w0; [apply collect_noSpawn; by rewrite Hc|].
      by apply (materialize_noSpawn fuel config). }
  apply main_Exited_inv in H as [H|(e & w1 & H & _ & ->)].
  - apply Hstop; [by rewrite H|]. intros w2. by rewrite H.
  - transitivity w1; [|by apply emits_one].
    apply Hstop; [by rewrite H|]. intros w2. by rewrite H.
Qed.

Lemma materialize_keeps fuel config : respects keepsDirectories (materialize fuel config).
Proof.
  unfold materialize, createProjectDirectory, copyTemplateFiles, updateConfigFiles,
    updatePackageJson. cbn zeta.
  respect ltac:(first
    [ by intros w p Hp
    | by intros w rest p Hp
    | intros w n Hmk p Hp; cbn [fs]; by eapply mkdirp_preserves
    | intros w n Hput p Hp; cbn [fs]; by eapply putFile_preserves ]).
  apply copyDirectory_keeps.
Qed.

(** X25: a run that fails does not clean up.  With five answers, a name
    that is not empty and a destination that is free and can be made, a
    run that ends with an exit code other than 0 leaves the project
    directory behind, and every directory that was there before the run. *)
Theorem failed_run_leaves_project_directory fuel w a1 a2 a3 a4 a5 rest n1 c w' :
  stdin w = a1 :: a2 :: a3 :: a4 :: a5 :: rest →
  JS.trim a1 ≠ EmptyString →
  FS.exists_ (fs w) (projectPathOf (JS.trim a1)) = false →
  FS.mkdirp (fs w) (projectPathOf (JS.trim a1)) = Some n1 →
  main fuel w = Exited c w' →
  c = 1
  ∧ dirAt (fs w') (projectPathOf (JS.trim a1))
  ∧ ∀ p, dirAt (fs w) p → dirAt (fs w') p.
Proof.
  intros Hin Hname Hfree Hmk H.
  pose proof (collect_run _ _ _ _ _ _ _ Hin Hname) as Hcollect.
  set (config := {| cfg_name := JS.trim a1; cfg_description := JS.trim a2;
                   cfg_type := projectTypeOf a3; cfg_database := databaseConfigOf a4;
                   cfg_auth := authConfigOf a5 |}) in *.
  set (w0 := {| fs := fs w; stdin := rest; trace := trace w ++ answersTrace |}) in *.
  assert (Hstop : ∀ w1, finalWorld (createNewApp_try fuel w) = Some w1 →
                        (∀ w2, createNewApp_try fuel w ≠ Done tt w2) →
                        dirAt (fs w1) (projectPathOf (JS.trim a1))
                        ∧ ∀ p, dirAt (fs w) p → dirAt (fs w1) p).
  { intros w1 Hf Hnot.
    destruct (createNewApp_try_stops _ _ _ Hf Hnot)
      as [[_ Hnd]|(config' & w0' & Hc & Hf' & _)]; [by destruct (Hnd _ _ Hcollect)|].
    clear Hf. rename Hf' into Hf.
    rewrite Hcollect in Hc. injection Hc as <- <-.
    pose proof (materialize_keeps fuel config w0 w1 Hf) as Hkeep.
    split; [|intros p Hp; by apply Hkeep].
    unfold materialize in Hf. cbn [cfg_name config] in Hf.
    erewrite bind_Done in Hf; [|by apply createProjectDirectory_fresh].
    assert (Hrest : respects keepsDirectories
              (copyTemplateFiles fuel (projectPathOf (JS.trim a1)) (cfg_type config);;
               updateConfigFiles (projectPathOf (JS.trim a1)) config)).
    { unfold copyTemplateFiles, updateConfigFiles, updatePackageJson. cbn zeta.
      respect ltac:(first
        [ by intros w2 p Hp
        | intros w2 n Hput p Hp; cbn [fs]; by eapply putFile_preserves ]).
      apply copyDirectory_keeps. }
    apply Hrest in Hf. apply Hf. cbn [fs]. by eapply mkdirp_dirAt. }
  apply main_Exited_inv in H as [H|(e & w1 & H & -> & ->)].
  - rewrite createNewApp_try_steps in H. erewrite bind_Done in H; [|exact Hcollect].
    exfalso. revert H.
    apply (noExit_bind (materialize fuel config) (λ _, finish _ _));
      [apply noExit_materialize|intros _; apply noExit_finish].
  - split; [done|]. cbn [fs]. apply Hstop; [by rewrite H|]. intros w2. by rewrite H.
Qed.

(** X26: [createNewApp] catches whatever is thrown and ends the process
    itself, so the promise it returns is never rejected: the handler that
    the entry point installs with [.catch(console.error)] never runs, and a
    run of the script is a run of [createNewApp]. *)
Theorem createNewApp_never_rejects fuel w :
  main fuel w = createNewApp fuel w
  ∧ ∀ e w', createNewApp fuel w ≠ Thrown e w'.
Proof.
  split; [apply main_createNewApp|].
  intros e w'. rewrite <- main_createNewApp. apply main_not_Thrown.
Qed.

(** ** The trimmed answers *)

Lemma rev_app_append s : ∀ t, String.rev_app s t = String.rev_app s EmptyString +:+ t.
Proof.
  induction s as [|a s IH]; intros t; [done|]. cbn [String.rev_app].
  rewrite (IH (String a t)), (IH (String a EmptyString)). by rewrite append_char_assoc.
Qed.

Lemma rev_app_rev_app s : ∀ t u,
  String.rev_app (String.rev_app s t) u = String.rev_app t (s +:+ u).
Proof.
  induction s as [|a s IH]; intros t u; [done|]. cbn [String.rev_app].
  by rewrite IH.
Qed.

Lemma rev_involutive s : String.rev (String.rev s) = s.
Proof. unfold String.rev. rewrite rev_app_rev_app. cbn. apply append_empty_r. Qed.

Lemma rev_app_app a : ∀ b t,
  String.rev_app (a +:+ b) t = String.rev_app b (String.rev_app a t).
Proof.
  induction a as [|c a IH]; intros b t; [done|].
  change (String.rev_app (a +:+ b) (String c t)
          = String.rev_app b (String.rev_app a (String c t))).
  apply IH.
Qed.

Lemma rev_append a b : String.rev (a +:+ b) = String.rev b +:+ String.rev a.
Proof. unfold String.rev. by rewrite rev_app_app, rev_app_append. Qed.

Lemma trimStart_start s : startsWithSpace (JS.trimStart s) = false.
Proof.
  induction s as [|c s IH]; [done|]. cbn [JS.trimStart].
  destruct (JS.isWhiteSpace c) eqn:Hc; [done|]. cbn [startsWithSpace]. exact Hc.
Qed.

Lemma trimStart_id s : startsWithSpace s = false → JS.trimStart s = s.
Proof. destruct s as [|c s]; [done|]. cbn. by intros ->. Qed.

Lemma trimStart_suffix s : ∃ ws, s = ws +:+ JS.trimStart s.
Proof.
  induction s as [|c s [ws IH]]; [by exists EmptyString|]. cbn [JS.trimStart].
  destruct (JS.isWhiteSpace c); [|by exists EmptyString].
  exists (String c ws). change (String c s = String c (ws +:+ JS.trimStart s)).
  by rewrite <- IH.
Qed.

Lemma trimStart_blank s : isBlank s = true → JS.trimStart s = EmptyString.
Proof.
  induction s as [|c s IH]; [done|]. cbn [isBlank JS.trimStart].
  intros [-> H]%andb_true_iff. by apply IH.
Qed.

Lemma trimEnd_end s : endsWithSpace (JS.trimEnd s) = false.
Proof.
  unfold endsWithSpace, JS.trimEnd. rewrite rev_involutive. apply trimStart_start.
Qed.

Lemma trimEnd_start s : startsWithSpace s = false → startsWithSpace (JS.trimEnd s) = false.
Proof.
  intros Hs. unfold JS.trimEnd.
  destruct (trimStart_suffix (String.rev s)) as [ws Hws].
  apply (f_equal String.rev) in Hws. rewrite rev_involutive, rev_append in Hws.
  destruct (String.rev (JS.trimStart (String.rev s))) as [|c r]; [done|].
  rewrite Hws in Hs. exact Hs.
Qed.

Lemma trim_trim s : JS.trim (JS.trim s) = JS.trim s.
Proof.
  assert (Hstart : startsWithSpace (JS.trim s) = false)
    by apply trimEnd_start, trimStart_start.
  assert (Hend : endsWithSpace (JS.trim s) = false) by apply trimEnd_end.
  unfold JS.trim at 1. rewrite (trimStart_id _ Hstart).
  unfold JS.trimEnd at 1. rewrite (trimStart_id _ Hend). apply rev_involutive.
Qed.

(** X27: the project name and the description that the prompts return are
    trimmed: they neither start nor end with white space, trimming them
    again changes nothing, and an answer of white space only gives the
    empty text. *)
Theorem answers_are_trimmed w answer rest :
  stdin w = answer :: rest →
  ∃ text w',
    getProjectName w = Done text w'
    ∧ (∃ w'', getProjectDescription w = Done text w'')
    ∧ startsWithSpace text = false
    ∧ endsWithSpace text = false
    ∧ JS.trim text = text
    ∧ (isBlank answer = true → text = EmptyString).
Proof.
  intros Hin. exists (JS.trim answer). eexists. split_and!.
  - by apply getProjectName_run.
  - eexists. by apply getProjectDescription_run.
  - apply trimEnd_start, trimStart_start.
  - apply trimEnd_end.
  - apply trim_trim.
  - intros Hb. unfold JS.trim. by rewrite trimStart_blank.
Qed.

End Script.

(** * The claims on concrete runs *)

Section Runs.
Import Scenario.

Local Abbreviation run_main spawn :=
  (main home kitScripts spawn RefJSON.parse RefJSON.stringify).
Local Abbreviation run_try spawn :=
  (createNewApp_try home kitScripts spawn RefJSON.parse RefJSON.stringify).
Local Abbreviation run_update :=
  (updateConfigFiles RefJSON.parse RefJSON.stringify).

(** The scenario of the specification: the answers [helper-app], [Test]
    and three times [1], with a template whose manifest is named
    [template] and whose README holds the name token twice. *)
Example helper_app_run :
  ∃ tr, run_main allSucceed 2 (World root helperAnswers [])
        = Done tt (World rootScaffolded [] tr).
Proof. eexists. vm_compute. reflexivity. Qed.

(** The second scenario of the specification: the same answers once
    more, in the same working directory. *)
Example helper_app_second_run :
  run_main allSucceed 2 (World rootScaffolded helperAnswers [])
  = Exited 1 (World rootScaffolded []
      (answersTrace
         ++ [LogError "Failed to create app: Directory /home/helper-app already exists"])).
Proof. vm_compute. reflexivity. Qed.

Lemma C1_witness :
  FS.exists_ rootTaken (projectPathOf home "helper-app") = true
  ∧ run_main allSucceed 0 (World rootTaken helperAnswers [])
    = Exited 1 (World rootTaken []
        (answersTrace
           ++ [LogError "Failed to create app: Directory /home/helper-app already exists"])).
Proof.
  split; [reflexivity|].
  refine (proj1 (proj2 (C1_destination_exists home kitScripts allSucceed
    RefJSON.parse RefJSON.stringify 0 (World rootTaken helperAnswers [])
    "helper-app" "Test" "1" "1" "1" [] _ _ _))).
  - reflexivity.
  - vm_compute. discriminate.
  - reflexivity.
Defined.

(** The run from inside the template [custom], with the project name
    [app]: the destination is free and the template exists, but the copy
    step returns for no amount of fuel, and so the run never completes. *)
Lemma C2_counterexample :
  FS.exists_ rootNested (customTemplate ++ ["app"]) = false
  ∧ FS.mkdirp rootNested (customTemplate ++ ["app"]) = Some rootNestedMade
  ∧ FS.lookup rootNestedMade (templatePathOf kitScripts "custom")
    = Some (Dir {[ "README.md" := File readme; "app" := Dir ∅ ]})
  ∧ (∀ fuel w',
       (createProjectDirectory (customTemplate ++ ["app"]);;
        copyTemplateFiles kitScripts fuel (customTemplate ++ ["app"]) "custom")
         (World rootNested [] [])
       ≠ Done tt w')
  ∧ (∀ fuel w',
       main customTemplate kitScripts allSucceed RefJSON.parse RefJSON.stringify fuel
         (World rootNested ["app"; "My app"; "4"; "1"; "1"] [])
       ≠ Done tt w').
Proof.
  assert (Hcopy : ∀ fuel w w',
    fs w = rootNestedMade →
    copyTemplateFiles kitScripts fuel (customTemplate ++ ["app"]) "custom" w ≠ Done tt w').
  { intros fuel w w' Hfs H.
    rewrite copyTemplateFiles_present in H by (by rewrite Hfs).
    apply bind_Done_inv in H as ([] & w2 & H & _).
    revert H. apply (copyDirectory_into_itself fuel customTemplate ["app"]); [done|].
    rewrite Hfs. by exists ∅. }
  split_and!; [reflexivity..| |].
  - intros fuel w' H.
    apply bind_Done_inv in H as ([] & w1 & Hmk & H).
    rewrite (createProjectDirectory_fresh _ _ rootNestedMade) in Hmk by reflexivity.
    inversion Hmk; subst w1. by apply Hcopy in H.
  - intros fuel w' H.
    apply main_Done_inv in H as Htry. clear H.
    rewrite createNewApp_try_steps in Htry.
    erewrite bind_Done in Htry; [|by apply collect_run].
    apply bind_Done_inv in Htry as ([] & w2 & Hmat & _).
    unfold materialize in Hmat.
    apply bind_Done_inv in Hmat as ([] & w1 & Hmk & Hmat).
    rewrite (createProjectDirectory_fresh _ _ rootNestedMade) in Hmk by reflexivity.
    inversion Hmk; subst w1.
    apply bind_Done_inv in Hmat as ([] & w3 & H & _).
    by apply Hcopy in H.
Qed.

Lemma C2_witness :
  ∃ n2,
    (createProjectDirectory ["home"; "helper-app"];;
     copyTemplateFiles kitScripts 2 ["home"; "helper-app"] "basic-crud")
      (World root [] [])
    = Done tt (World n2 []
        [LogSuccess "Created project directory: /home/helper-app";
         LogSuccess "Copied template files for basic-crud"])
    ∧ FS.lookup n2 ["home"; "helper-app"; "components"; "ItemList.tsx"]
      = Some (File "export {}").
Proof.
  destruct (C2_copy_is_exact kitScripts 2 (World root [] []) ["home"; "helper-app"]
              "basic-crud" (rootMade "helper-app")
              {[ "package.json" := File manifest;
                 "README.md" := File readme;
                 "components" := Dir {[ "ItemList.tsx" := File "export {}" ]} ]})
    as (n2 & Hrun & Hfiles & _).
  - reflexivity.
  - reflexivity.
  - reflexivity.
  - intros (r & _ & Hr). discriminate Hr.
  - vm_compute. lia.
  - exists n2. split; [exact Hrun|].
    apply (Hfiles ["components"; "ItemList.tsx"]). reflexivity.
Defined.

(** A blank project name: the process exits with code 1, although no
    exception is thrown and the step that tests the destination is never
    reached. *)
Lemma C3_counterexample :
  exitCode (run_main allSucceed 0 (World root ["   "] [])) = Some 1
  ∧ run_try allSucceed 0 (World root ["   "] [])
    = Exited 1 (World root []
        (bannerTrace ++ [nameQuestion; LogError "Project name is required"]))
  ∧ ∀ e w', run_try allSucceed 0 (World root ["   "] []) ≠ Thrown e w'.
Proof.
  assert (Htry : run_try allSucceed 0 (World root ["   "] [])
    = Exited 1 (World root []
        (bannerTrace ++ [nameQuestion; LogError "Project name is required"])))
    by (vm_compute; reflexivity).
  split_and!; [vm_compute; reflexivity|exact Htry|].
  intros e w' H. rewrite Htry in H. discriminate H.
Qed.

Lemma C3_witness :
  1 = 1
  ∧ ((∃ answer rest,
        stdin (World rootTaken helperAnswers []) = answer :: rest
        ∧ JS.trim answer = EmptyString)
     ∨ (∃ e w', run_try allSucceed 0 (World rootTaken helperAnswers []) = Thrown e w')).
Proof.
  apply (proj2 (proj2 (C3_exit_codes home kitScripts allSucceed RefJSON.parse
    RefJSON.stringify 0 (World rootTaken helperAnswers [])))).
  - vm_compute. reflexivity.
  - discriminate.
Defined.

(** C4 (the code departs from the claim): a description with two dollar
    signs.  [String.prototype.replace] reads [$$] in the replacement text
    as one dollar sign, so the README does not get the description that
    the user typed, neither in the configuration step alone nor in the
    whole run with the template [basic-crud]. *)
Lemma C4_dollar_sign_is_expanded :
  run_update ["home"; "shop"] (shop "Earn $$ fast")
    (World (rootReadme "# {{PROJECT_NAME}}: {{PROJECT_DESCRIPTION}}") [] [])
  = Done tt (World (rootReadme "# shop: Earn $ fast") []
      [LogSuccess "Updated configuration files"])
  ∧ Spec.updateReadme "# {{PROJECT_NAME}}: {{PROJECT_DESCRIPTION}}" "shop" "Earn $$ fast"
    = "# shop: Earn $$ fast"
  ∧ ∃ n tr,
      run_main allSucceed 2 (World root ["helper-app"; "Earn $$ fast"; "1"; "1"; "1"] [])
      = Done tt (World n [] tr)
      ∧ FS.readFile n ["home"; "helper-app"; "README.md"]
        = Some "# helper-app - Earn $ fast - made with helper-app"
      ∧ Spec.updateReadme readme "helper-app" "Earn $$ fast"
        = "# helper-app - Earn $$ fast - made with helper-app".
Proof.
  split_and!; [vm_compute; reflexivity..|].
  eexists _, _. split_and!; vm_compute; reflexivity.
Qed.

(** A description that holds the name token: the first application puts
    the token into the README, the second one replaces it by the name. *)
Lemma C5_counterexample :
  run_update ["home"; "shop"] (shop "{{PROJECT_NAME}}")
    (World (rootReadme "About: {{PROJECT_DESCRIPTION}}") [] [])
  = Done tt (World (rootReadme "About: {{PROJECT_NAME}}") []
      [LogSuccess "Updated configuration files"])
  ∧ run_update ["home"; "shop"] (shop "{{PROJECT_NAME}}")
      (World (rootReadme "About: {{PROJECT_NAME}}") []
         [LogSuccess "Updated configuration files"])
    = Done tt (World (rootReadme "About: shop") []
        [LogSuccess "Updated configuration files";
         LogSuccess "Updated configuration files"])
  ∧ rootReadme "About: {{PROJECT_NAME}}" ≠ rootReadme "About: shop".
Proof.
  split_and!; [vm_compute; reflexivity..|].
  intros H. assert (FS.readFile (rootReadme "About: {{PROJECT_NAME}}")
                      ["home"; "shop"; "README.md"] = Some "About: shop") as E
    by (by rewrite H).
  vm_compute in E. discriminate E.
Qed.

Lemma C5_witness :
  run_update ["home"; "helper-app"] helperConfig
    (World rootScaffolded [] [LogSuccess "Updated configuration files"])
  = Done tt (World rootScaffolded []
      [LogSuccess "Updated configuration files"; LogSuccess "Updated configuration files"]).
Proof.
  apply (C5_second_application_is_identity RefJSON.parse RefJSON.stringify
           ["home"; "helper-app"] helperConfig (World rootCopied [] [])
           (World rootScaffolded [] [LogSuccess "Updated configuration files"])).
  - vm_compute. reflexivity.
  - intros text v Hr Hv. vm_compute in Hr. inversion Hr; subst text.
    vm_compute in Hv. inversion Hv; subst v. vm_compute. reflexivity.
  - intros readme1 Hr. vm_compute in Hr. inversion Hr; subst readme1.
    split; reflexivity.
Defined.


Lemma C7_witness :
  exitCode (run_main allFail 2 (World root helperAnswers [])) = Some 0.
Proof.
  assert (∃ w, upToInstall home kitScripts RefJSON.parse RefJSON.stringify 2
                 (World root helperAnswers []) = Done helperConfig w) as [w Hup].
  { eexists. vm_compute. reflexivity. }
  destruct (C7_fallback_package_manager home kitScripts allFail RefJSON.parse
              RefJSON.stringify 2 (World root helperAnswers []) helperConfig w Hup)
    as (_ & _ & w' & gitEvents & _ & _ & Hexit).
  - reflexivity.
  - exact Hexit.
Defined.

Lemma C8_witness :
  FS.lookup (rootMade "blog") ["home"; "blog"] = Some (Dir ∅)
  ∧ exitCode (run_main allFail 0 (World root ["blog"; ""; "4"; "1"; "2"] [])) = Some 0.
Proof.
  destruct (C8_missing_template home kitScripts allFail RefJSON.parse RefJSON.stringify
              0 (World root ["blog"; ""; "4"; "1"; "2"] []) "blog" "" "4" "1" "2" []
              (rootMade "blog"))
    as (Hempty & _ & w' & installEvents & gitEvents & _ & _ & Hexit).
  - reflexivity.
  - vm_compute. discriminate.
  - reflexivity.
  - reflexivity.
  - reflexivity.
  - split; [exact Hempty|exact Hexit].
Defined.

Lemma C9_witness :
  run_main allSucceed 0 (World root ["   "; "never read"] [])
  = Exited 1 (World root ["never read"]
      (bannerTrace ++ [nameQuestion; LogError "Project name is required"])).
Proof.
  refine (proj1 (C9_empty_name_exits home kitScripts allSucceed RefJSON.parse
    RefJSON.stringify 0 (World root ["   "; "never read"] []) "   " ["never read"] _ _)).
  - reflexivity.
  - reflexivity.
Defined.

(** A manifest with a number beyond the range of a double: it is read as
    [Infinity] and written as [null], so the file that is left holds
    another value for the key [size] than the file of the template.  A
    number beyond the precision of a double is written in its rounded
    form: [12345678901234567890] becomes [12345678901234567000]. *)
Lemma C10_counterexample :
  RefJSON.parse Cases.overflowManifest
  = Some (JObj [("name", JStr "template"); ("size", JNum "Infinity")])
  ∧ (∃ w' written,
       run_update ["home"; "shop"] (shop "A shop")
         (World (Cases.rootManifest Cases.overflowManifest) [] [])
       = Done tt w'
       ∧ FS.readFile (fs w') ["home"; "shop"; "package.json"] = Some written
       ∧ RefJSON.parse written
         = Some (JObj [("name", JStr "shop"); ("size", JNull);
                       ("description", JStr "A shop")])
       ∧ ¬ otherFieldsKept
             (JObj [("name", JStr "template"); ("size", JNum "Infinity")])
             (JObj [("name", JStr "shop"); ("size", JNull);
                    ("description", JStr "A shop")]))
  ∧ (∃ w',
       run_update ["home"; "shop"] (shop "A shop")
         (World (Cases.rootManifest Cases.longManifest) [] [])
       = Done tt w'
       ∧ FS.readFile (fs w') ["home"; "shop"; "package.json"]
         = Some (RefJSON.stringify
                   (JObj [("name", JStr "shop");
                          ("build", JNum "12345678901234567000");
                          ("description", JStr "A shop")]))).
Proof.
  split_and!.
  - vm_compute. reflexivity.
  - eexists _, _. split_and!.
    + vm_compute. reflexivity.
    + vm_compute. reflexivity.
    + vm_compute. reflexivity.
    + intros H. specialize (H "size"). cbn in H. by discriminate H.
  - eexists. split; vm_compute; reflexivity.
Qed.

Lemma C10_witness :
  ∃ written v',
    FS.readFile rootScaffolded ["home"; "helper-app"; "package.json"] = Some written
    ∧ updatedManifest RefJSON.parse manifest helperConfig = Some v'
    ∧ written = RefJSON.stringify v'
    ∧ RefJSON.parse written = Some v'
    ∧ otherFieldsKept manifestObject v'.
Proof.
  refine (proj1 (C10_other_fields_kept RefJSON.parse RefJSON.stringify
           ["home"; "helper-app"] helperConfig (World rootCopied [] [])
           manifest manifestObject _ _ _)
           (World rootScaffolded [] [LogSuccess "Updated configuration files"]) _).
  - reflexivity.
  - vm_compute. reflexivity.
  - intros v' Hv. vm_compute in Hv. inversion Hv; subst v'. vm_compute. reflexivity.
  - vm_compute. reflexivity.
Defined.

End Runs.

(** * The further properties on concrete runs *)

Section MoreRuns.
Import Scenario Cases.

Local Abbreviation run_main spawn :=
  (main home kitScripts spawn RefJSON.parse RefJSON.stringify).
Local Abbreviation run_update :=
  (updateConfigFiles RefJSON.parse RefJSON.stringify).
Local Abbreviation helperApp := ["home"; "helper-app"].
Local Abbreviation basicCrudPath := ["kit"; "templates"; "basic-crud"].

Lemma createProjectDirectory_adds_one_directory_witness :
  FS.lookup (rootMade "blog") ["home"; "blog"] = Some (Dir ∅)
  ∧ (∀ q r, ["home"; "blog"] = q ++ r → dirAt (rootMade "blog") q)
  ∧ (∀ q, (∀ r, ["home"; "blog"] ≠ q ++ r) →
          FS.lookup (rootMade "blog") q = FS.lookup root q).
Proof.
  apply (createProjectDirectory_adds_one_directory ["home"; "blog"] (World root [] [])
           (World (rootMade "blog") [] [LogSuccess "Created project directory: /home/blog"])).
  vm_compute. reflexivity.
Defined.

Lemma file_on_the_way_to_project_witness :
  ∃ w', run_main allSucceed 2 (World rootNotes ["notes/app"; "Test"; "1"; "1"; "1"] [])
        = Exited 1 w'
        ∧ fs w' = rootNotes ∧ stdin w' = [].
Proof.
  refine (proj2 (file_on_the_way_to_project home kitScripts allSucceed RefJSON.parse
    RefJSON.stringify 2 (World rootNotes ["notes/app"; "Test"; "1"; "1"; "1"] [])
    "notes/app" "Test" "1" "1" "1" [] ["home"; "notes"] ["app"] "to do" _ _ _ _ _)).
  - reflexivity.
  - vm_compute. discriminate.
  - reflexivity.
  - discriminate.
  - reflexivity.
Defined.

Lemma template_that_is_a_file_witness :
  FS.lookup rootFileTemplateMade ["home"; "blog"] = Some (Dir ∅)
  ∧ ∃ w', run_main allSucceed 1 (World rootFileTemplate blogAnswers []) = Exited 1 w'
          ∧ fs w' = rootFileTemplateMade.
Proof.
  refine (proj2 (template_that_is_a_file home kitScripts allSucceed RefJSON.parse
    RefJSON.stringify 0 (World rootFileTemplate blogAnswers [])
    "blog" "My blog" "4" "1" "1" [] rootFileTemplateMade "not a directory" _ _ _ _ _)).
  - reflexivity.
  - vm_compute. discriminate.
  - reflexivity.
  - vm_compute. reflexivity.
  - reflexivity.
Defined.

Lemma copyDirectory_writes_below_dest_witness :
  stdin (World rootCopied [] []) = []
  ∧ trace (World rootCopied [] []) = []
  ∧ ∀ q, diverge helperApp q → FS.lookup rootCopied q = FS.lookup (rootMade "helper-app") q.
Proof.
  apply (copyDirectory_writes_below_dest 2 basicCrudPath helperApp
           (World (rootMade "helper-app") [] []) (World rootCopied [] [])).
  vm_compute. reflexivity.
Defined.

Lemma copyDirectory_keeps_directories_witness : dirAt rootCopied ["kit"; "scripts"].
Proof.
  apply (copyDirectory_keeps_directories 2 basicCrudPath helperApp
           (World (rootMade "helper-app") [] []) (World rootCopied [] [])).
  - vm_compute. reflexivity.
  - exists ∅. reflexivity.
Defined.

Lemma project_inside_template_never_completes_witness :
  main customTemplate kitScripts allSucceed RefJSON.parse RefJSON.stringify 5
    (World rootNested ["app"; "My app"; "4"; "1"; "1"] [])
  ≠ Done tt (World rootNestedMade [] []).
Proof.
  apply (project_inside_template_never_completes customTemplate kitScripts allSucceed
           RefJSON.parse RefJSON.stringify 5
           (World rootNested ["app"; "My app"; "4"; "1"; "1"] [])
           "app" "My app" "4" "1" "1" []).
  - reflexivity.
  - exists ["app"]. split; [discriminate|reflexivity].
Defined.

Lemma materialize_writes_below_project_witness :
  stdin (World rootScaffolded [] helperSteps) = []
  ∧ (∃ events, helperSteps = [] ++ events ∧ Forall (λ e, isSpawn e = false) events)
  ∧ (∀ q, diverge (projectPathOf home "helper-app") q →
          FS.lookup rootScaffolded q = FS.lookup root q)
  ∧ (diverge (projectPathOf home "helper-app") (templatePathOf kitScripts "basic-crud") →
     ∀ rel, FS.lookup rootScaffolded (templatePathOf kitScripts "basic-crud" ++ rel)
            = FS.lookup root (templatePathOf kitScripts "basic-crud" ++ rel)).
Proof.
  apply (materialize_writes_below_project home kitScripts RefJSON.parse RefJSON.stringify
           2 helperConfig (World root [] []) (World rootScaffolded [] helperSteps)).
  vm_compute. reflexivity.
Defined.

Lemma updateConfigFiles_touches_two_files_witness :
  FS.lookup rootScaffolded (helperApp ++ ["components"; "ItemList.tsx"])
  = FS.lookup rootCopied (helperApp ++ ["components"; "ItemList.tsx"]).
Proof.
  apply (updateConfigFiles_touches_two_files RefJSON.parse RefJSON.stringify
           helperApp helperConfig (World rootCopied [] [])
           (World rootScaffolded [] [LogSuccess "Updated configuration files"])).
  - vm_compute. reflexivity.
  - do 2 apply diverge_below. by apply diverge_here.
  - do 2 apply diverge_below. by apply diverge_here.
Defined.

Lemma manifest_that_cannot_be_updated_witness :
  run_update ["home"; "shop"] (shop "A shop") (World (rootManifest "null") [] [])
  = Thrown TypeError (World (rootManifest "null") [] []).
Proof.
  refine (proj2 (manifest_that_cannot_be_updated RefJSON.parse RefJSON.stringify
    ["home"; "shop"] (shop "A shop") (World (rootManifest "null") [] []) "null" _) _).
  - reflexivity.
  - vm_compute. reflexivity.
Defined.

Lemma manifest_keeps_key_order_witness :
  ∃ props',
    updatedManifest RefJSON.parse bareManifest (shop "A shop") = Some (JObj props')
    ∧ props'.*1 = ["version"] ++ ["name"; "description"].
Proof.
  apply (manifest_keeps_key_order RefJSON.parse bareManifest (shop "A shop")
           [("version", JStr "1.0.0")]).
  vm_compute. reflexivity.
Defined.

Lemma readme_is_replaced_literally_witness :
  FS.readFile (rootReadme "# shop - A shop - made with shop") ["home"; "shop"; "README.md"]
  = Some (Spec.updateReadme readme "shop" "A shop").
Proof.
  apply (readme_is_replaced_literally RefJSON.parse RefJSON.stringify
           ["home"; "shop"] (shop "A shop") (World (rootReadme readme) [] [])
           (World (rootReadme "# shop - A shop - made with shop") []
              [LogSuccess "Updated configuration files"]) readme).
  - vm_compute. reflexivity.
  - reflexivity.
  - reflexivity.
  - reflexivity.
Defined.

Lemma readme_without_tokens_is_kept_witness :
  FS.readFile (rootReadme "# Plain") ["home"; "shop"; "README.md"] = Some "# Plain".
Proof.
  apply (readme_without_tokens_is_kept RefJSON.parse RefJSON.stringify
           ["home"; "shop"] (shop "Earn $$ fast") (World (rootReadme "# Plain") [] [])
           (World (rootReadme "# Plain") [] [LogSuccess "Updated configuration files"])).
  - vm_compute. reflexivity.
  - reflexivity.
  - reflexivity.
  - reflexivity.
Defined.

Lemma run_completes_witness :
  exitCode (run_main allSucceed 2 (World root helperAnswers [])) = Some 0.
Proof.
  destruct (run_completes home kitScripts allSucceed RefJSON.parse RefJSON.stringify 2
              (World root helperAnswers []) "helper-app" "Test" "1" "1" "1" []
              (rootMade "helper-app") basicCrudEntries)
    as (w1 & w' & _ & _ & _ & _ & _ & H).
  - reflexivity.
  - vm_compute. discriminate.
  - reflexivity.
  - vm_compute. reflexivity.
  - vm_compute. reflexivity.
  - intros (r & _ & Hr). vm_compute in Hr. discriminate.
  - vm_compute. lia.
  - vm_compute. eexists. split; [reflexivity|discriminate].
  - intros m Hm. vm_compute in Hm. discriminate.
  - exact H.
Defined.

Lemma input_ends_early_witness :
  ∃ w', (run_main allSucceed 2 (World root ["blog"; "My blog"] []) = Waiting w'
         ∨ run_main allSucceed 2 (World root ["blog"; "My blog"] []) = Exited 1 w')
        ∧ fs w' = root
        ∧ ∃ events, trace w' = [] ++ events ∧ Forall (λ e, isSpawn e = false) events.
Proof.
  apply (input_ends_early home kitScripts allSucceed RefJSON.parse RefJSON.stringify 2
           (World root ["blog"; "My blog"] [])).
  simpl. lia.
Defined.

Lemma valid_choice_selects_entry_witness :
  (1 ≤ 2 ≤ 4 → types !! Z.to_nat (2 - 1) = Some (projectTypeOf " 2 "))
  ∧ (1 ≤ 2 ≤ 3 → options !! Z.to_nat (2 - 1) = Some (databaseConfigOf " 2 "))
  ∧ (authConfigOf " 2 " = true ↔ 2 = 1).
Proof. apply (valid_choice_selects_entry " 2 " 2). reflexivity. Defined.

Lemma plain_name_is_child_witness :
  projectPathOf home "blog" = home ++ ["blog"]
  ∧ projectPathOf home ("../" +:+ "blog") = removelast home ++ ["blog"].
Proof. apply (plain_name_is_child home "blog"). reflexivity. Defined.

Lemma pnpm_success_skips_npm_witness :
  installDependencies allSucceed ["home"; "blog"] (World (rootMade "blog") [] [])
  = Done tt (World (rootMade "blog") []
      [LogInfo "Installing dependencies...";
       Exec "pnpm install" ["home"; "blog"];
       LogSuccess "Dependencies installed successfully"]).
Proof.
  refine (proj1 (pnpm_success_skips_npm allSucceed ["home"; "blog"]
                   (World (rootMade "blog") [] []) _)).
  reflexivity.
Defined.

Lemma commands_run_in_project_directory_witness :
  ∃ w', finalWorld (run_main allSucceed 2 (World root helperAnswers [])) = Some w'
        ∧ ∃ events,
            trace w' = [] ++ events
            ∧ Forall (λ e, ∀ cmd dir, e = Exec cmd dir →
                             dir = projectPathOf home (JS.trim "helper-app")
                             ∧ cmd ∈ commands) events.
Proof.
  eexists. split; [vm_compute; reflexivity|].
  apply (commands_run_in_project_directory home kitScripts allSucceed RefJSON.parse
           RefJSON.stringify 2 (World root helperAnswers []) "helper-app"
           ["Test"; "1"; "1"; "1"]).
  - reflexivity.
  - vm_compute. reflexivity.
Defined.

Lemma lines_logged_white_lose_their_colour_witness :
  ∃ w', run_main allSucceed 2 (World root helperAnswers []) = Done tt w'
        ∧ ∃ events,
            trace w' = [] ++ events
            ∧ Forall wellColoured events
            ∧ Log "white" "2. pnpm dev" ∈ events.
Proof.
  eexists. split; [vm_compute; reflexivity|].
  apply (lines_logged_white_lose_their_colour home kitScripts allSucceed RefJSON.parse
           RefJSON.stringify 2 (World root helperAnswers [])).
  vm_compute. reflexivity.
Defined.

Lemma failed_run_spawns_nothing_witness :
  ∃ events,
    answersTrace
      ++ [LogError "Failed to create app: Directory /home/helper-app already exists"]
    = [] ++ events
    ∧ Forall (λ e, isSpawn e = false) events.
Proof.
  apply (failed_run_spawns_nothing home kitScripts allSucceed RefJSON.parse
           RefJSON.stringify 0 (World rootTaken helperAnswers []) 1
           (World rootTaken []
              (answersTrace
                 ++ [LogError "Failed to create app: Directory /home/helper-app already exists"]))).
  vm_compute. reflexivity.
Defined.

Lemma failed_run_leaves_project_directory_witness :
  ∃ w', run_main allSucceed 1 (World rootFileTemplate blogAnswers []) = Exited 1 w'
        ∧ dirAt (fs w') (projectPathOf home (JS.trim "blog")).
Proof.
  eexists. split; [vm_compute; reflexivity|].
  refine (proj1 (proj2 (failed_run_leaves_project_directory home kitScripts allSucceed
    RefJSON.parse RefJSON.stringify 1 (World rootFileTemplate blogAnswers [])
    "blog" "My blog" "4" "1" "1" [] rootFileTemplateMade 1 _ _ _ _ _ _))).
  - reflexivity.
  - vm_compute. discriminate.
  - reflexivity.
  - vm_compute. reflexivity.
  - vm_compute. reflexivity.
Defined.

Lemma answers_are_trimmed_witness :
  ∃ text w',
    getProjectName (World root ["  my app  "] []) = Done text w'
    ∧ (∃ w'', getProjectDescription (World root ["  my app  "] []) = Done text w'')
    ∧ startsWithSpace text = false
    ∧ endsWithSpace text = false
    ∧ JS.trim text = text
    ∧ (isBlank "  my app  " = true → text = EmptyString).
Proof.
  apply (answers_are_trimmed (World root ["  my app  "] []) "  my app  " []).
  reflexivity.
Defined.

End MoreRuns.
